(** * CyberSentinel DLP: SIEM fan-out, connectors and action result models

    A shallow embedding of
      - [app/integrations/siem/base.py]                (module [Base]),
      - [app/integrations/siem/integration_service.py] (module [Service]),
      - [app/integrations/siem/elk_connector.py]       (module [ELK]),
      - [app/integrations/siem/splunk_connector.py]    (module [Splunk]),
      - [app/actions/action_types.py]                  (module [ActionTypes]),
    followed by the properties established about them.

    Conventions.  A Python [dict] is an insertion-ordered association list
    with the operations of section [PyDict]; a Python [list] is a [list];
    Python values of type [Any] are the trees of type [value]; a coroutine
    is a computation in the monad [M]: it threads the state it mutates and
    finishes with [Ret] or with [Raise] (an instance of Python's
    [Exception]), the mutations done before the exception being kept.
    [await] is sequencing, and [asyncio.gather] runs its coroutines one
    after the other in the order in which they were given.  Logging calls
    are not part of the model. *)

From Stdlib Require Import ZArith String Ascii List Lia.
From stdpp Require Import base tactics option list strings pretty.

Set Warnings "-register-all".

Local Open Scope string_scope.
Local Open Scope Z_scope.
Local Open Scope list_scope.

(** ** Exceptions and the state-and-exception monad *)

(** A Python exception; [str e] is the text [str(e)] gives. *)
Record exn : Type := Exception { str : string }.

Inductive outcome (A : Type) : Type :=
| Ret (a : A)
| Raise (e : exn).
Arguments Ret {A} a.
Arguments Raise {A} e.

Definition is_raise {A} (o : outcome A) : bool :=
  match o with Ret _ => false | Raise _ => true end.

Definition M (S A : Type) : Type := S → outcome A * S.

#[global] Instance M_ret {S} : MRet (M S) := λ A a s, (Ret a, s).

#[global] Instance M_bind {S} : MBind (M S) := λ A B k m s,
  match m s with
  | (Ret a, s') => k a s'
  | (Raise e, s') => (Raise e, s')
  end.

Definition raise {S A} (e : exn) : M S A := λ s, (Raise e, s).
Definition get {S} : M S S := λ s, (Ret s, s).
Definition put {S} (s : S) : M S unit := λ _, (Ret tt, s).
Definition modify {S} (f : S → S) : M S unit := λ s, (Ret tt, f s).

(** [try: body except Exception as e: handler e] *)
Definition try_except {S A} (body : M S A) (handler : exn → M S A) : M S A :=
  λ s, match body s with
       | (Ret a, s') => (Ret a, s')
       | (Raise e, s') => handler e s'
       end.

(** The value a settled coroutine leaves in the list that
    [asyncio.gather(..., return_exceptions=True)] returns. *)
Definition settle {S A} (m : M S A) : M S (outcome A) :=
  λ s, let '(o, s') := m s in (Ret o, s').

Fixpoint gather {S A} (tasks : list (M S A)) : M S (list (outcome A)) :=
  match tasks with
  | [] => mret []
  | t :: rest =>
      r ← settle t;
      rs ← gather rest;
      mret (r :: rs)
  end.

(** ** Python dictionaries *)

Section PyDict.
Context {V : Type}.

Definition dict_keys (d : list (string * V)) : list string := d.*1.
Definition dict_values (d : list (string * V)) : list V := d.*2.

(** [d.get(k)] *)
Fixpoint dict_get (k : string) (d : list (string * V)) : option V :=
  match d with
  | [] => None
  | (k', v) :: rest => if decide (k = k') then Some v else dict_get k rest
  end.

(** [k in d] *)
Definition dict_mem (k : string) (d : list (string * V)) : bool :=
  bool_decide (is_Some (dict_get k d)).

(** [d[k] = v]: an existing key keeps its place, a new one goes last. *)
Fixpoint dict_set (k : string) (v : V) (d : list (string * V)) : list (string * V) :=
  match d with
  | [] => [(k, v)]
  | (k', v') :: rest =>
      if decide (k = k') then (k, v) :: rest else (k', v') :: dict_set k v rest
  end.

(** [del d[k]] *)
Fixpoint dict_del (k : string) (d : list (string * V)) : list (string * V) :=
  match d with
  | [] => []
  | (k', v') :: rest =>
      if decide (k = k') then rest else (k', v') :: dict_del k rest
  end.
End PyDict.

Abbreviation dict V := (list (string * V)).

(** ** Python lists *)

(** [x in l] *)
Definition list_mem (x : string) (l : list string) : bool := bool_decide (x ∈ l).

(** [l.remove(x)]: drops the first occurrence. It is only called under
    the guard [x in l]. *)
Fixpoint list_remove (x : string) (l : list string) : list string :=
  match l with
  | [] => []
  | y :: rest => if decide (x = y) then rest else y :: list_remove x rest
  end.

(** ** Values of type [Any] *)

Inductive value : Type :=
| VNone
| VBool (b : bool)
| VInt (z : Z)
| VStr (s : string)
| VList (l : list value)
| VDict (d : list (string * value)).

(** Truth value of a Python object in a condition. *)
Definition truthy (v : value) : bool :=
  match v with
  | VNone => false
  | VBool b => b
  | VInt z => negb (z =? 0)
  | VStr s => negb (bool_decide (s = ""))
  | VList l => match l with [] => false | _ => true end
  | VDict d => match d with [] => false | _ => true end
  end.

(** [v is not None] *)
Definition is_not_none (v : value) : bool :=
  match v with VNone => false | _ => true end.

(** [d.get(k)] seen as a value, and [d.get(k, default)]. *)
Definition get_or_none (k : string) (d : dict value) : value :=
  default VNone (dict_get k d).
Definition get_or (k : string) (dflt : value) (d : dict value) : value :=
  default dflt (dict_get k d).

(** A string argument with default [None], tested with [not x] / [x or y]. *)
Definition str_truthy (o : option string) : bool :=
  match o with
  | None => false
  | Some s => negb (bool_decide (s = ""))
  end.

(** ** [datetime] *)

Record datetime : Type := Datetime {
  year : nat; month : nat; day : nat;
  hour : nat; minute : nat; second : nat; microsecond : nat
}.

Definition digit (n : nat) : ascii := ascii_of_nat (48 + n mod 10).

(** [n] in decimal on [width] digits, zero-padded. *)
Fixpoint zpad (width n : nat) : string :=
  match width with
  | O => ""
  | S w => zpad w (n / 10) +:+ String (digit n) ""
  end.

(** [dt.strftime("%Y.%m.%d")] *)
Definition strftime_Ymd (dt : datetime) : string :=
  zpad 4 (year dt) +:+ "." +:+ zpad 2 (month dt) +:+ "." +:+ zpad 2 (day dt).

(** [dt.isoformat()] *)
Definition isoformat (dt : datetime) : string :=
  zpad 4 (year dt) +:+ "-" +:+ zpad 2 (month dt) +:+ "-" +:+ zpad 2 (day dt)
  +:+ "T" +:+ zpad 2 (hour dt) +:+ ":" +:+ zpad 2 (minute dt) +:+ ":" +:+ zpad 2 (second dt)
  +:+ (if decide (microsecond dt = O) then "" else "." +:+ zpad 6 (microsecond dt)).

(** * [app/integrations/siem/base.py] *)

Module Base.

Inductive SIEMType : Type := ELK | SPLUNK | QRADAR | SENTINEL | WAZUH | CUSTOM.

(** [siem_type.value] *)
Definition SIEMType_value (t : SIEMType) : string :=
  match t with
  | ELK => "elk"
  | SPLUNK => "splunk"
  | QRADAR => "qradar"
  | SENTINEL => "sentinel"
  | WAZUH => "wazuh"
  | CUSTOM => "custom"
  end.

Inductive EventSeverity : Type := CRITICAL | HIGH | MEDIUM | LOW | INFO.

(** The abstract base class.  [C] is the state of a connector object
    together with the part of the world its methods act on (transport,
    clock): the attributes are fields read from it, the abstract
    coroutines are computations over it.  [query_events] and
    [create_alert] are not used by the code modelled here. *)
Class SIEMConnector (C : Type) : Type := {
  name : C → string;
  siem_type : C → SIEMType;
  host : C → string;
  port : C → Z;
  connected : C → bool;
  utcnow : C → datetime;
  connect : M C bool;
  disconnect : M C bool;
  test_connection : M C (dict value);
  send_event : dict value → option string → M C bool;
  send_batch : list (dict value) → option string → M C (dict value)
}.

(** One iteration of the loop of [_remove_empty_dicts]; [rec] is the
    function itself. *)
Definition clean_item (rec : value → value)
    (cleaned : dict value) (item : string * value) : dict value :=
  let '(key, v) := item in
  match v with
  | VDict _ =>
      let nested := rec v in
      if truthy nested
         && existsb is_not_none (match nested with VDict n => dict_values n | _ => [] end)
      then dict_set key nested cleaned
      else cleaned
  | VNone => cleaned
  | _ => dict_set key v cleaned
  end.

Fixpoint _remove_empty_dicts (d : value) : value :=
  match d with
  | VDict items => VDict (fold_left (clean_item _remove_empty_dicts) items [])
  | _ => d
  end.

(** [now] is the reading of [datetime.utcnow()] taken when the literal
    is built. *)
Definition format_dlp_event (now : datetime) (event : dict value) : value :=
  let formatted := [
    ("timestamp", get_or "timestamp" (VStr (isoformat now)) event);
    ("event_id", get_or_none "event_id" event);
    ("event_type", VStr "dlp_incident");
    ("source", VStr "cybersentinel_dlp");
    ("severity", get_or "severity" (VStr "medium") event);
    ("agent", VDict [
       ("id", get_or_none "agent_id" event);
       ("name", get_or_none "agent_name" event);
       ("hostname", get_or_none "hostname" event);
       ("ip", get_or_none "agent_ip" event);
       ("os", get_or_none "os" event)]);
    ("dlp", VDict [
       ("classification_type", get_or_none "classification_type" event);
       ("confidence", get_or_none "confidence" event);
       ("blocked", get_or "blocked" (VBool false) event);
       ("policy_id", get_or_none "policy_id" event);
       ("policy_name", get_or_none "policy_name" event);
       ("rule_id", get_or_none "rule_id" event)]);
    ("user", VDict [
       ("username", get_or_none "username" event);
       ("domain", get_or_none "domain" event);
       ("email", get_or_none "user_email" event)]);
    ("network", VDict [
       ("source_ip", get_or_none "source_ip" event);
       ("destination_ip", get_or_none "destination_ip" event);
       ("destination_host", get_or_none "destination_host" event);
       ("destination_country", get_or_none "destination_country" event)]);
    ("file", VDict [
       ("name", get_or_none "file_name" event);
       ("path", get_or_none "file_path" event);
       ("size", get_or_none "file_size" event);
       ("hash", get_or_none "file_hash" event);
       ("type", get_or_none "file_type" event)]);
    ("actions", get_or "actions" (VList []) event);
    ("metadata", get_or "metadata" (VDict []) event)
  ] in
  _remove_empty_dicts (VDict formatted).

Definition health_check `{SIEMConnector C} : M C (dict value) :=
  try_except
    (test_result ← test_connection;
     self ← get;
     mret [("name", VStr (name self));
           ("siem_type", VStr (SIEMType_value (siem_type self)));
           ("status", VStr (if truthy (get_or_none "success" test_result)
                            then "healthy" else "unhealthy"));
           ("connected", VBool (connected self));
           ("host", VStr (host self));
           ("port", VInt (port self));
           ("test_result", VDict test_result);
           ("timestamp", VStr (isoformat (utcnow self)))])
    (λ e,
     self ← get;
     mret [("name", VStr (name self));
           ("siem_type", VStr (SIEMType_value (siem_type self)));
           ("status", VStr "error");
           ("connected", VBool false);
           ("error", VStr (str e));
           ("timestamp", VStr (isoformat (utcnow self)))]).

End Base.

(** * [app/integrations/siem/integration_service.py] *)

Module Service.
Import Base.

(** The coroutines of a connector that the service awaits. *)
Inductive method : Type :=
| MConnect | MDisconnect | MHealthCheck | MSendEvent | MSendBatch.

#[global] Instance method_eq_dec : EqDecision method.
Proof. solve_decision. Defined.

Section WithConnector.
Context {C : Type} `{!SIEMConnector C}.

Record SIEMIntegrationService : Type := {
  connectors : dict C;
  active_connectors : list string
}.

(** The service object, and the connector coroutines run on its behalf so
    far, oldest first. *)
Record World : Type := {
  self : SIEMIntegrationService;
  calls : list (string * method)
}.

(** [SIEMIntegrationService()] *)
Definition init : World :=
  {| self := {| connectors := []; active_connectors := [] |}; calls := [] |}.

Definition set_connectors (f : dict C → dict C) (w : World) : World :=
  {| self := {| connectors := f (connectors (self w));
                active_connectors := active_connectors (self w) |};
     calls := calls w |}.

Definition set_active (f : list string → list string) (w : World) : World :=
  {| self := {| connectors := connectors (self w);
                active_connectors := f (active_connectors (self w)) |};
     calls := calls w |}.

Definition log_call (c : string * method) (w : World) : World :=
  {| self := self w; calls := calls w ++ [c] |}.

(** Runs coroutine [m] of the connector object [connector] that was
    found in the registry under [name].  The object is shared with the
    registry: as long as it is registered, the coroutine acts on the state
    stored there and leaves its mutations there, also when it raises. *)
Definition on_connector {A} (name : string) (meth : method) (connector : C)
    (m : M C A) : M World A :=
  λ w,
    match dict_get name (connectors (self w)) with
    | Some obj =>
        let '(r, obj') := m obj in
        (r, log_call (name, meth) (set_connectors (dict_set name obj') w))
    | None =>
        let '(r, _) := m connector in
        (r, log_call (name, meth) w)
    end.

Definition register_connector (connector : C) : M World bool :=
  try_except
    (modify (set_connectors (dict_set (name connector) connector));;
     mret true)
    (λ e, mret false).

Definition unregister_connector (name : string) : M World bool :=
  try_except
    (w ← get;
     if dict_mem name (connectors (self w)) then
       modify (set_connectors (dict_del name));;
       w ← get;
       (if list_mem name (active_connectors (self w))
        then modify (set_active (list_remove name))
        else mret tt);;
       mret true
     else mret false)
    (λ e, mret false).

(** The body of the loop of [connect_all] for one item of
    [self.connectors.items()]. *)
Definition connect_one (name : string) (connector : C) (results : dict bool)
    : M World (dict bool) :=
  try_except
    (success ← on_connector name MConnect connector connect;
     let results := dict_set name success results in
     w ← get;
     (if success then
        if negb (list_mem name (active_connectors (self w)))
        then modify (set_active (λ l, l ++ [name]))
        else mret tt
      else
        if list_mem name (active_connectors (self w))
        then modify (set_active (list_remove name))
        else mret tt);;
     mret results)
    (λ e, mret (dict_set name false results)).

Fixpoint connect_all_loop (items : dict C) (results : dict bool)
    : M World (dict bool) :=
  match items with
  | [] => mret results
  | (name, connector) :: rest =>
      results ← connect_one name connector results;
      connect_all_loop rest results
  end.

Definition connect_all : M World (dict bool) :=
  w ← get;
  connect_all_loop (connectors (self w)) [].

(** The first loop of [send_event_to_all] and [send_batch_to_all]: the
    active names that have a connector, with that connector. *)
Definition scheduled (w : World) : list (string * C) :=
  omap (λ name, match dict_get name (connectors (self w)) with
                | Some connector => Some (name, connector)
                | None => None
                end)
       (active_connectors (self w)).

Definition send_event_to_all (event : dict value) (index : option string)
    : M World (dict bool) :=
  w ← get;
  let tasks := map (λ '(name, connector),
                      on_connector name MSendEvent connector (send_event event index))
                   (scheduled w) in
  let connector_names := map fst (scheduled w) in
  results ← gather tasks;
  mret (fold_left (λ status_map '(name, result),
                     match result with
                     | Raise _ => dict_set name false status_map
                     | Ret sent => dict_set name sent status_map
                     end)
                  (zip connector_names results) []).

Definition send_batch_to_all (events : list (dict value)) (index : option string)
    : M World (dict (dict value)) :=
  w ← get;
  let tasks := map (λ '(name, connector),
                      on_connector name MSendBatch connector (send_batch events index))
                   (scheduled w) in
  let connector_names := map fst (scheduled w) in
  results ← gather tasks;
  mret (fold_left (λ results_map '(name, result),
                     match result with
                     | Raise e => dict_set name [("success", VBool false);
                                                 ("error", VStr (str e))] results_map
                     | Ret r => dict_set name r results_map
                     end)
                  (zip connector_names results) []).

Definition health_check_all : M World (dict (dict value)) :=
  w ← get;
  let tasks := map (λ '(name, connector),
                      on_connector name MHealthCheck connector health_check)
                   (connectors (self w)) in
  let connector_names := map fst (connectors (self w)) in
  results ← gather tasks;
  mret (fold_left (λ health_map '(name, result),
                     match result with
                     | Raise e => dict_set name [("status", VStr "error");
                                                 ("error", VStr (str e))] health_map
                     | Ret r => dict_set name r health_map
                     end)
                  (zip connector_names results) []).

Definition get_connector (name : string) : M World (option C) :=
  w ← get;
  mret (dict_get name (connectors (self w))).

Definition list_connectors : M World (list (dict value)) :=
  w ← get;
  mret (map (λ '(name, connector),
               [("name", VStr name);
                ("siem_type", VStr (SIEMType_value (siem_type connector)));
                ("connected", VBool (connected connector));
                ("active", VBool (list_mem name (active_connectors (self w))))])
            (connectors (self w))).

Definition disconnect_one (name : string) (connector : C) (results : dict bool)
    : M World (dict bool) :=
  try_except
    (success ← on_connector name MDisconnect connector disconnect;
     let results := dict_set name success results in
     w ← get;
     (if list_mem name (active_connectors (self w))
      then modify (set_active (list_remove name))
      else mret tt);;
     mret results)
    (λ e, mret (dict_set name false results)).

Fixpoint disconnect_all_loop (items : dict C) (results : dict bool)
    : M World (dict bool) :=
  match items with
  | [] => mret results
  | (name, connector) :: rest =>
      results ← disconnect_one name connector results;
      disconnect_all_loop rest results
  end.

Definition disconnect_all : M World (dict bool) :=
  w ← get;
  disconnect_all_loop (connectors (self w)) [].

(** The handler of [DELETE /connectors/{connector_name}] in
    [app/api/v1/siem.py], up to the call of [unregister_connector]; its
    result is what that call returned. *)
Definition api_unregister_connector (connector_name : string) : M World bool :=
  found ← get_connector connector_name;
  match found with
  | Some connector =>
      on_connector connector_name MDisconnect connector disconnect;;
      unregister_connector connector_name
  | None => unregister_connector connector_name
  end.

End WithConnector.
Arguments SIEMIntegrationService C : clear implicits.
Arguments World C : clear implicits.

End Service.

(** * [app/integrations/siem/elk_connector.py] *)

Module ELK.
Import Base.

(** Keyword arguments of [AsyncElasticsearch(...)]. *)
Record ClientArgs : Type := {
  arg_cloud_id : option string;
  arg_hosts : option (list string);
  arg_api_key : option string;
  arg_basic_auth : option (option string * option string);
  arg_verify_certs : option bool;
  arg_config : dict value
}.

(** The [elasticsearch] package and the clock are not part of the
    repository.  [Env] is the state of the world they act on; a coroutine
    of the client is a computation over it.  [async_streaming_bulk]
    gives the pairs it yields and, when the iteration ends with an
    exception, that exception. *)
Class Elasticsearch (Client Env : Type) : Type := {
  AsyncElasticsearch : ClientArgs → Env → outcome Client;
  info : Client → M Env (dict value);
  index : Client → string → value → M Env (dict value);
  async_streaming_bulk :
    Client → list value → Env → (list (bool * value) * option exn) * Env;
  utcnow : Env → datetime
}.

(** What the connector asks of the cluster. *)
Inductive request : Type :=
| IndexRequest (index : string) (document : value)
| BulkRequest (actions : list value).

Section WithClient.
Context {Client Env : Type} `{!Elasticsearch Client Env}.

Record ELKConnector : Type := {
  name : string;
  host : string;
  port : Z;
  use_ssl : bool;
  verify_certs : bool;
  config : dict value;
  username : option string;
  password : option string;
  api_key : option string;
  cloud_id : option string;
  index_prefix : string;
  client : option Client;
  connected : bool
}.

Definition set_client (cl : Client) (c : ELKConnector) : ELKConnector :=
  {| name := name c; host := host c; port := port c; use_ssl := use_ssl c;
     verify_certs := verify_certs c; config := config c; username := username c;
     password := password c; api_key := api_key c; cloud_id := cloud_id c;
     index_prefix := index_prefix c; client := Some cl; connected := connected c |}.

Definition set_connected (b : bool) (c : ELKConnector) : ELKConnector :=
  {| name := name c; host := host c; port := port c; use_ssl := use_ssl c;
     verify_certs := verify_certs c; config := config c; username := username c;
     password := password c; api_key := api_key c; cloud_id := cloud_id c;
     index_prefix := index_prefix c; client := client c; connected := b |}.

(** The connector object, the world, and the requests made so far,
    oldest first. *)
Record State : Type := {
  self : ELKConnector;
  env : Env;
  requests : list request
}.

Definition on_self (f : ELKConnector → ELKConnector) : M State unit :=
  modify (λ s, {| self := f (self s); env := env s; requests := requests s |}).

Definition lift_env {A} (m : M Env A) : M State A :=
  λ s, let '(r, e') := m (env s) in
       (r, {| self := self s; env := e'; requests := requests s |}).

Definition send_request (r : request) : M State unit :=
  modify (λ s, {| self := self s; env := env s; requests := requests s ++ [r] |}).

Definition AttributeError {A} (what : string) : M State A :=
  raise (Exception what).

(** [self.client.<coroutine>]: fails on [None]. *)
Definition with_client {A} (f : Client → M State A) : M State A :=
  s ← get;
  match client (self s) with
  | Some cl => f cl
  | None => AttributeError "'NoneType' object has no attribute"
  end.

(** [x if x else None] for an optional string. *)
Definition if_truthy (o : option string) : option string :=
  if str_truthy o then o else None.

(** [AsyncElasticsearch(...)] *)
Definition new_client (args : ClientArgs) : M State Client :=
  λ s, (AsyncElasticsearch args (env s), s).

Definition connect : M State bool :=
  try_except
    (s ← get;
     let args :=
       if str_truthy (cloud_id (self s)) then
         {| arg_cloud_id := cloud_id (self s);
            arg_hosts := None;
            arg_api_key := if_truthy (api_key (self s));
            arg_basic_auth :=
              if str_truthy (username (self s))
              then Some (username (self s), password (self s)) else None;
            arg_verify_certs := None;
            arg_config := [] |}
       else
         let scheme := if use_ssl (self s) then "https" else "http" in
         {| arg_cloud_id := None;
            arg_hosts := Some [scheme +:+ "://" +:+ host (self s) +:+ ":"
                               +:+ pretty (port (self s))];
            arg_api_key := if_truthy (api_key (self s));
            arg_basic_auth :=
              if str_truthy (username (self s))
              then Some (username (self s), password (self s)) else None;
            arg_verify_certs := Some (verify_certs (self s));
            arg_config := config (self s) |} in
     cl ← new_client args;
     on_self (set_client cl);;
     info ← with_client (λ cl, lift_env (info cl));
     on_self (set_connected true);;
     (* the logging call evaluates info.get("version", {}).get("number") *)
     match get_or "version" (VDict []) info with
     | VDict _ => mret true
     | _ => AttributeError "object has no attribute 'get'"
     end)
    (λ e, on_self (set_connected false);; mret false).

(** [if not self.client or not self.connected: await self.connect()] *)
Definition ensure_connected : M State unit :=
  s ← get;
  if negb (bool_decide (is_Some (client (self s)))) || negb (connected (self s))
  then connect;; mret tt
  else mret tt.

(** The index name a call with argument [index] writes to, at clock
    reading [now]: [index] when it is truthy, else the daily index. *)
Definition daily_index (prefix : string) (now : datetime) : string :=
  prefix +:+ "-" +:+ strftime_Ymd now.

Definition target_index_of (prefix : string) (now : datetime)
    (index : option string) : string :=
  match index with
  | Some i => if str_truthy index then i else daily_index prefix now
  | None => daily_index prefix now
  end.

Definition send_event (event : dict value) (index : option string) : M State bool :=
  try_except
    (ensure_connected;;
     s ← get;
     let formatted_event := format_dlp_event (utcnow (env s)) event in
     let index := target_index_of (index_prefix (self s)) (utcnow (env s)) index in
     result ← with_client (λ cl,
                send_request (IndexRequest index formatted_event);;
                lift_env (ELK.index cl index formatted_event));
     mret match get_or_none "result" result with
          | VStr r => bool_decide (r = "created") || bool_decide (r = "updated")
          | _ => false
          end)
    (λ e, mret false).

(** Running [async_streaming_bulk] to its end: the pairs it yielded, or
    the exception that ended it. *)
Definition streaming_bulk (cl : Client) (actions : list value)
    : M State (list (bool * value)) :=
  λ s, let '(items, raised, e') := async_streaming_bulk cl actions (env s) in
       let s' := {| self := self s; env := e'; requests := requests s |} in
       match raised with
       | None => (Ret items, s')
       | Some e => (Raise e, s')
       end.

(** The counting loop over what [async_streaming_bulk] yields. *)
Definition count_results (items : list (bool * value)) : Z * Z :=
  fold_left (λ '(success_count, error_count) '(ok, result),
               if ok : bool then (success_count + 1, error_count)
               else (success_count, error_count + 1))
            items (0, 0).

Definition send_batch (events : list (dict value)) (index : option string)
    : M State (dict value) :=
  try_except
    (ensure_connected;;
     s ← get;
     let target_index :=
       target_index_of (index_prefix (self s)) (utcnow (env s)) index in
     let actions :=
       map (λ event, VDict [("_index", VStr target_index);
                            ("_source", format_dlp_event (utcnow (env s)) event)])
           events in
     items ← with_client (λ cl,
               send_request (BulkRequest actions);;
               streaming_bulk cl actions);
     let '(success_count, error_count) := count_results items in
     mret [("success", VBool true);
           ("total", VInt (Z.of_nat (length events)));
           ("indexed", VInt success_count);
           ("failed", VInt error_count);
           ("index", VStr target_index)])
    (λ e,
     mret [("success", VBool false);
           ("error", VStr (str e));
           ("total", VInt (Z.of_nat (length events)));
           ("indexed", VInt 0);
           ("failed", VInt (Z.of_nat (length events)))]).

End WithClient.
Arguments ELKConnector Client : clear implicits.
Arguments State Client Env : clear implicits.

End ELK.

(** * [app/integrations/siem/splunk_connector.py] *)

Module Splunk.
Import Base.

(** The body of a POST: [data=<str>], [data=<dict>] or [json=<object>]. *)
Inductive body : Type :=
| Data (text : string)
| Form (fields : dict (option string))
| Json (payload : value).

Record post_request : Type := {
  url : string;
  headers : dict string;
  content : body;
  ssl : bool
}.

(** A response, with what [await response.json()] and
    [await response.text()] give. *)
Record response : Type := {
  status : Z;
  json : outcome value;
  text : outcome string
}.

(** [aiohttp], [urllib.parse.urljoin], [json.dumps], the clock, and the
    conversion [int(datetime.fromisoformat(x).timestamp())] are not part
    of the repository.  [new_session ssl] stands for
    [ClientSession(connector=TCPConnector(ssl=ssl), headers=...)]. *)
Class Aiohttp (Session Env : Type) : Type := {
  new_session : bool → Env → outcome Session;
  post : Session → post_request → M Env response;
  urljoin : string → string → string;
  json_dumps : value → string;
  epoch_seconds : value → outcome Z;
  utcnow : Env → datetime
}.

Section WithSession.
Context {Session Env : Type} `{!Aiohttp Session Env}.

Record SplunkConnector : Type := {
  name : string;
  host : string;
  port : Z;
  use_ssl : bool;
  verify_certs : bool;
  hec_token : option string;
  username : option string;
  password : option string;
  source : string;
  sourcetype : string;
  index : string;
  base_url : string;
  hec_url : string;
  api_url : string;
  session : option Session;
  session_key : value;
  connected : bool
}.

(** The attributes [__init__] computes from its arguments. *)
Definition init (name host : string) (port : Z) (hec_token username password : option string)
    (use_ssl verify_certs : bool) (source sourcetype index : string) : SplunkConnector :=
  let scheme := if use_ssl then "https" else "http" in
  let base_url := scheme +:+ "://" +:+ host +:+ ":" +:+ pretty port in
  {| name := name; host := host; port := port; use_ssl := use_ssl;
     verify_certs := verify_certs; hec_token := hec_token; username := username;
     password := password; source := source; sourcetype := sourcetype;
     index := index; base_url := base_url;
     hec_url := urljoin base_url "/services/collector";
     api_url := urljoin base_url "/services";
     session := None; session_key := VNone; connected := false |}.

Definition set_session (x : Session) (c : SplunkConnector) : SplunkConnector :=
  {| name := name c; host := host c; port := port c; use_ssl := use_ssl c;
     verify_certs := verify_certs c; hec_token := hec_token c; username := username c;
     password := password c; source := source c; sourcetype := sourcetype c;
     index := index c; base_url := base_url c; hec_url := hec_url c;
     api_url := api_url c; session := Some x; session_key := session_key c;
     connected := connected c |}.

Definition set_session_key (k : value) (c : SplunkConnector) : SplunkConnector :=
  {| name := name c; host := host c; port := port c; use_ssl := use_ssl c;
     verify_certs := verify_certs c; hec_token := hec_token c; username := username c;
     password := password c; source := source c; sourcetype := sourcetype c;
     index := index c; base_url := base_url c; hec_url := hec_url c;
     api_url := api_url c; session := session c; session_key := k;
     connected := connected c |}.

Definition set_connected (b : bool) (c : SplunkConnector) : SplunkConnector :=
  {| name := name c; host := host c; port := port c; use_ssl := use_ssl c;
     verify_certs := verify_certs c; hec_token := hec_token c; username := username c;
     password := password c; source := source c; sourcetype := sourcetype c;
     index := index c; base_url := base_url c; hec_url := hec_url c;
     api_url := api_url c; session := session c; session_key := session_key c;
     connected := b |}.

(** The connector object, the world, and the POST requests made so far. *)
Record State : Type := {
  self : SplunkConnector;
  env : Env;
  posted : list post_request
}.

Definition on_self (f : SplunkConnector → SplunkConnector) : M State unit :=
  modify (λ s, {| self := f (self s); env := env s; posted := posted s |}).

Definition AttributeError {A} (what : string) : M State A :=
  raise (Exception what).

(** [await] of a value that is ready or an exception. *)
Definition await {A} (o : outcome A) : M State A := λ s, (o, s).

(** [ClientSession(connector=TCPConnector(ssl=ssl), headers=...)] *)
Definition client_session (ssl : bool) : M State Session :=
  λ s, (new_session ssl (env s), s).

(** [self.session.post(...)]: fails on [None]. *)
Definition session_post (r : post_request) : M State response :=
  λ s, match session (self s) with
       | None => AttributeError "'NoneType' object has no attribute 'post'" s
       | Some x =>
           let '(o, e') := post x r (env s) in
           (o, {| self := self s; env := e'; posted := posted s ++ [r] |})
       end.

(** [self.verify_certs if self.use_ssl else False] *)
Definition ssl_of (c : SplunkConnector) : bool :=
  if use_ssl c then verify_certs c else false.

(** [f"Splunk {self.hec_token}"] *)
Definition authorization (c : SplunkConnector) : dict string :=
  [("Authorization", "Splunk " +:+ default "None" (hec_token c))].

Definition connect : M State bool :=
  try_except
    (s ← get;
     x ← client_session (ssl_of (self s));
     on_self (set_session x);;
     s ← get;
     (if str_truthy (username (self s)) && str_truthy (password (self s)) then
        let auth_url := urljoin (api_url (self s)) "/auth/login" in
        response ← session_post
          {| url := auth_url;
             headers := [];
             content := Form [("username", username (self s));
                              ("password", password (self s));
                              ("output_mode", Some "json")];
             ssl := ssl_of (self s) |};
        if status response =? 200 then
          data ← await (json response);
          match data with
          | VDict d => on_self (set_session_key (get_or_none "sessionKey" d))
          | _ => AttributeError "object has no attribute 'get'"
          end
        else mret tt
      else mret tt);;
     on_self (set_connected true);;
     mret true)
    (λ e, on_self (set_connected false);; mret false).

(** [if not self.session or not self.connected: await self.connect()] *)
Definition ensure_connected : M State unit :=
  s ← get;
  if negb (bool_decide (is_Some (session (self s)))) || negb (connected (self s))
  then connect;; mret tt
  else mret tt.

(** [self.index] *)
Definition self_index (c : SplunkConnector) : string := index c.

(** [index or self.index] *)
Definition index_or (index : option string) (c : SplunkConnector) : string :=
  match index with
  | Some i => if str_truthy index then i else self_index c
  | None => self_index c
  end.

(** The HEC payload built for one event. *)
Definition hec_payload (event : dict value) (index : option string) : M State value :=
  s ← get;
  let formatted_event := format_dlp_event (utcnow (env s)) event in
  match formatted_event with
  | VDict formatted =>
      time ← await (epoch_seconds
                      (get_or "timestamp" (VStr (isoformat (utcnow (env s)))) formatted));
      match get_or "agent" (VDict []) formatted with
      | VDict agent =>
          mret (VDict [("time", VInt time);
                       ("host", get_or "hostname" (VStr "unknown") agent);
                       ("source", VStr (source (self s)));
                       ("sourcetype", VStr (sourcetype (self s)));
                       ("index", VStr (index_or index (self s)));
                       ("event", formatted_event)])
      | _ => AttributeError "object has no attribute 'get'"
      end
  | _ => AttributeError "object has no attribute 'get'"
  end.

(** The loop building [batch_payloads]. *)
Fixpoint batch_payloads (events : list (dict value)) (index : option string)
    (acc : list string) : M State (list string) :=
  match events with
  | [] => mret acc
  | event :: rest =>
      payload ← hec_payload event index;
      batch_payloads rest index (acc ++ [json_dumps payload])
  end.

(** ["\n".join(lines)] *)
Fixpoint join_lines (lines : list string) : string :=
  match lines with
  | [] => ""
  | [l] => l
  | l :: rest => l +:+ String (ascii_of_nat 10) "" +:+ join_lines rest
  end.

Definition send_batch (events : list (dict value)) (index : option string)
    : M State (dict value) :=
  try_except
    (ensure_connected;;
     payloads ← batch_payloads events index [];
     let batch_data := join_lines payloads in
     s ← get;
     response ← session_post
       {| url := hec_url (self s);
          headers := authorization (self s);
          content := Data batch_data;
          ssl := ssl_of (self s) |};
     if status response =? 200 then
       result ← await (json response);
       mret [("success", VBool true);
             ("total", VInt (Z.of_nat (length events)));
             ("indexed", VInt (Z.of_nat (length events)));
             ("failed", VInt 0);
             ("index", VStr (index_or index (self s)))]
     else
       text ← await (text response);
       mret [("success", VBool false);
             ("error", VStr text);
             ("total", VInt (Z.of_nat (length events)));
             ("indexed", VInt 0);
             ("failed", VInt (Z.of_nat (length events)))])
    (λ e,
     mret [("success", VBool false);
           ("error", VStr (str e));
           ("total", VInt (Z.of_nat (length events)));
           ("indexed", VInt 0);
           ("failed", VInt (Z.of_nat (length events)))]).

End WithSession.
Arguments SplunkConnector Session : clear implicits.
Arguments State Session Env : clear implicits.

End Splunk.

(** * [app/actions/action_types.py] *)

Module ActionTypes.

Inductive ActionType : Type :=
| ALERT | BLOCK | QUARANTINE | REDACT | ENCRYPT | NOTIFY | WEBHOOK | AUDIT
| TAG | ESCALATE | DELETE | PRESERVE | FLAG_FOR_REVIEW | CREATE_INCIDENT | TRACK.

(** The system clock: [reading n] is what the [n]-th call of
    [datetime.utcnow()] returns; [tick] counts the calls made so far. *)
Record Clock : Type := {
  tick : nat;
  reading : nat → datetime
}.

Definition utcnow : M Clock datetime :=
  λ c, (Ret (reading c (tick c)), {| tick := S (tick c); reading := reading c |}).

Module ActionResult.
Record t : Type := {
  action_type : ActionType;
  success : bool;
  message : option string;
  metadata : dict value;
  timestamp : datetime;
  error : option string
}.
End ActionResult.

Module ExecutionSummary.
Record t : Type := {
  event_id : string;
  policy_id : string;
  rule_id : string;
  timestamp : datetime;
  actions_executed : list ActionResult.t;
  total_actions : Z;
  successful_actions : Z;
  failed_actions : Z;
  blocked : bool;
  quarantined : bool;
  encrypted : bool;
  redacted : bool;
  notifications_sent : Z;
  webhooks_called : Z;
  alerts_created : Z
}.
End ExecutionSummary.

(** The field defaults whose expression is evaluated when the class
    bodies are executed, that is when the module is imported. *)
Record Defaults : Type := {
  ActionResult_timestamp : datetime;
  ExecutionSummary_timestamp : datetime
}.

(** Importing the module: the class bodies of [ActionResult] and of
    [ExecutionSummary] run once, in this order. *)
Definition import : M Clock Defaults :=
  t1 ← utcnow;
  t2 ← utcnow;
  mret {| ActionResult_timestamp := t1; ExecutionSummary_timestamp := t2 |}.

(** [ActionResult(action_type=..., success=..., ...)] in a process that
    imported the module with defaults [m]; an argument [None] of an
    optional field stands for a keyword that is not given. *)
Definition new_ActionResult (m : Defaults)
    (action_type : ActionType) (success : bool)
    (message : option string) (metadata : option (dict value))
    (timestamp : option datetime) (error : option string)
    : M Clock ActionResult.t :=
  mret {| ActionResult.action_type := action_type;
          ActionResult.success := success;
          ActionResult.message := message;
          ActionResult.metadata := default [] metadata;
          ActionResult.timestamp := default (ActionResult_timestamp m) timestamp;
          ActionResult.error := error |}.

(** Keyword arguments of [ExecutionSummary(...)] that have a default,
    [timestamp] apart. *)
Record SummaryArgs : Type := {
  arg_actions_executed : option (list ActionResult.t);
  arg_total_actions : option Z;
  arg_successful_actions : option Z;
  arg_failed_actions : option Z;
  arg_blocked : option bool;
  arg_quarantined : option bool;
  arg_encrypted : option bool;
  arg_redacted : option bool;
  arg_notifications_sent : option Z;
  arg_webhooks_called : option Z;
  arg_alerts_created : option Z
}.

Definition new_ExecutionSummary (m : Defaults)
    (event_id policy_id rule_id : string) (timestamp : option datetime)
    (a : SummaryArgs) : M Clock ExecutionSummary.t :=
  mret {| ExecutionSummary.event_id := event_id;
          ExecutionSummary.policy_id := policy_id;
          ExecutionSummary.rule_id := rule_id;
          ExecutionSummary.timestamp :=
            default (ExecutionSummary_timestamp m) timestamp;
          ExecutionSummary.actions_executed := default [] (arg_actions_executed a);
          ExecutionSummary.total_actions := default 0 (arg_total_actions a);
          ExecutionSummary.successful_actions := default 0 (arg_successful_actions a);
          ExecutionSummary.failed_actions := default 0 (arg_failed_actions a);
          ExecutionSummary.blocked := default false (arg_blocked a);
          ExecutionSummary.quarantined := default false (arg_quarantined a);
          ExecutionSummary.encrypted := default false (arg_encrypted a);
          ExecutionSummary.redacted := default false (arg_redacted a);
          ExecutionSummary.notifications_sent := default 0 (arg_notifications_sent a);
          ExecutionSummary.webhooks_called := default 0 (arg_webhooks_called a);
          ExecutionSummary.alerts_created := default 0 (arg_alerts_created a) |}.

End ActionTypes.

(** * Notions used to state the properties *)

(** A value of the envelope is pruned when it is not [None] and, if it is
    a dictionary, it is not empty and each of its values is pruned.
    Lists are leaves here: what they contain is not looked at. *)
Fixpoint pruned (v : value) : bool :=
  match v with
  | VNone => false
  | VDict d => negb (bool_decide (d = [])) && forallb (λ kv, pruned kv.2) d
  | _ => true
  end.

(** The same, looking into lists as well: no [None] and no empty
    dictionary anywhere below, whatever the path that leads there. *)
Fixpoint pruned_deep (v : value) : bool :=
  match v with
  | VNone => false
  | VList l => forallb pruned_deep l
  | VDict d => negb (bool_decide (d = [])) && forallb (λ kv, pruned_deep kv.2) d
  | _ => true
  end.

(** An envelope is a dictionary whose values all satisfy [ok]. *)
Definition envelope (ok : value → bool) (v : value) : bool :=
  match v with
  | VDict d => forallb (λ kv, ok kv.2) d
  | _ => false
  end.

(** What holds of the result of [_remove_empty_dicts] on [v]. *)
Definition cleaned_ok (v : value) : Prop :=
  match v with
  | VDict _ => ∃ n, Base._remove_empty_dicts v = VDict n ∧
                    Forall (λ kv, pruned kv.2 = true) n
  | _ => Base._remove_empty_dicts v = v
  end.

(** The result dictionary [r] of a batch of [n] events has counts that
    add up. *)
Definition counts_add_up (n : nat) (r : dict value) : Prop :=
  ∃ indexed failed : Z,
    dict_get "total" r = Some (VInt (Z.of_nat n)) ∧
    dict_get "indexed" r = Some (VInt indexed) ∧
    dict_get "failed" r = Some (VInt failed) ∧
    indexed + failed = Z.of_nat n.

(** What is assumed of the [elasticsearch] package: an iteration of
    [async_streaming_bulk] that ends without an exception has yielded one
    pair for each action it was given. *)
Definition one_result_per_action {Client Env} {ES : ELK.Elasticsearch Client Env} : Prop :=
  ∀ (cl : Client) (actions : list value) (e e' : Env) (items : list (bool * value)),
    ELK.async_streaming_bulk cl actions e = (items, None, e') →
    length items = length actions.

(** The invariant of the registry: the keys of [connectors] are distinct
    (it is a dictionary), [active_connectors] has no duplicate, and every
    active name is registered. *)
Definition registry_ok {C} (w : Service.World C) : Prop :=
  NoDup (dict_keys (Service.connectors (Service.self w))) ∧
  NoDup (Service.active_connectors (Service.self w)) ∧
  (∀ n, n ∈ Service.active_connectors (Service.self w) →
        n ∈ dict_keys (Service.connectors (Service.self w))).

(** The states of the service: the fresh one, and those obtained by
    running its methods. *)
Inductive reachable {C} `{!Base.SIEMConnector C} : Service.World C → Prop :=
| reach_init : reachable Service.init
| reach_register c w :
    reachable w → reachable (Service.register_connector c w).2
| reach_unregister name w :
    reachable w → reachable (Service.unregister_connector name w).2
| reach_connect_all w :
    reachable w → reachable (Service.connect_all w).2
| reach_send_event_to_all event index w :
    reachable w → reachable (Service.send_event_to_all event index w).2
| reach_send_batch_to_all events index w :
    reachable w → reachable (Service.send_batch_to_all events index w).2
| reach_health_check_all w :
    reachable w → reachable (Service.health_check_all w).2
| reach_disconnect_all w :
    reachable w → reachable (Service.disconnect_all w).2.

(** How many times coroutine [meth] of the connector registered as [n]
    was run, according to the record [calls]. *)
Definition times_called (n : string) (meth : Service.method)
    (calls : list (string * Service.method)) : nat :=
  length (filter (λ x, x = (n, meth)) calls).

(** The boolean [send_event_to_all] records for a settled [send_event]. *)
Definition sent_ok (o : outcome bool) : bool :=
  match o with
  | Ret sent => sent
  | Raise _ => false
  end.

(** ** Test doubles *)

Module Fixtures.
Import Base.

(** A connector whose coroutines answer as scripted; [connect] and
    [disconnect] keep [connected] up to date. *)
Record Scripted : Type := {
  label : string;
  is_connected : bool;
  connect_result : outcome bool;
  disconnect_result : outcome bool;
  probe_result : outcome (dict value);
  send_result : outcome bool;
  batch_result : outcome (dict value)
}.

Definition with_connected (b : bool) (c : Scripted) : Scripted :=
  {| label := label c; is_connected := b; connect_result := connect_result c;
     disconnect_result := disconnect_result c; probe_result := probe_result c;
     send_result := send_result c; batch_result := batch_result c |}.

#[global] Instance Scripted_connector : SIEMConnector Scripted := {|
  name := label;
  siem_type := λ _, CUSTOM;
  host := λ _, "localhost";
  port := λ _, 9200;
  connected := is_connected;
  utcnow := λ _, Datetime 2024 3 7 23 59 58 0;
  connect := λ c, (connect_result c, with_connected (sent_ok (connect_result c)) c);
  disconnect := λ c, (disconnect_result c, with_connected false c);
  test_connection := λ c, (probe_result c, c);
  send_event := λ _ _ c, (send_result c, c);
  send_batch := λ _ _ c, (batch_result c, c)
|}.

(** A connector that is up, and one whose transport is down: its probe
    and its sends report failure and its [connect] raises. *)
Definition up (n : string) : Scripted :=
  {| label := n; is_connected := true; connect_result := Ret true;
     disconnect_result := Ret true;
     probe_result := Ret [("success", VBool true)];
     send_result := Ret true;
     batch_result := Ret [("success", VBool true)] |}.

Definition down (n : string) : Scripted :=
  {| label := n; is_connected := true;
     connect_result := Raise (Exception "connection refused");
     disconnect_result := Ret true;
     probe_result := Ret [("success", VBool false)];
     send_result := Raise (Exception "connection refused");
     batch_result := Raise (Exception "connection refused") |}.

(** A registry holding [up "sink_a"] and [down "sink_b"], both active. *)
Definition two_sinks : Service.World Scripted :=
  {| Service.self :=
       {| Service.connectors := [("sink_a", up "sink_a"); ("sink_b", down "sink_b")];
          Service.active_connectors := ["sink_a"; "sink_b"] |};
     Service.calls := [] |}.

(** A cluster that acknowledges everything, at a fixed instant. *)
#[global] Instance Cluster : ELK.Elasticsearch unit unit := {|
  ELK.AsyncElasticsearch := λ _ _, Ret tt;
  ELK.info := λ _, mret [("cluster_name", VStr "dlp")];
  ELK.index := λ _ _ _, mret [("result", VStr "created")];
  ELK.async_streaming_bulk := λ _ actions e, (map (λ a, (true, a)) actions, None, e);
  ELK.utcnow := λ _, Datetime 2024 3 7 23 59 58 0
|}.

Definition elk : ELK.State unit unit :=
  {| ELK.self :=
       {| ELK.name := "ELK Stack"; ELK.host := "localhost"; ELK.port := 9200;
          ELK.use_ssl := true; ELK.verify_certs := true; ELK.config := [];
          ELK.username := None; ELK.password := None; ELK.api_key := None;
          ELK.cloud_id := None; ELK.index_prefix := "dlp-events";
          ELK.client := Some tt; ELK.connected := true |};
     ELK.env := tt;
     ELK.requests := [] |}.

(** An HTTP Event Collector that answers 200 to everything. *)
#[global] Instance Collector : Splunk.Aiohttp unit unit := {|
  Splunk.new_session := λ _ _, Ret tt;
  Splunk.post := λ _ _, mret {| Splunk.status := 200;
                                Splunk.json := Ret (VDict [("text", VStr "Success")]);
                                Splunk.text := Ret "Success" |};
  Splunk.urljoin := λ base path, base +:+ path;
  Splunk.json_dumps := λ _, "{}";
  Splunk.epoch_seconds := λ _, Ret 1709855998;
  Splunk.utcnow := λ _, Datetime 2024 3 7 23 59 58 0
|}.

Definition splunk : Splunk.State unit unit :=
  {| Splunk.self :=
       Splunk.set_connected true
         (Splunk.set_session tt
            (Splunk.init "Splunk" "localhost" 8088 (Some "token") None None
                         true true "cybersentinel_dlp" "dlp:event" "dlp"));
     Splunk.env := tt;
     Splunk.posted := [] |}.

Definition sample_event : dict value :=
  [("event_id", VStr "evt-1"); ("severity", VStr "high");
   ("hostname", VStr "host-1"); ("blocked", VBool true)].

Definition event_with_lists : dict value :=
  [("actions", VList [VNone]);
   ("metadata", VDict [("tags", VList [VDict []])])].

End Fixtures.

(** * Further notions *)

(** What [_remove_empty_dicts] stores under a key whose value is [v], if
    anything: nothing for [None] and for a dictionary that comes out
    empty. *)
Definition kept_value (v : value) : option value :=
  match v with
  | VNone => None
  | VDict _ =>
      let nested := Base._remove_empty_dicts v in
      if truthy nested then Some nested else None
  | _ => Some v
  end.

(** A value in which every dictionary, at every depth reached through
    dictionaries, has distinct keys and holds neither [None] nor an empty
    dictionary. *)
Fixpoint settled (v : value) : Prop :=
  match v with
  | VNone => False
  | VDict d =>
      d ≠ [] ∧ NoDup (dict_keys d) ∧
      fold_right (λ kv rest, settled kv.2 ∧ rest) True d
  | _ => True
  end.

(** * [app/integrations/siem/elk_connector.py], continued *)

Module ELKMore.
Import ELK.

(** The other coroutines of the client that the connector awaits:
    [client.close()], [client.ping()], [client.cluster.health()] and
    [client.search(index=..., body=...)]. *)
Class ElasticsearchMore (Client Env : Type) : Type := {
  close : Client → M Env unit;
  ping : Client → M Env bool;
  cluster_health : Client → M Env (dict value);
  search : Client → string → value → M Env (dict value)
}.

Section WithClient.
Context {Client Env : Type} {ES : Elasticsearch Client Env}
        {ESM : ElasticsearchMore Client Env}.

Definition TypeError {A} (what : string) : M (State Client Env) A :=
  raise (Exception what).

Definition KeyError {A} (what : string) : M (State Client Env) A :=
  raise (Exception what).

(** The attributes [__init__] sets. *)
Definition init (name host : string) (port : Z)
    (username password api_key cloud_id : option string)
    (use_ssl verify_certs : bool) (index_prefix : string) (kwargs : dict value)
    : ELKConnector Client :=
  {| name := name; host := host; port := port; use_ssl := use_ssl;
     verify_certs := verify_certs; config := kwargs; username := username;
     password := password; api_key := api_key; cloud_id := cloud_id;
     index_prefix := index_prefix; client := None; connected := false |}.

Definition disconnect : M (State Client Env) bool :=
  try_except
    (s ← get;
     match client (self s) with
     | Some cl =>
         lift_env (close cl);;
         on_self (set_connected false);;
         mret true
     | None => mret true
     end)
    (λ e, mret false).

Definition test_connection : M (State Client Env) (dict value) :=
  try_except
    (s ← get;
     (if negb (bool_decide (is_Some (client (self s))))
      then connect;; mret tt
      else mret tt);;
     ping_result ← with_client (λ cl, lift_env (ping cl));
     if negb ping_result then
       mret [("success", VBool false);
             ("message", VStr "Elasticsearch cluster unreachable")]
     else
       info ← with_client (λ cl, lift_env (info cl));
       health ← with_client (λ cl, lift_env (cluster_health cl));
       version ← match get_or "version" (VDict []) info with
                 | VDict v => mret (get_or_none "number" v)
                 | _ => AttributeError "object has no attribute 'get'"
                 end;
       mret [("success", VBool true);
             ("message", VStr "Connected to Elasticsearch");
             ("cluster_name", get_or_none "cluster_name" info);
             ("version", version);
             ("cluster_health", get_or_none "status" health);
             ("number_of_nodes", get_or_none "number_of_nodes" health);
             ("active_shards", get_or_none "active_shards" health)])
    (λ e,
     mret [("success", VBool false);
           ("message", VStr ("Connection test failed: " +:+ str e))]).

(** The search body [query_events] builds: the query-string form for a
    string, the caller's dictionary with [size] set for a dictionary;
    item assignment fails on anything else. *)
Definition search_body (query : value) (start_time end_time : datetime) (limit : Z)
    : M (State Client Env) value :=
  match query with
  | VStr q =>
      mret (VDict [
        ("query", VDict [
           ("bool", VDict [
              ("must", VList [
                 VDict [("query_string", VDict [("query", VStr q)])];
                 VDict [("range", VDict [
                    ("timestamp", VDict [
                       ("gte", VStr (isoformat start_time));
                       ("lte", VStr (isoformat end_time))])])]])])]);
        ("size", VInt limit);
        ("sort", VList [VDict [("timestamp", VStr "desc")]])])
  | VDict d => mret (VDict (dict_set "size" (VInt limit) d))
  | _ => TypeError "object does not support item assignment"
  end.

(** [hit["_source"]] *)
Definition source_of (hit : value) : M (State Client Env) value :=
  match hit with
  | VDict h =>
      match dict_get "_source" h with
      | Some v => mret v
      | None => KeyError "'_source'"
      end
  | _ => TypeError "object is not subscriptable with a string"
  end.

(** [[hit["_source"] for hit in hits]] over a list. *)
Fixpoint sources_of (hits : list value) : M (State Client Env) (list value) :=
  match hits with
  | [] => mret []
  | hit :: rest =>
      v ← source_of hit;
      vs ← sources_of rest;
      mret (v :: vs)
  end.

(** The comprehension over whatever [hits] is: a list is gone through; a
    dictionary or a string is iterated too, and a key or a character has
    no [_source]; anything else is not iterable. *)
Definition events_of (hits : value) : M (State Client Env) (list value) :=
  match hits with
  | VList l => sources_of l
  | VDict [] => mret []
  | VStr "" => mret []
  | VDict _ | VStr _ => TypeError "string indices must be integers"
  | _ => TypeError "object is not iterable"
  end.

Definition query_events (query : value) (start_time end_time : datetime) (limit : Z)
    : M (State Client Env) (list value) :=
  try_except
    (ensure_connected;;
     body ← search_body query start_time end_time limit;
     s ← get;
     let index_pattern := index_prefix (self s) +:+ "-*" in
     result ← with_client (λ cl, lift_env (search cl index_pattern body));
     hits ← match get_or "hits" (VDict []) result with
            | VDict h => mret (get_or "hits" (VList []) h)
            | _ => AttributeError "object has no attribute 'get'"
            end;
     events_of hits)
    (λ e, mret []).

(** [ELKConnector] as a subclass of [SIEMConnector]. *)
#[global] Instance ELK_connector : Base.SIEMConnector (State Client Env) := {|
  Base.name := λ s, name (self s);
  Base.siem_type := λ _, Base.ELK;
  Base.host := λ s, host (self s);
  Base.port := λ s, port (self s);
  Base.connected := λ s, connected (self s);
  Base.utcnow := λ s, utcnow (env s);
  Base.connect := connect;
  Base.disconnect := disconnect;
  Base.test_connection := test_connection;
  Base.send_event := send_event;
  Base.send_batch := send_batch
|}.

End WithClient.

End ELKMore.

(** * [app/integrations/siem/splunk_connector.py], continued *)

Module SplunkMore.
Import Splunk.

Record get_request : Type := {
  get_url : string;
  get_headers : dict string;
  get_params : dict string;
  get_ssl : bool
}.

(** The other operations the connector uses: [session.get(...)],
    [session.close()], [asyncio.sleep(seconds)], and the text an f-string
    gives for an object. *)
Class AiohttpMore (Session Env : Type) : Type := {
  http_get : Session → get_request → M Env response;
  close : Session → M Env unit;
  sleep : Z → M Env unit;
  format : value → string
}.

Section WithSession.
Context {Session Env : Type} {HTTP : Aiohttp Session Env}
        {HTTPM : AiohttpMore Session Env}.

Definition lift_env {A} (m : M Env A) : M (State Session Env) A :=
  λ s, let '(r, e') := m (env s) in
       (r, {| self := self s; env := e'; posted := posted s |}).

Definition TypeError {A} (what : string) : M (State Session Env) A :=
  raise (Exception what).

Definition IndexError {A} (what : string) : M (State Session Env) A :=
  raise (Exception what).

(** [self.session.get(...)]: fails on [None]. *)
Definition session_get (r : get_request) : M (State Session Env) response :=
  s ← get;
  match session (self s) with
  | None => AttributeError "'NoneType' object has no attribute 'get'"
  | Some x => lift_env (http_get x r)
  end.

(** [self.session = None; self.session_key = None; self.connected = False] *)
Definition drop_session (c : SplunkConnector Session) : SplunkConnector Session :=
  {| name := name c; host := host c; port := port c; use_ssl := use_ssl c;
     verify_certs := verify_certs c; hec_token := hec_token c; username := username c;
     password := password c; source := source c; sourcetype := sourcetype c;
     index := self_index c; base_url := base_url c; hec_url := hec_url c;
     api_url := api_url c; session := None; session_key := VNone;
     connected := false |}.

Definition disconnect : M (State Session Env) bool :=
  try_except
    (s ← get;
     match session (self s) with
     | Some x =>
         lift_env (close x);;
         on_self drop_session;;
         mret true
     | None => mret true
     end)
    (λ e, mret false).

Definition test_connection : M (State Session Env) (dict value) :=
  try_except
    (s ← get;
     (if negb (bool_decide (is_Some (session (self s))))
      then connect;; mret tt
      else mret tt);;
     s ← get;
     let test_url := urljoin (hec_url (self s)) "/health" in
     response ← session_get
       {| get_url := test_url;
          get_headers := authorization (self s);
          get_params := [];
          get_ssl := ssl_of (self s) |};
     if status response =? 200 then
       mret [("success", VBool true);
             ("message", VStr "Connected to Splunk HEC");
             ("hec_status", VStr "healthy")]
     else
       text ← await (text response);
       mret [("success", VBool false);
             ("message", VStr ("HEC test failed: " +:+ pretty (status response)));
             ("detail", VStr text)])
    (λ e,
     mret [("success", VBool false);
           ("message", VStr ("Connection test failed: " +:+ str e))]).

Definition send_event (event : dict value) (index : option string)
    : M (State Session Env) bool :=
  try_except
    (ensure_connected;;
     payload ← hec_payload event index;
     s ← get;
     response ← session_post
       {| url := hec_url (self s);
          headers := authorization (self s);
          content := Json payload;
          ssl := ssl_of (self s) |};
     if status response =? 200 then mret true
     else
       text ← await (text response);
       mret false)
    (λ e, mret false).

(** [f"Splunk {self.session_key}"] *)
Definition session_authorization (c : SplunkConnector Session) : dict string :=
  [("Authorization", "Splunk " +:+ format (session_key c))].

(** [job_status.get("entry", [{}])[0].get("content", {}).get("isDone")],
    as the truth value the [if] takes of it. *)
Definition is_done (job_status : value) : M (State Session Env) bool :=
  match job_status with
  | VDict js =>
      match get_or "entry" (VList [VDict []]) js with
      | VList (first :: _) =>
          match first with
          | VDict entry =>
              match get_or "content" (VDict []) entry with
              | VDict content => mret (truthy (get_or_none "isDone" content))
              | _ => AttributeError "object has no attribute 'get'"
              end
          | _ => AttributeError "object has no attribute 'get'"
          end
      | VList [] => IndexError "list index out of range"
      | VStr "" => IndexError "string index out of range"
      | VStr _ => AttributeError "'str' object has no attribute 'get'"
      | VDict _ => raise (Exception "0")
      | _ => TypeError "object is not subscriptable"
      end
  | _ => AttributeError "object has no attribute 'get'"
  end.

(** The polling loop, [for _ in range(n)]; it ends earlier when the job
    reports that it is done. *)
Fixpoint poll (n : nat) (job_url : string) : M (State Session Env) unit :=
  match n with
  | O => mret tt
  | S n' =>
      s ← get;
      response ← session_get
        {| get_url := job_url;
           get_headers := session_authorization (self s);
           get_params := [("output_mode", "json")];
           get_ssl := ssl_of (self s) |};
      done ← (if status response =? 200 then
                job_status ← await (json response);
                is_done job_status
              else mret false);
      if done : bool then mret tt
      else lift_env (sleep 1);; poll n' job_url
  end.

(** [len(events)], evaluated for the log entry. *)
Definition sized (events : value) : M (State Session Env) unit :=
  match events with
  | VList _ | VDict _ | VStr _ => mret tt
  | _ => TypeError "object has no len()"
  end.

Definition query_events (query : string) (start_time end_time : datetime) (limit : Z)
    : M (State Session Env) value :=
  try_except
    (ensure_connected;;
     s ← get;
     if negb (truthy (session_key (self s))) then mret (VList [])
     else
       let search_query :=
         "search " +:+ query +:+ " earliest=" +:+ isoformat start_time
         +:+ " latest=" +:+ isoformat end_time +:+ " | head " +:+ pretty limit in
       let search_url := urljoin (api_url (self s)) "/search/jobs" in
       response ← session_post
         {| url := search_url;
            headers := session_authorization (self s);
            content := Form [("search", Some search_query);
                             ("output_mode", Some "json")];
            ssl := ssl_of (self s) |};
       if negb (status response =? 201) then mret (VList [])
       else
         data ← await (json response);
         job_id ← match data with
                  | VDict d => mret (get_or_none "sid" d)
                  | _ => AttributeError "object has no attribute 'get'"
                  end;
         s ← get;
         let job_url :=
           urljoin (api_url (self s)) ("/search/jobs/" +:+ format job_id) in
         poll 30 job_url;;
         s ← get;
         let results_url :=
           urljoin (api_url (self s))
                   ("/search/jobs/" +:+ format job_id +:+ "/results") in
         response ← session_get
           {| get_url := results_url;
              get_headers := session_authorization (self s);
              get_params := [("output_mode", "json")];
              get_ssl := ssl_of (self s) |};
         if status response =? 200 then
           results ← await (json response);
           events ← match results with
                    | VDict r => mret (get_or "results" (VList []) r)
                    | _ => AttributeError "object has no attribute 'get'"
                    end;
           sized events;;
           mret events
         else mret (VList []))
    (λ e, mret (VList [])).

(** [SplunkConnector] as a subclass of [SIEMConnector]. *)
#[global] Instance Splunk_connector : Base.SIEMConnector (State Session Env) := {|
  Base.name := λ s, name (self s);
  Base.siem_type := λ _, Base.SPLUNK;
  Base.host := λ s, host (self s);
  Base.port := λ s, port (self s);
  Base.connected := λ s, connected (self s);
  Base.utcnow := λ s, utcnow (env s);
  Base.connect := connect;
  Base.disconnect := disconnect;
  Base.test_connection := test_connection;
  Base.send_event := send_event;
  Base.send_batch := send_batch
|}.

End WithSession.

End SplunkMore.

(** * Connectors of either class *)

Module Connectors.
Import Base.

(** A method called on an object that is of one class or of the other. *)
Definition dispatch {A B R} (ma : M A R) (mb : M B R) : M (A + B) R :=
  λ c, match c with
       | inl a => let '(r, a') := ma a in (r, inl a')
       | inr b => let '(r, b') := mb b in (r, inr b')
       end.

#[global] Instance sum_connector {A B} `{!SIEMConnector A} `{!SIEMConnector B}
    : SIEMConnector (A + B) := {|
  name := λ c, match c with inl a => name a | inr b => name b end;
  siem_type := λ c, match c with inl a => siem_type a | inr b => siem_type b end;
  host := λ c, match c with inl a => host a | inr b => host b end;
  port := λ c, match c with inl a => port a | inr b => port b end;
  connected := λ c, match c with inl a => connected a | inr b => connected b end;
  utcnow := λ c, match c with inl a => utcnow a | inr b => utcnow b end;
  connect := dispatch connect connect;
  disconnect := dispatch disconnect disconnect;
  test_connection := dispatch test_connection test_connection;
  send_event := λ event index, dispatch (send_event event index) (send_event event index);
  send_batch := λ events index, dispatch (send_batch events index) (send_batch events index)
|}.

End Connectors.

(** * [app/api/v1/siem.py] *)

Module Api.
Import Service.

(** [str.lower()] *)
Class StrMethods : Type := { lower : string → string }.

Record SIEMConnectorConfig : Type := {
  name : string;
  siem_type : string;
  host : string;
  port : Z;
  username : option string;
  password : option string;
  api_key : option string;
  hec_token : option string;
  use_ssl : bool;
  verify_certs : bool;
  index_prefix : option string;
  index : option string;
  source : option string;
  sourcetype : option string
}.

(** What a handler answers: the body it returns, or the [HTTPException] it
    raises. *)
Inductive http (A : Type) : Type :=
| Response (body : A)
| HTTPException (status_code : Z) (detail : string).
Arguments Response {A} body.
Arguments HTTPException {A} status_code detail.

Section WithConnectors.
Context {Client Env Session Env' : Type}
        {ES : ELK.Elasticsearch Client Env} {ESM : ELKMore.ElasticsearchMore Client Env}
        {HTTP : Splunk.Aiohttp Session Env'} {HTTPM : SplunkMore.AiohttpMore Session Env'}
        {STR : StrMethods}.

(** The connectors the handlers create are of these two classes. *)
Definition connector : Type := ELK.State Client Env + Splunk.State Session Env'.

(** [x or default] for an optional string. *)
Definition or_default (x : option string) (dflt : string) : string :=
  match x with
  | Some s => if str_truthy x then s else dflt
  | None => dflt
  end.

(** [except HTTPException: raise] and
    [except Exception as e: raise HTTPException(500, detail)]. *)
Definition guarded {A} (detail : exn → string) (body : M (World connector) (http A))
    : M (World connector) (http A) :=
  try_except body (λ e, mret (HTTPException 500 (detail e))).

(** A coroutine of a registered connector that a handler awaits itself
    and for which the record of calls has no tag. *)
Definition on_connector_untagged {A} (name : string) (c : connector)
    (m : M connector A) : M (World connector) A :=
  λ w,
    match dict_get name (connectors (self w)) with
    | Some obj =>
        let '(r, obj') := m obj in
        (r, set_connectors (dict_set name obj') w)
    | None =>
        let '(r, _) := m c in
        (r, w)
    end.

Definition list_connectors : M (World connector) (http (dict value)) :=
  guarded (λ _, "Failed to list SIEM connectors")
    (connectors ← Service.list_connectors;
     mret (Response [("success", VBool true);
                     ("connectors", VList (map VDict connectors));
                     ("total", VInt (Z.of_nat (length connectors)))])).

(** [elk_world] and [splunk_world] are the worlds a new connector of
    either class acts on. *)
Definition register_connector (config : SIEMConnectorConfig)
    (elk_world : Env) (splunk_world : Env') : M (World connector) (http (dict value)) :=
  guarded (λ e, "Failed to register connector: " +:+ str e)
    (let built : option connector :=
       if decide (lower (siem_type config) = "elk") then
         Some (inl {| ELK.self :=
                        ELKMore.init (name config) (host config) (port config)
                          (username config) (password config) (api_key config) None
                          (use_ssl config) (verify_certs config)
                          (or_default (index_prefix config) "dlp-events") [];
                      ELK.env := elk_world;
                      ELK.requests := [] |})
       else if decide (lower (siem_type config) = "splunk") then
         Some (inr {| Splunk.self :=
                        Splunk.init (name config) (host config) (port config)
                          (hec_token config) (username config) (password config)
                          (use_ssl config) (verify_certs config)
                          (or_default (source config) "cybersentinel_dlp")
                          (or_default (sourcetype config) "dlp:event")
                          (or_default (index config) "dlp");
                      Splunk.env := splunk_world;
                      Splunk.posted := [] |})
       else None in
     match built with
     | None =>
         mret (HTTPException 400 ("Unsupported SIEM type: " +:+ siem_type config))
     | Some c =>
         success ← Service.register_connector c;
         if negb success then
           mret (HTTPException 500 "Failed to register connector")
         else
           connected ← on_connector (name config) MConnect c Base.connect;
           mret (Response [
             ("success", VBool true);
             ("message", VStr "SIEM connector registered successfully");
             ("connector", VDict [("name", VStr (name config));
                                  ("siem_type", VStr (siem_type config));
                                  ("connected", VBool connected)])])
     end).

Definition unregister_connector (connector_name : string)
    : M (World connector) (http (dict value)) :=
  guarded (λ _, "Failed to unregister connector")
    (found ← get_connector connector_name;
     match found with
     | Some c => on_connector connector_name MDisconnect c Base.disconnect;; mret tt
     | None => mret tt
     end;;
     success ← Service.unregister_connector connector_name;
     if negb success then mret (HTTPException 404 "Connector not found")
     else
       mret (Response [
         ("success", VBool true);
         ("message", VStr ("Connector '" +:+ connector_name
                           +:+ "' unregistered successfully"))])).

Definition test_connector (connector_name : string)
    : M (World connector) (http (dict value)) :=
  guarded (λ _, "Connection test failed")
    (found ← get_connector connector_name;
     match found with
     | None => mret (HTTPException 404 "Connector not found")
     | Some c =>
         result ← on_connector_untagged connector_name c Base.test_connection;
         mret (Response result)
     end).

(** [now] is the reading of the clock when the answer is built. *)
Definition health_check_all (now : datetime) : M (World connector) (http (dict value)) :=
  guarded (λ _, "Health check failed")
    (health_results ← Service.health_check_all;
     mret (Response [
       ("success", VBool true);
       ("connectors", VDict (map (λ '(n, r), (n, VDict r)) health_results));
       ("timestamp", VStr (isoformat now))])).

Definition forward_event_to_siems (event : dict value) (connector_name : option string)
    : M (World connector) (http (dict value)) :=
  guarded (λ _, "Event forwarding failed")
    (match connector_name with
     | Some n =>
         if str_truthy connector_name then
           found ← get_connector n;
           match found with
           | None => mret (HTTPException 404 "Connector not found")
           | Some c =>
               success ← on_connector n MSendEvent c (Base.send_event event None);
               mret (Response [("success", VBool success);
                               ("connector", VStr n);
                               ("event_id", get_or_none "event_id" event)])
           end
         else
           results ← send_event_to_all event None;
           mret (Response [
             ("success", VBool true);
             ("results", VDict (map (λ '(k, v), (k, VBool v)) results));
             ("event_id", get_or_none "event_id" event);
             ("total_connectors", VInt (Z.of_nat (length results)));
             ("successful", VInt (Z.of_nat (length (filter (λ kv, kv.2 = true) results))))])
     | None =>
         results ← send_event_to_all event None;
         mret (Response [
           ("success", VBool true);
           ("results", VDict (map (λ '(k, v), (k, VBool v)) results));
           ("event_id", get_or_none "event_id" event);
           ("total_connectors", VInt (Z.of_nat (length results)));
           ("successful", VInt (Z.of_nat (length (filter (λ kv, kv.2 = true) results))))])
     end).

Definition forward_batch_to_siems (events : list (dict value))
    (connector_name : option string) : M (World connector) (http (dict value)) :=
  guarded (λ _, "Batch forwarding failed")
    (match connector_name with
     | Some n =>
         if str_truthy connector_name then
           found ← get_connector n;
           match found with
           | None => mret (HTTPException 404 "Connector not found")
           | Some c =>
               result ← on_connector n MSendBatch c (Base.send_batch events None);
               mret (Response [("success", get_or "success" (VBool false) result);
                               ("connector", VStr n);
                               ("total", VInt (Z.of_nat (length events)));
                               ("result", VDict result)])
           end
         else
           results ← send_batch_to_all events None;
           mret (Response [
             ("success", VBool true);
             ("results", VDict (map (λ '(k, r), (k, VDict r)) results));
             ("total_events", VInt (Z.of_nat (length events)));
             ("total_connectors", VInt (Z.of_nat (length results)))])
     | None =>
         results ← send_batch_to_all events None;
         mret (Response [
           ("success", VBool true);
           ("results", VDict (map (λ '(k, r), (k, VDict r)) results));
           ("total_events", VInt (Z.of_nat (length events)));
           ("total_connectors", VInt (Z.of_nat (length results)))])
     end).

(** The states of the service that the handlers lead to, from the fresh
    one. *)
Inductive served : World connector → Prop :=
| served_init : served init
| served_list w : served w → served (list_connectors w).2
| served_register config elk_world splunk_world w :
    served w → served (register_connector config elk_world splunk_world w).2
| served_unregister connector_name w :
    served w → served (unregister_connector connector_name w).2
| served_test connector_name w :
    served w → served (test_connector connector_name w).2
| served_health now w : served w → served (health_check_all now w).2
| served_forward_event event connector_name w :
    served w → served (forward_event_to_siems event connector_name w).2
| served_forward_batch events connector_name w :
    served w → served (forward_batch_to_siems events connector_name w).2.

End WithConnectors.

End Api.


(** * More test doubles *)

Module FixturesMore.
Import Fixtures.

(** The remaining coroutines of the acknowledging cluster: it closes,
    answers the ping, reports green, and finds nothing. *)
#[global] Instance ClusterMore : ELKMore.ElasticsearchMore unit unit := {|
  ELKMore.close := λ _, mret tt;
  ELKMore.ping := λ _, mret true;
  ELKMore.cluster_health := λ _, mret [("status", VStr "green")];
  ELKMore.search := λ _ _ _, mret [("hits", VDict [("hits", VList [])])]
|}.

(** The remaining operations of the collector that answers 200. *)
#[global] Instance CollectorMore : SplunkMore.AiohttpMore unit unit := {|
  SplunkMore.http_get := λ _ _, mret {| Splunk.status := 200;
                                        Splunk.json := Ret (VDict []);
                                        Splunk.text := Ret "" |};
  SplunkMore.close := λ _, mret tt;
  SplunkMore.sleep := λ _, mret tt;
  SplunkMore.format := λ _, "None"
|}.

(** The same collector, with a conversion of timestamps that, as
    [datetime.fromisoformat], refuses what is not a string. *)
Definition StrictCollector : Splunk.Aiohttp unit unit := {|
  Splunk.new_session := λ _ _, Ret tt;
  Splunk.post := λ _ _, mret {| Splunk.status := 200;
                                Splunk.json := Ret (VDict [("text", VStr "Success")]);
                                Splunk.text := Ret "Success" |};
  Splunk.urljoin := λ base path, base +:+ path;
  Splunk.json_dumps := λ _, "{}";
  Splunk.epoch_seconds := λ v,
    match v with
    | VStr _ => Ret 1709855998
    | _ => Raise (Exception "fromisoformat: argument must be str")
    end;
  Splunk.utcnow := λ _, Datetime 2024 3 7 23 59 58 0
|}.

(** [str.lower] on ASCII letters. *)
Definition ascii_lower (a : ascii) : ascii :=
  let n := nat_of_ascii a in
  if (65 <=? n)%nat && (n <=? 90)%nat then ascii_of_nat (n + 32) else a.

Fixpoint ascii_lowercase (s : string) : string :=
  match s with
  | EmptyString => EmptyString
  | String a rest => String (ascii_lower a) (ascii_lowercase rest)
  end.

#[global] Instance AsciiLower : Api.StrMethods := {| Api.lower := ascii_lowercase |}.

(** An event that binds nothing the envelope has a default for, one that
    binds [timestamp] and [severity] to null, and one whose timestamp is a
    number. *)
Definition bare_event : dict value := [("event_id", VStr "evt-3")].


Definition numbered_event : dict value :=
  [("event_id", VStr "evt-5"); ("timestamp", VInt 1709855998)].

(** A registry holding one connector that is up, not active yet. *)
Definition one_sink : Service.World Scripted :=
  {| Service.self :=
       {| Service.connectors := [("sink_a", up "sink_a")];
          Service.active_connectors := [] |};
     Service.calls := [] |}.

(** A registry holding the ELK and the Splunk connector, the first one
    active. *)
Definition repo_sinks : Service.World (ELK.State unit unit + Splunk.State unit unit) :=
  {| Service.self :=
       {| Service.connectors := [("ELK Stack", inl elk); ("Splunk", inr splunk)];
          Service.active_connectors := ["ELK Stack"] |};
     Service.calls := [] |}.

(** The configuration of the example request of [POST /connectors]. *)
Definition production_elk : Api.SIEMConnectorConfig :=
  {| Api.name := "Production ELK"; Api.siem_type := "ELK";
     Api.host := "elasticsearch.company.com"; Api.port := 9200;
     Api.username := Some "elastic"; Api.password := Some "password";
     Api.api_key := None; Api.hec_token := None;
     Api.use_ssl := true; Api.verify_certs := true;
     Api.index_prefix := Some "dlp-events"; Api.index := None;
     Api.source := None; Api.sourcetype := None |}.

End FixturesMore.

(** * Properties *)

(** ** Sanity checks of the formatting functions *)

Example strftime_example :
  strftime_Ymd (Datetime 2024 3 7 23 59 58 0) = "2024.03.07".
Proof. reflexivity. Qed.

Example isoformat_example :
  isoformat (Datetime 2024 3 7 23 59 58 120) = "2024-03-07T23:59:58.000120".
Proof. reflexivity. Qed.

(** ** Dictionaries and lists *)

Section PyDictFacts.
Context {V : Type}.
Implicit Types (d : dict V) (k : string) (v : V).

Lemma dict_get_set_eq k v d : dict_get k (dict_set k v d) = Some v.
Proof.
  induction d as [|[k' v'] d IH]; simpl.
  - by rewrite decide_True.
  - destruct (decide (k = k')) as [->|Hne]; simpl.
    + by rewrite decide_True.
    + by rewrite decide_False.
Qed.

Lemma dict_get_set_ne k k' v d :
  k ≠ k' → dict_get k' (dict_set k v d) = dict_get k' d.
Proof.
  intros Hne. induction d as [|[k0 v0] d IH]; simpl.
  - rewrite decide_False; [done | congruence].
  - destruct (decide (k = k0)) as [->|Hk]; simpl.
    + rewrite !decide_False; [done | congruence | congruence].
    + destruct (decide (k' = k0)); [done | apply IH].
Qed.

Lemma dict_get_Some_keys k v d : dict_get k d = Some v → k ∈ dict_keys d.
Proof.
  induction d as [|[k' v'] d IH]; simpl; [done|].
  destruct (decide (k = k')) as [->|Hne]; intros Hget.
  - apply list_elem_of_here.
  - apply list_elem_of_further, IH, Hget.
Qed.

Lemma dict_get_is_Some k d : k ∈ dict_keys d → is_Some (dict_get k d).
Proof.
  induction d as [|[k' v'] d IH]; simpl.
  - intros Hin. by apply elem_of_nil in Hin.
  - intros Hin. destruct (decide (k = k')) as [->|Hne]; [eauto|].
    apply elem_of_cons in Hin as [Heq|Hin]; [done | by apply IH].
Qed.

Lemma dict_get_None k d : k ∉ dict_keys d → dict_get k d = None.
Proof.
  intros Hnot. destruct (dict_get k d) as [v|] eqn:Hget; [|done].
  by apply dict_get_Some_keys in Hget.
Qed.

Lemma dict_mem_true k d : dict_mem k d = true ↔ k ∈ dict_keys d.
Proof.
  unfold dict_mem. rewrite bool_decide_eq_true. split.
  - intros [v Hv]. by eapply dict_get_Some_keys.
  - apply dict_get_is_Some.
Qed.

Lemma dict_keys_set_mem k v d :
  k ∈ dict_keys d → dict_keys (dict_set k v d) = dict_keys d.
Proof.
  unfold dict_keys. induction d as [|[k' v'] d IH]; simpl.
  - intros Hin. by apply elem_of_nil in Hin.
  - intros Hin. destruct (decide (k = k')) as [->|Hne]; simpl; [done|].
    apply elem_of_cons in Hin as [Heq|Hin]; [done|].
    f_equal. by apply IH.
Qed.

Lemma dict_set_fresh k v d : k ∉ dict_keys d → dict_set k v d = d ++ [(k, v)].
Proof.
  induction d as [|[k' v'] d IH]; simpl; [done|].
  intros Hnot. apply not_elem_of_cons in Hnot as [Hne Hnot].
  rewrite decide_False by done. by rewrite IH.
Qed.

Lemma dict_set_set k v1 v2 d : dict_set k v2 (dict_set k v1 d) = dict_set k v2 d.
Proof.
  induction d as [|[k' v'] d IH]; simpl.
  - by rewrite decide_True.
  - destruct (decide (k = k')) as [->|Hne]; simpl.
    + by rewrite decide_True.
    + rewrite decide_False by done. by rewrite IH.
Qed.

Lemma dict_keys_set k v d :
  dict_keys (dict_set k v d)
  = if decide (k ∈ dict_keys d) then dict_keys d else dict_keys d ++ [k].
Proof.
  destruct (decide (k ∈ dict_keys d)) as [Hin|Hnot].
  - by apply dict_keys_set_mem.
  - rewrite dict_set_fresh by done. unfold dict_keys. by rewrite fmap_app.
Qed.

Lemma NoDup_dict_set k v d :
  NoDup (dict_keys d) → NoDup (dict_keys (dict_set k v d)).
Proof.
  intros Hnd. rewrite dict_keys_set. case_decide; [done|].
  apply NoDup_app. split_and!; [done | | apply NoDup_singleton].
  intros x Hx Hsingle. apply list_elem_of_singleton in Hsingle. by subst.
Qed.

Lemma elem_of_dict_keys_del k k' d :
  NoDup (dict_keys d) →
  k' ∈ dict_keys (dict_del k d) ↔ k' ∈ dict_keys d ∧ k' ≠ k.
Proof.
  induction d as [|[k0 v0] d IH]; simpl.
  - intros _. split; [intros Hin; by apply elem_of_nil in Hin | by intros [Hin _]].
  - intros Hnd. apply NoDup_cons in Hnd as [Hfresh Hnd].
    destruct (decide (k = k0)) as [->|Hne]; simpl.
    + rewrite elem_of_cons. split.
      * intros Hin. split; [by right|]. intros ->. done.
      * intros [[->|Hin] Hk]; done.
    + rewrite !elem_of_cons, (IH Hnd). split.
      * intros [->|[Hin Hk]]; [split; [by left | done] | split; [by right | done]].
      * intros [[->|Hin] Hk]; [by left | by right].
Qed.

Lemma NoDup_dict_del k d : NoDup (dict_keys d) → NoDup (dict_keys (dict_del k d)).
Proof.
  induction d as [|[k0 v0] d IH]; simpl; [done|].
  intros Hnd. apply NoDup_cons in Hnd as [Hfresh Hnd].
  destruct (decide (k = k0)) as [->|Hne]; simpl; [done|].
  apply NoDup_cons. split; [|by apply IH].
  intros Hin. apply (elem_of_dict_keys_del k k0 d Hnd) in Hin as [Hin _]. done.
Qed.

Lemma dict_get_del_eq k d : NoDup (dict_keys d) → dict_get k (dict_del k d) = None.
Proof.
  intros Hnd. apply dict_get_None.
  rewrite (elem_of_dict_keys_del k k d Hnd). by intros [_ Hk].
Qed.

Lemma dict_get_del_ne k k' d : k ≠ k' → dict_get k' (dict_del k d) = dict_get k' d.
Proof.
  intros Hne. induction d as [|[k0 v0] d IH]; simpl; [done|].
  destruct (decide (k = k0)) as [->|Hk]; simpl.
  - by rewrite decide_False by congruence.
  - destruct (decide (k' = k0)); [done | apply IH].
Qed.

Lemma Forall_dict_set (P : string * V → Prop) k v d :
  P (k, v) → Forall P d → Forall P (dict_set k v d).
Proof.
  intros Hv. induction 1 as [|[k' v'] d Hhd Htl IH]; simpl.
  - by constructor.
  - destruct (decide (k = k')); constructor; done.
Qed.

Lemma dict_get_elem_of k v d : dict_get k d = Some v → (k, v) ∈ d.
Proof.
  induction d as [|[k' v'] d IH]; simpl; [done|].
  destruct (decide (k = k')) as [->|Hne].
  - intros [= ->]. apply list_elem_of_here.
  - intros Hget. by apply list_elem_of_further, IH.
Qed.

Lemma elem_of_dict_get k v d :
  NoDup (dict_keys d) → (k, v) ∈ d → dict_get k d = Some v.
Proof.
  induction d as [|[k' v'] d IH]; simpl; intros Hnd Hin.
  - by apply elem_of_nil in Hin.
  - apply NoDup_cons in Hnd as [Hfresh Hnd].
    apply elem_of_cons in Hin as [Heq|Hin].
    + injection Heq as -> ->. by rewrite decide_True.
    + rewrite decide_False; [by apply IH|].
      intros ->. apply Hfresh. apply list_elem_of_fmap. by exists (k', v).
Qed.

End PyDictFacts.

Lemma list_mem_true x l : list_mem x l = true ↔ x ∈ l.
Proof. unfold list_mem. apply bool_decide_eq_true. Qed.

Lemma list_mem_false x l : list_mem x l = false ↔ x ∉ l.
Proof. unfold list_mem. apply bool_decide_eq_false. Qed.

Lemma elem_of_list_remove x y l :
  NoDup l → y ∈ list_remove x l ↔ y ∈ l ∧ y ≠ x.
Proof.
  induction l as [|z l IH]; simpl.
  - intros _. split; [intros Hin; by apply elem_of_nil in Hin | by intros [Hin _]].
  - intros Hnd. apply NoDup_cons in Hnd as [Hfresh Hnd].
    destruct (decide (x = z)) as [->|Hne].
    + rewrite elem_of_cons. split.
      * intros Hin. split; [by right|]. intros ->. done.
      * intros [[->|Hin] Hy]; done.
    + rewrite !elem_of_cons, (IH Hnd). split.
      * intros [->|[Hin Hy]]; [split; [by left | done] | split; [by right | done]].
      * intros [[->|Hin] Hy]; [by left | by right].
Qed.

Lemma NoDup_list_remove x l : NoDup l → NoDup (list_remove x l).
Proof.
  induction l as [|z l IH]; simpl; [done|].
  intros Hnd. apply NoDup_cons in Hnd as [Hfresh Hnd].
  destruct (decide (x = z)) as [->|Hne]; [done|].
  apply NoDup_cons. split; [|by apply IH].
  intros Hin. by apply (elem_of_list_remove x z l Hnd) in Hin as [Hin _].
Qed.

(** ** The registry: registration *)

Section RegistryFacts.
Import Base Service.
Context {C : Type} `{!SIEMConnector C}.
Implicit Types (w : World C) (c : C).

Lemma registry_ok_init : registry_ok (init (C := C)).
Proof.
  unfold registry_ok; simpl. split_and!; [apply NoDup_nil_2 | apply NoDup_nil_2 |].
  intros n Hn. by apply elem_of_nil in Hn.
Qed.

Lemma register_connector_run c w :
  register_connector c w
  = (Ret true, set_connectors (dict_set (name c) c) w).
Proof. reflexivity. Qed.

Lemma registry_ok_register c w :
  registry_ok w → registry_ok (register_connector c w).2.
Proof.
  intros (Hkeys & Hact & Hsub). rewrite register_connector_run.
  unfold registry_ok; simpl. split_and!; [by apply NoDup_dict_set | done |].
  intros n Hn. rewrite dict_keys_set. case_decide; [by apply Hsub|].
  apply elem_of_app. left. by apply Hsub.
Qed.

(** C9.  Registration is keyed by the connector name and the last
    registration wins: after registering [c1] and then [c2] of the same
    name, that name maps to [c2], the registry being the one obtained by
    registering [c2] alone; and registering a connector a second time
    changes nothing. *)
Theorem register_connector_last_wins c1 c2 w :
  name c1 = name c2 →
  let w1 := (register_connector c1 w).2 in
  let w2 := (register_connector c2 w1).2 in
  (register_connector c1 w).1 = Ret true ∧
  (register_connector c2 w1).1 = Ret true ∧
  dict_get (name c1) (connectors (self w2)) = Some c2 ∧
  w2 = (register_connector c2 w).2 ∧
  register_connector c1 w1 = (Ret true, w1).
Proof.
  intros Hname. rewrite !register_connector_run. simpl.
  split_and!; try done.
  - rewrite Hname. apply dict_get_set_eq.
  - unfold set_connectors; simpl. by rewrite Hname, dict_set_set.
  - rewrite register_connector_run. unfold set_connectors; simpl.
    by rewrite dict_set_set.
Qed.

(** ** The registry: removal *)

Lemma unregister_connector_run name w :
  unregister_connector name w
  = if dict_mem name (connectors (self w)) then
      (Ret true,
       {| self := {| connectors := dict_del name (connectors (self w));
                     active_connectors :=
                       if list_mem name (active_connectors (self w))
                       then list_remove name (active_connectors (self w))
                       else active_connectors (self w) |};
          calls := calls w |})
    else (Ret false, w).
Proof.
  unfold unregister_connector, try_except, mbind, M_bind, get, modify, mret, M_ret.
  simpl. destruct (dict_mem name (connectors (self w))); [|done].
  simpl. by destruct (list_mem name (active_connectors (self w))).
Qed.

Lemma registry_ok_unregister name w :
  registry_ok w → registry_ok (unregister_connector name w).2.
Proof.
  intros (Hkeys & Hact & Hsub). rewrite unregister_connector_run.
  destruct (dict_mem name (connectors (self w))) eqn:Hmem; [|done].
  unfold registry_ok; simpl. split_and!.
  - by apply NoDup_dict_del.
  - destruct (list_mem _ _); [by apply NoDup_list_remove | done].
  - intros n. rewrite (elem_of_dict_keys_del name n _ Hkeys).
    destruct (list_mem name (active_connectors (self w))) eqn:Hin.
    + rewrite (elem_of_list_remove name n _ Hact). intros [Hn Hne]. auto.
    + apply list_mem_false in Hin. intros Hn. split; [auto|]. by intros ->.
Qed.

(** C3, as the code has it.  For a registered name, [unregister_connector]
    returns true, drops the name from [connectors] and from
    [active_connectors], leaves every other entry as it was, and runs no
    coroutine of any connector: [disconnect] is not called. *)
Theorem unregister_connector_drops name w :
  registry_ok w →
  name ∈ dict_keys (connectors (self w)) →
  ∃ w', unregister_connector name w = (Ret true, w') ∧
        dict_get name (connectors (self w')) = None ∧
        (name ∉ active_connectors (self w')) ∧
        calls w' = calls w ∧
        (∀ n, n ≠ name →
              dict_get n (connectors (self w')) = dict_get n (connectors (self w)) ∧
              (n ∈ active_connectors (self w') ↔ n ∈ active_connectors (self w))).
Proof.
  intros (Hkeys & Hact & Hsub) Hreg. rewrite unregister_connector_run.
  apply dict_mem_true in Hreg as ->. eexists; split; [done|]. simpl.
  split_and!; try done.
  - by apply dict_get_del_eq.
  - destruct (list_mem name (active_connectors (self w))) eqn:Hin.
    + rewrite (elem_of_list_remove name name _ Hact). by intros [_ Hne].
    + by apply list_mem_false.
  - intros n Hne. split; [by apply dict_get_del_ne|].
    destruct (list_mem name (active_connectors (self w))); [|done].
    rewrite (elem_of_list_remove name n _ Hact). tauto.
Qed.

(** The API handler is where the disconnection happens: for a registered
    name it runs [disconnect] on the connector, once, and then
    [unregister_connector]. *)
Lemma api_unregister_connector_disconnects name w :
  name ∈ dict_keys (connectors (self w)) →
  calls (api_unregister_connector name w).2 = calls w ++ [(name, MDisconnect)].
Proof.
  intros Hreg. destruct (dict_get_is_Some name _ Hreg) as [c Hc].
  unfold api_unregister_connector, get_connector, mbind, M_bind, get, mret, M_ret.
  simpl. rewrite Hc. unfold on_connector at 1. rewrite Hc. simpl.
  destruct (disconnect c) as [[b|e] c'] eqn:Hd; simpl; [|done].
  rewrite unregister_connector_run. simpl.
  by destruct (dict_mem name _).
Qed.

End RegistryFacts.

(** ** The registry: fan-out *)

Section FanOutFacts.
Import Base Service.
Context {C : Type} `{!SIEMConnector C}.
Implicit Types (w : World C) (c : C).

Lemma on_connector_run {A} n meth c0 c (m : M C A) w :
  dict_get n (connectors (self w)) = Some c →
  on_connector n meth c0 m w
  = ((m c).1, log_call (n, meth) (set_connectors (dict_set n (m c).2) w)).
Proof.
  intros Hget. unfold on_connector. rewrite Hget. simpl. by destruct (m c).
Qed.

(** Settling the coroutines of scheduled connectors changes neither the
    set of registered names nor the active list, and records one call
    for each of them, in order. *)
Lemma gather_frame {A} meth (m : M C A) (sched : list (string * C)) w :
  Forall (λ p, p.1 ∈ dict_keys (connectors (self w))) sched →
  ∃ rs w',
    gather (map (λ '(n, c), on_connector n meth c m) sched) w = (Ret rs, w') ∧
    length rs = length sched ∧
    active_connectors (self w') = active_connectors (self w) ∧
    dict_keys (connectors (self w')) = dict_keys (connectors (self w)) ∧
    calls w' = calls w ++ map (λ p, (p.1, meth)) sched.
Proof.
  revert w. induction sched as [|[n c0] sched IH]; intros w Hall.
  - exists [], w. simpl. by rewrite app_nil_r.
  - apply Forall_cons in Hall as [Hn Hall]. simpl in Hn.
    destruct (dict_get_is_Some n _ Hn) as [c Hc].
    set (w1 := log_call (n, meth) (set_connectors (dict_set n (m c).2) w)).
    assert (Hkeys1 : dict_keys (connectors (self w1)) = dict_keys (connectors (self w))).
    { simpl. by apply dict_keys_set_mem. }
    destruct (IH w1) as (rs & w' & Hrun & Hlen & Hact & Hkeys & Hcalls).
    { eapply Forall_impl; [exact Hall|]. intros p Hp. by rewrite Hkeys1. }
    exists ((m c).1 :: rs), w'. split_and!.
    + simpl. unfold mbind, M_bind, settle at 1.
      rewrite (on_connector_run n meth c0 c m w Hc). fold w1.
      unfold mbind, M_bind in Hrun. rewrite Hrun. done.
    + simpl. by rewrite Hlen.
    + by rewrite Hact.
    + by rewrite Hkeys, Hkeys1.
    + rewrite Hcalls. simpl. by rewrite <- app_assoc.
Qed.

(** When the scheduled names are distinct, each coroutine runs on the
    state its connector had at the start. *)
Lemma gather_results {A} meth (m : M C A) (sched : list (string * C)) w :
  NoDup sched.*1 →
  Forall (λ p, dict_get p.1 (connectors (self w)) = Some p.2) sched →
  ∃ w', gather (map (λ '(n, c), on_connector n meth c m) sched) w
        = (Ret (map (λ p, (m p.2).1) sched), w').
Proof.
  revert w. induction sched as [|[n c] sched IH]; intros w Hnd Hall.
  - by exists w.
  - apply Forall_cons in Hall as [Hc Hall]. simpl in Hc, Hnd.
    apply NoDup_cons in Hnd as [Hfresh Hnd].
    set (w1 := log_call (n, meth) (set_connectors (dict_set n (m c).2) w)).
    assert (Hall1 : Forall (λ p, dict_get p.1 (connectors (self w1)) = Some p.2) sched).
    { apply Forall_forall. intros [n' c'] Hin. simpl.
      rewrite dict_get_set_ne.
      - rewrite Forall_forall in Hall. apply (Hall _ Hin).
      - intros ->. apply Hfresh. apply list_elem_of_fmap. by exists (n', c'). }
    destruct (IH w1 Hnd Hall1) as [w' Hrun]. exists w'.
    simpl. unfold mbind, M_bind, settle at 1.
    rewrite (on_connector_run n meth c c m w Hc). fold w1.
    unfold mbind, M_bind in Hrun. by rewrite Hrun.
Qed.

(** The dictionary built from the settled results has one entry for each
    scheduled name, in order. *)
Lemma fold_left_dict_set {A V} (step : dict V → string * A → dict V)
    (conv : A → V) :
  (∀ acc n r, step acc (n, r) = dict_set n (conv r) acc) →
  ∀ (l : list (string * A)) (acc : dict V),
    NoDup (dict_keys acc ++ l.*1) →
    fold_left step l acc = acc ++ map (λ p, (p.1, conv p.2)) l.
Proof.
  intros Hstep l. induction l as [|[n r] l IH]; intros acc Hnd; simpl.
  - by rewrite app_nil_r.
  - rewrite Hstep.
    assert (Hfresh : n ∉ dict_keys acc).
    { apply NoDup_app in Hnd as (_ & Hdisj & _). intros Hin.
      apply (Hdisj n Hin). apply list_elem_of_here. }
    rewrite dict_set_fresh by done. rewrite IH.
    + by rewrite <- app_assoc.
    + unfold dict_keys in *. rewrite fmap_app. simpl.
      by rewrite <- app_assoc.
Qed.

Lemma zip_names_results {A B} (f : string * A → B) (l : list (string * A)) :
  zip (map fst l) (map f l) = map (λ p, (p.1, f p)) l.
Proof. induction l as [|p l IH]; simpl; [done | by rewrite IH]. Qed.

Lemma dict_get_map_values {A V} (f : string * A → V) (l : list (string * A)) n a :
  NoDup l.*1 → (n, a) ∈ l →
  dict_get n (map (λ p, (p.1, f p)) l) = Some (f (n, a)).
Proof.
  induction l as [|[n' a'] l IH]; simpl; intros Hnd Hin.
  - by apply elem_of_nil in Hin.
  - apply NoDup_cons in Hnd as [Hfresh Hnd].
    apply elem_of_cons in Hin as [Heq|Hin].
    + injection Heq as -> ->. by rewrite decide_True.
    + rewrite decide_False; [by apply IH|].
      intros ->. apply Hfresh. apply list_elem_of_fmap. by exists (n', a).
Qed.

Lemma scheduled_lookup w :
  Forall (λ p, dict_get p.1 (connectors (self w)) = Some p.2) (scheduled w).
Proof.
  unfold scheduled. induction (active_connectors (self w)) as [|n l IH]; simpl.
  - constructor.
  - destruct (dict_get n (connectors (self w))) as [c|] eqn:Hc; simpl; [|done].
    by constructor.
Qed.

Lemma scheduled_names w :
  (∀ n, n ∈ active_connectors (self w) → n ∈ dict_keys (connectors (self w))) →
  (scheduled w).*1 = active_connectors (self w).
Proof.
  unfold scheduled. induction (active_connectors (self w)) as [|n l IH]; intros Hsub.
  - done.
  - simpl. destruct (dict_get_is_Some n (connectors (self w))) as [c Hc].
    { apply Hsub, list_elem_of_here. }
    rewrite Hc. simpl. f_equal. apply IH. intros n' Hn'.
    by apply Hsub, list_elem_of_further.
Qed.

Lemma elem_of_scheduled w n c :
  n ∈ active_connectors (self w) →
  dict_get n (connectors (self w)) = Some c →
  (n, c) ∈ scheduled w.
Proof.
  intros Hin Hc. unfold scheduled. apply list_elem_of_omap. exists n.
  split; [done|]. by rewrite Hc.
Qed.

Lemma map_names {A} (meth : method) (l : list (string * A)) :
  map (λ p, (p.1, meth)) l = map (λ n, (n, meth)) l.*1.
Proof. induction l as [|p l IH]; simpl; [done | by rewrite IH]. Qed.

Lemma times_called_app n meth l1 l2 :
  times_called n meth (l1 ++ l2) = (times_called n meth l1 + times_called n meth l2)%nat.
Proof. unfold times_called. by rewrite filter_app, length_app. Qed.

Lemma times_called_none n meth (names : list string) :
  n ∉ names → times_called n meth (map (λ x, (x, meth)) names) = 0%nat.
Proof.
  unfold times_called. induction names as [|x names IH]; intros Hnot; [done|].
  apply not_elem_of_cons in Hnot as [Hne Hnot]. simpl.
  rewrite filter_cons_False by congruence. by apply IH.
Qed.

Lemma times_called_once n meth (names : list string) :
  NoDup names → n ∈ names →
  times_called n meth (map (λ x, (x, meth)) names) = 1%nat.
Proof.
  unfold times_called. induction names as [|x names IH]; intros Hnd Hin.
  - by apply elem_of_nil in Hin.
  - apply NoDup_cons in Hnd as [Hfresh Hnd]. simpl.
    destruct (decide (x = n)) as [->|Hne].
    + rewrite filter_cons_True by done. simpl. f_equal.
      by apply (times_called_none n meth names).
    + rewrite filter_cons_False by congruence.
      apply elem_of_cons in Hin as [->|Hin]; [done | by apply IH].
Qed.

(** C1.  In a registry that satisfies its invariant, [send_event_to_all]
    returns normally; the map it returns has exactly the active names as
    keys, each once; the entry of an active connector is what its
    [send_event] returned, and false when it raised; and the call ran
    [send_event] once for each active connector and nothing else. *)
Theorem send_event_to_all_fan_out event index w :
  registry_ok w →
  ∃ status_map w',
    send_event_to_all event index w = (Ret status_map, w') ∧
    dict_keys status_map = active_connectors (self w) ∧
    NoDup (dict_keys status_map) ∧
    (∀ n c, n ∈ active_connectors (self w) →
            dict_get n (connectors (self w)) = Some c →
            dict_get n status_map = Some (sent_ok (send_event event index c).1) ∧
            (is_raise (send_event event index c).1 = true →
             dict_get n status_map = Some false)) ∧
    calls w' = calls w ++ map (λ n, (n, MSendEvent)) (active_connectors (self w)) ∧
    (∀ n, n ∈ active_connectors (self w) →
          times_called n MSendEvent (calls w')
          = S (times_called n MSendEvent (calls w))).
Proof.
  intros (Hkeys & Hact & Hsub).
  pose proof (scheduled_names w Hsub) as Hnames.
  pose proof (scheduled_lookup w) as Hlook.
  destruct (gather_results MSendEvent (send_event event index) (scheduled w) w)
    as [w' Hrun]; [by rewrite Hnames | done |].
  destruct (gather_frame MSendEvent (send_event event index) (scheduled w) w)
    as (rs & w'' & Hrun' & _ & _ & _ & Hcalls).
  { eapply Forall_impl; [exact Hlook|]. intros p Hp. simpl in *.
    exact (dict_get_Some_keys _ _ _ Hp). }
  rewrite Hrun in Hrun'. injection Hrun' as <- <-.
  set (step := λ (status_map : dict bool) '(name, result),
                 match result : outcome bool with
                 | Raise _ => dict_set name false status_map
                 | Ret sent => dict_set name sent status_map
                 end).
  assert (Hmap :
    fold_left step
      (zip (map fst (scheduled w))
           (map (λ p, (send_event event index p.2).1) (scheduled w))) []
    = map (λ p, (p.1, sent_ok (send_event event index p.2).1)) (scheduled w)).
  { rewrite (zip_names_results (λ p, (send_event event index p.2).1)).
    rewrite (fold_left_dict_set step sent_ok).
    - simpl. by rewrite map_map.
    - intros acc n r. by destruct r.
    - simpl. rewrite <- list_fmap_compose.
      change (NoDup ((scheduled w).*1)). by rewrite Hnames. }
  eexists _, w'. split.
  { unfold send_event_to_all, mbind, M_bind, get at 1. simpl.
    unfold mbind, M_bind in Hrun. rewrite Hrun. unfold mret, M_ret.
    fold step. by rewrite Hmap. }
  assert (Hk : dict_keys (map (λ p, (p.1, sent_ok (send_event event index p.2).1))
                              (scheduled w)) = active_connectors (self w)).
  { unfold dict_keys. rewrite <- list_fmap_compose. exact Hnames. }
  split_and!.
  - exact Hk.
  - by rewrite Hk.
  - intros n c Hin Hc.
    pose proof (dict_get_map_values (λ p, sent_ok (send_event event index p.2).1)
                  (scheduled w) n c) as Hget.
    simpl in Hget. rewrite Hget; [| by rewrite Hnames | by apply elem_of_scheduled].
    split; [done|]. by destruct ((send_event event index c).1).
  - by rewrite Hcalls, map_names, Hnames.
  - intros n Hin. rewrite Hcalls, times_called_app, map_names, Hnames.
    rewrite (times_called_once n MSendEvent _ Hact Hin). lia.
Qed.

(** ** Health checks *)

Lemma health_check_run c :
  health_check c
  = match test_connection c with
    | (Ret test_result, c1) =>
        (Ret [("name", VStr (name c1));
              ("siem_type", VStr (SIEMType_value (siem_type c1)));
              ("status", VStr (if truthy (get_or_none "success" test_result)
                               then "healthy" else "unhealthy"));
              ("connected", VBool (connected c1));
              ("host", VStr (host c1));
              ("port", VInt (port c1));
              ("test_result", VDict test_result);
              ("timestamp", VStr (isoformat (utcnow c1)))], c1)
    | (Raise e, c1) =>
        (Ret [("name", VStr (name c1));
              ("siem_type", VStr (SIEMType_value (siem_type c1)));
              ("status", VStr "error");
              ("connected", VBool false);
              ("error", VStr (str e));
              ("timestamp", VStr (isoformat (utcnow c1)))], c1)
    end.
Proof.
  unfold health_check, try_except, mbind, M_bind, get, mret, M_ret.
  by destruct (test_connection c) as [[t|e] c1].
Qed.

(** C7.  [health_check] always returns, whatever [test_connection] does;
    the status it reports is one of healthy, unhealthy and error; it is
    healthy exactly when [test_connection] returned a result whose
    [success] field passes Python's truth test, and error exactly when
    [test_connection] raised. *)
Theorem health_check_status c :
  ∃ r c' status,
    health_check c = (Ret r, c') ∧
    dict_get "status" r = Some (VStr status) ∧
    (status = "healthy" ∨ status = "unhealthy" ∨ status = "error") ∧
    (status = "healthy" ↔
       ∃ t, (test_connection c).1 = Ret t ∧ truthy (get_or_none "success" t) = true) ∧
    (status = "error" ↔ ∃ e, (test_connection c).1 = Raise e).
Proof.
  rewrite health_check_run.
  destruct (test_connection c) as [[t|e] c1]; simpl.
  - destruct (truthy (get_or_none "success" t)) eqn:Hsucc.
    + eexists _, _, "healthy". split_and!; try done; [by left | |].
      * split; [intros _; by exists t | done].
      * split; [done | by intros [e He]].
    + eexists _, _, "unhealthy". split_and!; try done; [right; by left | |].
      * split; [done|]. intros (t' & Ht' & Htrue). injection Ht' as <-. congruence.
      * split; [done | by intros [e He]].
  - eexists _, _, "error". split_and!; try done; [right; by right | |].
    + split; [done | by intros (t & Ht & _)].
    + split; [intros _; by exists e | done].
Qed.

(** Whatever the probes report, [health_check_all] returns and leaves
    the registered names and the active list as they were. *)
Lemma health_check_all_unchanged w :
  ∃ health_map w',
    health_check_all w = (Ret health_map, w') ∧
    dict_keys (connectors (self w')) = dict_keys (connectors (self w)) ∧
    active_connectors (self w') = active_connectors (self w).
Proof.
  destruct (gather_frame MHealthCheck health_check (connectors (self w)) w)
    as (rs & w' & Hrun & _ & Hact & Hkeys & _).
  { apply Forall_forall. intros [n c] Hin. simpl.
    apply list_elem_of_fmap. by exists (n, c). }
  eexists _, w'. split; [|done].
  unfold health_check_all, mbind, M_bind, get at 1. simpl.
  unfold mbind, M_bind in Hrun. by rewrite Hrun.
Qed.

(** C8, as the code has it.  [health_check_all] returns and leaves the
    registered names and the active list as they were, also when a probe
    reports a failure: the outcome of each probe only shows in the map
    that is returned, whose entry for a registered connector is the
    result of that connector's [health_check]. *)
Theorem health_check_all_reports_only w :
  registry_ok w →
  ∃ health_map w',
    health_check_all w = (Ret health_map, w') ∧
    dict_keys (connectors (self w')) = dict_keys (connectors (self w)) ∧
    active_connectors (self w') = active_connectors (self w) ∧
    dict_keys health_map = dict_keys (connectors (self w)) ∧
    (∀ n c, dict_get n (connectors (self w)) = Some c →
            ∃ r, dict_get n health_map = Some r ∧ (health_check c).1 = Ret r).
Proof.
  intros (Hkeys & _ & _).
  destruct (health_check_all_unchanged w) as (hm & w' & Hall & Hk & Ha).
  destruct (gather_results MHealthCheck health_check (connectors (self w)) w)
    as [w1 Hrun]; [done| |].
  { apply Forall_forall. intros [n c] Hin. by apply elem_of_dict_get. }
  set (conv := λ o : outcome (dict value),
                 match o with
                 | Ret r => r
                 | Raise e => [("status", VStr "error"); ("error", VStr (str e))]
                 end).
  assert (Hmap : hm = map (λ p, (p.1, conv (health_check p.2).1)) (connectors (self w))).
  { revert Hall. unfold health_check_all, mbind, M_bind, get at 1. simpl.
    unfold mbind, M_bind in Hrun. rewrite Hrun. unfold mret, M_ret.
    intros [= <- _].
    rewrite (zip_names_results (λ p, (health_check p.2).1)).
    rewrite (fold_left_dict_set _ conv).
    - simpl. by rewrite map_map.
    - intros acc n r. by destruct r.
    - simpl. by rewrite <- list_fmap_compose. }
  exists hm, w'. split_and!; try done.
  - rewrite Hmap. unfold dict_keys. by rewrite <- list_fmap_compose.
  - intros n c Hc. rewrite Hmap.
    pose proof (dict_get_map_values (λ p, conv (health_check p.2).1)
                  (connectors (self w)) n c Hkeys (dict_get_elem_of _ _ _ Hc)) as Hget.
    simpl in Hget. rewrite Hget. rewrite health_check_run.
    destruct (test_connection c) as [[t|e] c1]; simpl; eauto.
Qed.

(** ** Connecting *)

Lemma connect_one_run name c0 c results w :
  dict_get name (connectors (self w)) = Some c →
  connect_one name c0 results w
  = let w1 := log_call (name, MConnect)
                (set_connectors (dict_set name (connect c).2) w) in
    match (connect c).1 with
    | Ret true =>
        (Ret (dict_set name true results),
         if list_mem name (active_connectors (self w))
         then w1 else set_active (λ l, l ++ [name]) w1)
    | Ret false =>
        (Ret (dict_set name false results),
         if list_mem name (active_connectors (self w))
         then set_active (list_remove name) w1 else w1)
    | Raise e => (Ret (dict_set name false results), w1)
    end.
Proof.
  intros Hc. unfold connect_one, try_except, mbind, M_bind.
  rewrite (on_connector_run name MConnect c0 c connect w Hc).
  destruct (connect c) as [[[|]|e] c']; simpl; [| |done].
  - unfold get, modify, mret, M_ret. simpl.
    by destruct (list_mem name (active_connectors (self w))).
  - unfold get, modify, mret, M_ret. simpl.
    by destruct (list_mem name (active_connectors (self w))).
Qed.

(** What one iteration does to the active list. *)
Lemma connect_one_active name c0 c results w n :
  dict_get name (connectors (self w)) = Some c →
  NoDup (active_connectors (self w)) →
  let w' := (connect_one name c0 results w).2 in
  NoDup (active_connectors (self w')) ∧
  dict_keys (connectors (self w')) = dict_keys (connectors (self w)) ∧
  (n ≠ name →
   (n ∈ active_connectors (self w') ↔ n ∈ active_connectors (self w)) ∧
   dict_get n (connectors (self w')) = dict_get n (connectors (self w))) ∧
  (name ∈ active_connectors (self w') ↔
     (connect c).1 = Ret true ∨
     (is_raise (connect c).1 = true ∧ name ∈ active_connectors (self w))).
Proof.
  intros Hc Hnd. rewrite (connect_one_run name c0 c results w Hc).
  assert (Hk : dict_keys (dict_set name (connect c).2 (connectors (self w)))
               = dict_keys (connectors (self w))).
  { apply dict_keys_set_mem. by eapply dict_get_Some_keys. }
  assert (Hg : n ≠ name →
               dict_get n (dict_set name (connect c).2 (connectors (self w)))
               = dict_get n (connectors (self w))).
  { intros Hne. by apply dict_get_set_ne. }
  destruct (connect c) as [[[|]|e] c']; simpl in *.
  - destruct (list_mem name (active_connectors (self w))) eqn:Hin; simpl.
    + apply list_mem_true in Hin. split_and!; [done | done | | tauto].
      intros Hne. split; [done | by apply Hg].
    + apply list_mem_false in Hin. split_and!; [| done | |].
      * apply NoDup_app. split_and!; [done | | apply NoDup_singleton].
        intros x Hx Hs. apply list_elem_of_singleton in Hs. by subst.
      * intros Hne. split; [|by apply Hg]. rewrite elem_of_app, list_elem_of_singleton.
        tauto.
      * rewrite elem_of_app, list_elem_of_singleton. tauto.
  - destruct (list_mem name (active_connectors (self w))) eqn:Hin; simpl.
    + split_and!; [| done | |].
      * by apply NoDup_list_remove.
      * intros Hne. split; [|by apply Hg].
        rewrite (elem_of_list_remove name n _ Hnd). tauto.
      * rewrite (elem_of_list_remove name name _ Hnd).
        split; [tauto|]. intros [Ht|[Hr _]]; done.
    + apply list_mem_false in Hin. split_and!; [done | done | |].
      * intros Hne. split; [done | by apply Hg].
      * split; [done|]. intros [Ht|[Hr _]]; done.
  - split_and!; [done | done | |].
    + intros Hne. split; [done | by apply Hg].
    + split; [by right|]. intros [Ht|[_ Hin]]; done.
Qed.

(** The loop of [connect_all], on the items it still has to visit. *)
Lemma connect_all_loop_spec (items : dict C) results w :
  NoDup items.*1 →
  Forall (λ p, dict_get p.1 (connectors (self w)) = Some p.2) items →
  NoDup (active_connectors (self w)) →
  ∃ results' w',
    connect_all_loop items results w = (Ret results', w') ∧
    dict_keys (connectors (self w')) = dict_keys (connectors (self w)) ∧
    NoDup (active_connectors (self w')) ∧
    (∀ n, n ∉ items.*1 →
          (n ∈ active_connectors (self w') ↔ n ∈ active_connectors (self w)) ∧
          dict_get n results' = dict_get n results) ∧
    (∀ n c, (n, c) ∈ items →
            dict_get n results' = Some (sent_ok (connect c).1) ∧
            (n ∈ active_connectors (self w') ↔
               (connect c).1 = Ret true ∨
               (is_raise (connect c).1 = true ∧ n ∈ active_connectors (self w)))).
Proof.
  revert results w. induction items as [|[name c] items IH]; intros results w Hnd Hall Hact.
  - exists results, w. split_and!; try done.
    intros n c Hin. by apply elem_of_nil in Hin.
  - apply Forall_cons in Hall as [Hc Hall]. simpl in Hc, Hnd.
    apply NoDup_cons in Hnd as [Hfresh Hnd].
    pose proof (connect_one_run name c c results w Hc) as Hone.
    destruct (connect_one name c results w) as [o w1] eqn:Hrun.
    assert (Ho : o = Ret (dict_set name (sent_ok (connect c).1) results)).
    { revert Hone. simpl. destruct (connect c) as [[[|]|e] c']; by intros [= -> _]. }
    assert (Hstep : ∀ n,
      NoDup (active_connectors (self w1)) ∧
      dict_keys (connectors (self w1)) = dict_keys (connectors (self w)) ∧
      (n ≠ name →
       (n ∈ active_connectors (self w1) ↔ n ∈ active_connectors (self w)) ∧
       dict_get n (connectors (self w1)) = dict_get n (connectors (self w))) ∧
      (name ∈ active_connectors (self w1) ↔
         (connect c).1 = Ret true ∨
         (is_raise (connect c).1 = true ∧ name ∈ active_connectors (self w)))).
    { intros n. pose proof (connect_one_active name c c results w n Hc Hact) as Hgoal.
      simpl in Hgoal. by rewrite Hrun in Hgoal. }
    destruct (Hstep name) as (Hact1 & Hkeys1 & _ & Hname).
    assert (Hne : ∀ n c', (n, c') ∈ items → n ≠ name).
    { intros n c' Hin ->. apply Hfresh. apply list_elem_of_fmap. by exists (name, c'). }
    destruct (IH (dict_set name (sent_ok (connect c).1) results) w1 Hnd)
      as (results' & w' & Hloop & Hkeys & Hact' & Hout & Hin); [|done|].
    { apply Forall_forall. intros [n c'] Hp. simpl.
      destruct (Hstep n) as (_ & _ & Hother & _).
      destruct (Hother (Hne n c' Hp)) as [_ ->].
      rewrite Forall_forall in Hall. apply (Hall _ Hp). }
    exists results', w'. split_and!.
    + simpl. unfold mbind, M_bind. rewrite Hrun, Ho. exact Hloop.
    + by rewrite Hkeys.
    + done.
    + intros n Hn. simpl in Hn. apply not_elem_of_cons in Hn as [Hn1 Hn2].
      destruct (Hout n Hn2) as [Ha Hr]. destruct (Hstep n) as (_ & _ & Hother & _).
      destruct (Hother Hn1) as [Ha1 _]. split; [by rewrite Ha|].
      rewrite Hr. by apply dict_get_set_ne.
    + intros n c' Hp. apply elem_of_cons in Hp as [Heq|Hp].
      * injection Heq as -> ->. destruct (Hout name Hfresh) as [Ha Hr].
        split; [by rewrite Hr, dict_get_set_eq | by rewrite Ha].
      * destruct (Hin n c' Hp) as [Hr Ha]. split; [done|].
        destruct (Hstep n) as (_ & _ & Hother & _).
        destruct (Hother (Hne n c' Hp)) as [Ha1 _]. by rewrite Ha, Ha1.
Qed.

(** What [connect_all] does, in a registry that satisfies its invariant:
    it returns, keeps the invariant, reports for each registered connector
    what its [connect] returned (false when it raised), and leaves active
    the connectors whose [connect] returned true, together with those
    that were active and whose [connect] raised. *)
Lemma connect_all_spec w :
  registry_ok w →
  ∃ results w',
    connect_all w = (Ret results, w') ∧
    registry_ok w' ∧
    dict_keys (connectors (self w')) = dict_keys (connectors (self w)) ∧
    (∀ n c, dict_get n (connectors (self w)) = Some c →
            dict_get n results = Some (sent_ok (connect c).1) ∧
            (n ∈ active_connectors (self w') ↔
               (connect c).1 = Ret true ∨
               (is_raise (connect c).1 = true ∧ n ∈ active_connectors (self w)))).
Proof.
  intros (Hkeys & Hact & Hsub).
  destruct (connect_all_loop_spec (connectors (self w)) [] w Hkeys)
    as (results & w' & Hrun & Hk & Hact' & Hout & Hin); [|done|].
  { apply Forall_forall. intros [n c] Hp. by apply elem_of_dict_get. }
  exists results, w'. split_and!; try done.
  - split_and!; [by rewrite Hk | done |].
    intros n Hn. rewrite Hk.
    destruct (decide (n ∈ dict_keys (connectors (self w)))) as [|Hnot]; [done|].
    apply Hsub. by apply (Hout n Hnot).
  - intros n c Hc. apply Hin. by apply dict_get_elem_of.
Qed.

(** Where no [connect] raises, the active set after [connect_all] is the
    set of connectors reported as connected. *)
Lemma connect_all_active_iff_success w :
  registry_ok w →
  (∀ n c, dict_get n (connectors (self w)) = Some c → is_raise (connect c).1 = false) →
  ∃ results w',
    connect_all w = (Ret results, w') ∧
    ∀ n, n ∈ active_connectors (self w') ↔ dict_get n results = Some true.
Proof.
  intros Hok Hnoraise.
  destruct (connect_all_spec w Hok) as (results & w' & Hrun & Hok' & Hk & Hspec).
  exists results, w'. split; [done|]. intros n.
  destruct (dict_get n (connectors (self w))) as [c|] eqn:Hc.
  - destruct (Hspec n c Hc) as [-> ->]. specialize (Hnoraise n c Hc).
    destruct (connect c).1 as [[|]|e]; simpl in *; split; try done.
    + by left.
    + intros [Ht|[Hr _]]; done.
  - assert (Hnot : n ∉ dict_keys (connectors (self w'))).
    { rewrite Hk. intros Hin. apply dict_get_is_Some in Hin as [c' Hc']. congruence. }
    destruct Hok' as (_ & _ & Hsub'). split.
    + intros Hin. by apply Hsub' in Hin.
    + intros Hr. exfalso.
      destruct (connect_all_loop_spec (connectors (self w)) [] w) as
        (results0 & w0 & Hrun0 & _ & _ & Hout & _).
      * by destruct Hok.
      * apply Forall_forall. intros [m c] Hp. apply elem_of_dict_get; [by destruct Hok|done].
      * by destruct Hok as (_ & ? & _).
      * unfold connect_all, mbind, M_bind, get in Hrun. simpl in Hrun.
        rewrite Hrun in Hrun0. injection Hrun0 as <- <-.
        rewrite Hk in Hnot.
        destruct (Hout n) as [_ Hres]; [done|]. rewrite Hr in Hres. done.
Qed.

(** ** The invariant of the registry *)

Lemma registry_ok_frame w w' :
  dict_keys (connectors (self w')) = dict_keys (connectors (self w)) →
  active_connectors (self w') = active_connectors (self w) →
  registry_ok w → registry_ok w'.
Proof. unfold registry_ok. by intros -> ->. Qed.

Lemma scheduled_registered w :
  Forall (λ p, p.1 ∈ dict_keys (connectors (self w))) (scheduled w).
Proof.
  eapply Forall_impl; [apply scheduled_lookup|]. intros p Hp. simpl in *.
  exact (dict_get_Some_keys _ _ _ Hp).
Qed.

Lemma registry_ok_send_event_to_all event index w :
  registry_ok w → registry_ok (send_event_to_all event index w).2.
Proof.
  destruct (gather_frame MSendEvent (send_event event index) (scheduled w) w
              (scheduled_registered w)) as (rs & w' & Hrun & _ & Hact & Hkeys & _).
  unfold send_event_to_all, mbind, M_bind, get at 1. simpl.
  unfold mbind, M_bind in Hrun. rewrite Hrun. simpl.
  by apply registry_ok_frame.
Qed.

Lemma registry_ok_send_batch_to_all events index w :
  registry_ok w → registry_ok (send_batch_to_all events index w).2.
Proof.
  destruct (gather_frame MSendBatch (send_batch events index) (scheduled w) w
              (scheduled_registered w)) as (rs & w' & Hrun & _ & Hact & Hkeys & _).
  unfold send_batch_to_all, mbind, M_bind, get at 1. simpl.
  unfold mbind, M_bind in Hrun. rewrite Hrun. simpl.
  by apply registry_ok_frame.
Qed.

Lemma registry_ok_health_check_all w :
  registry_ok w → registry_ok (health_check_all w).2.
Proof.
  destruct (health_check_all_unchanged w) as (hm & w' & -> & Hkeys & Hact).
  by apply registry_ok_frame.
Qed.

Lemma registry_ok_connect_all w :
  registry_ok w → registry_ok (connect_all w).2.
Proof.
  intros Hok. by destruct (connect_all_spec w Hok) as (results & w' & -> & Hok' & _).
Qed.

Lemma disconnect_one_run name c0 c results w :
  dict_get name (connectors (self w)) = Some c →
  disconnect_one name c0 results w
  = let w1 := log_call (name, MDisconnect)
                (set_connectors (dict_set name (disconnect c).2) w) in
    match (disconnect c).1 with
    | Ret success =>
        (Ret (dict_set name success results),
         if list_mem name (active_connectors (self w))
         then set_active (list_remove name) w1 else w1)
    | Raise e => (Ret (dict_set name false results), w1)
    end.
Proof.
  intros Hc. unfold disconnect_one, try_except, mbind, M_bind.
  rewrite (on_connector_run name MDisconnect c0 c disconnect w Hc).
  destruct (disconnect c) as [[b|e] c']; simpl; [|done].
  unfold get, modify, mret, M_ret. simpl.
  by destruct (list_mem name (active_connectors (self w))).
Qed.

Lemma registry_ok_disconnect_one name c0 results w :
  name ∈ dict_keys (connectors (self w)) →
  registry_ok w →
  registry_ok (disconnect_one name c0 results w).2 ∧
  dict_keys (connectors (self (disconnect_one name c0 results w).2))
  = dict_keys (connectors (self w)).
Proof.
  intros Hname (Hkeys & Hact & Hsub).
  destruct (dict_get_is_Some name _ Hname) as [c Hc].
  rewrite (disconnect_one_run name c0 c results w Hc).
  pose proof (dict_keys_set_mem name (disconnect c).2 _ Hname) as Hk.
  assert (Hrm : registry_ok
    (set_active (list_remove name)
       (log_call (name, MDisconnect)
          (set_connectors (dict_set name (disconnect c).2) w)))).
  { unfold registry_ok; simpl. rewrite Hk. split_and!; [done | by apply NoDup_list_remove |].
    intros n Hn. apply (elem_of_list_remove name n _ Hact) in Hn as [Hn _]. auto. }
  assert (Hsame : registry_ok
    (log_call (name, MDisconnect)
       (set_connectors (dict_set name (disconnect c).2) w))).
  { unfold registry_ok; simpl. by rewrite Hk. }
  destruct (disconnect c) as [[b|e] c']; simpl in *; [|done].
  by destruct (list_mem name (active_connectors (self w))).
Qed.

Lemma registry_ok_disconnect_all_loop (items : dict C) results w :
  Forall (λ p, p.1 ∈ dict_keys (connectors (self w))) items →
  registry_ok w →
  registry_ok (disconnect_all_loop items results w).2.
Proof.
  revert results w. induction items as [|[name c] items IH]; intros results w Hall Hok.
  - done.
  - apply Forall_cons in Hall as [Hname Hall]. simpl in Hname.
    destruct (registry_ok_disconnect_one name c results w Hname Hok) as [Hok1 Hk1].
    simpl. unfold mbind, M_bind.
    destruct (disconnect_one name c results w) as [[r|e] w1] eqn:Hrun; simpl in *.
    + apply IH; [|done]. eapply Forall_impl; [exact Hall|].
      intros p Hp. by rewrite Hk1.
    + done.
Qed.

Lemma registry_ok_disconnect_all w :
  registry_ok w → registry_ok (disconnect_all w).2.
Proof.
  intros Hok. unfold disconnect_all, mbind, M_bind, get at 1. simpl.
  apply registry_ok_disconnect_all_loop; [|done].
  apply Forall_forall. intros [n c] Hin. simpl.
  apply list_elem_of_fmap. by exists (n, c).
Qed.

(** Every state the service reaches satisfies the invariant. *)
Lemma reachable_registry_ok w : reachable w → registry_ok w.
Proof.
  induction 1.
  - apply registry_ok_init.
  - by apply registry_ok_register.
  - by apply registry_ok_unregister.
  - by apply registry_ok_connect_all.
  - by apply registry_ok_send_event_to_all.
  - by apply registry_ok_send_batch_to_all.
  - by apply registry_ok_health_check_all.
  - by apply registry_ok_disconnect_all.
Qed.

End FanOutFacts.

(** ** The common envelope *)

Section EnvelopeFacts.
Import Base.

(** Induction on values, with hypotheses for the values inside lists and
    dictionaries. *)
Lemma value_ind_nested (P : value → Prop) :
  P VNone → (∀ b, P (VBool b)) → (∀ z, P (VInt z)) → (∀ s, P (VStr s)) →
  (∀ l, Forall P l → P (VList l)) →
  (∀ d, Forall (λ kv, P kv.2) d → P (VDict d)) →
  ∀ v, P v.
Proof.
  intros HNone HBool HInt HStr HList HDict. fix IH 1. intros [| b | z | s | l | d].
  - exact HNone.
  - apply HBool.
  - apply HInt.
  - apply HStr.
  - apply HList. revert l. fix IHl 1. intros [|v l]; constructor.
    + apply IH.
    + apply IHl.
  - apply HDict. revert d. fix IHd 1. intros [|[k v] d]; constructor.
    + apply IH.
    + apply IHd.
Qed.

Lemma forallb_Forall {A} (f : A → bool) (l : list A) :
  forallb f l = true ↔ Forall (λ x, f x = true) l.
Proof.
  induction l as [|x l IH]; simpl.
  - split; [constructor | done].
  - rewrite andb_true_iff, IH, Forall_cons. done.
Qed.

Lemma remove_empty_dicts_dict items :
  _remove_empty_dicts (VDict items)
  = VDict (fold_left (clean_item _remove_empty_dicts) items []).
Proof. reflexivity. Qed.

Lemma clean_item_pruned cleaned key v :
  cleaned_ok v →
  Forall (λ kv, pruned kv.2 = true) cleaned →
  Forall (λ kv, pruned kv.2 = true) (clean_item _remove_empty_dicts cleaned (key, v)).
Proof.
  intros Hv Hacc. destruct v as [| b | z | s | l | d]; simpl; try done.
  - by apply Forall_dict_set.
  - by apply Forall_dict_set.
  - by apply Forall_dict_set.
  - by apply Forall_dict_set.
  - destruct Hv as (n & Hn & Hpruned). rewrite remove_empty_dicts_dict in Hn.
    injection Hn as Hn. rewrite Hn.
    destruct n as [|kv n]; simpl; [exact Hacc|].
    destruct (_ || _); [|exact Hacc].
    apply Forall_dict_set; [|exact Hacc]. simpl.
    apply Forall_cons in Hpruned as [Hkv Hpruned].
    rewrite Hkv. simpl. by apply forallb_Forall.
Qed.

Lemma remove_empty_dicts_ok v : cleaned_ok v.
Proof.
  induction v as [| b | z | s | l _ | d IH] using value_ind_nested; try done.
  simpl. eexists; split; [reflexivity|].
  assert (Hgen : ∀ acc, Forall (λ kv, pruned kv.2 = true) acc →
            Forall (λ kv, pruned kv.2 = true)
                   (fold_left (clean_item _remove_empty_dicts) d acc)).
  { induction IH as [|[k v] d Hv _ IHd]; intros acc Hacc; simpl; [done|].
    apply IHd. by apply clean_item_pruned. }
  apply Hgen. constructor.
Qed.

(** C4, as the code has it.  In the envelope [format_dlp_event] returns,
    every value reached through dictionaries only is neither [None] nor
    an empty dictionary, at every depth.  Lists are not looked into. *)
Theorem format_dlp_event_pruned now event :
  envelope pruned (format_dlp_event now event) = true.
Proof.
  unfold format_dlp_event.
  match goal with |- envelope pruned (_remove_empty_dicts ?v) = true =>
    pose proof (remove_empty_dicts_ok v) as (n & Hn & Hpruned)
  end.
  rewrite Hn. simpl. by apply forallb_Forall.
Qed.

End EnvelopeFacts.

(** ** Default timestamps of the action result models *)

Section DefaultTimestamps.
Import ActionTypes.

(** C10.  The default of the [timestamp] field is read from the clock once,
    when the module is imported, for [ActionResult] and for
    [ExecutionSummary]: whenever they are built, two instances of the same
    class made without a [timestamp] argument carry that same value. *)
Theorem default_timestamp_constant (clock : Clock) :
  ∃ m clock',
    import clock = (Ret m, clock') ∧
    ActionResult_timestamp m = reading clock (tick clock) ∧
    ExecutionSummary_timestamp m = reading clock (S (tick clock)) ∧
    (∀ (clock1 clock2 : Clock) t1 ok1 msg1 md1 err1 t2 ok2 msg2 md2 err2,
       ∃ r1 r2 c1 c2,
         new_ActionResult m t1 ok1 msg1 md1 None err1 clock1 = (Ret r1, c1) ∧
         new_ActionResult m t2 ok2 msg2 md2 None err2 clock2 = (Ret r2, c2) ∧
         ActionResult.timestamp r1 = ActionResult_timestamp m ∧
         ActionResult.timestamp r1 = ActionResult.timestamp r2) ∧
    (∀ (clock1 clock2 : Clock) e1 p1 r1 a1 e2 p2 r2 a2,
       ∃ x1 x2 c1 c2,
         new_ExecutionSummary m e1 p1 r1 None a1 clock1 = (Ret x1, c1) ∧
         new_ExecutionSummary m e2 p2 r2 None a2 clock2 = (Ret x2, c2) ∧
         ExecutionSummary.timestamp x1 = ExecutionSummary_timestamp m ∧
         ExecutionSummary.timestamp x1 = ExecutionSummary.timestamp x2).
Proof.
  eexists _, _. split; [reflexivity|]. simpl. split_and!; try done.
  - intros. eexists _, _, _, _. split_and!; reflexivity.
  - intros. eexists _, _, _, _. split_and!; reflexivity.
Qed.

End DefaultTimestamps.

(** ** Reasoning on computations *)

Lemma bind_Ret_inv {S A B} (m : M S A) (k : A → M S B) s b s' :
  (m ≫= k) s = (Ret b, s') →
  ∃ a s1, m s = (Ret a, s1) ∧ k a s1 = (Ret b, s').
Proof.
  unfold mbind, M_bind. destruct (m s) as [[a|e] s1]; [eauto | done].
Qed.

(** A [try] whose handler returns a result satisfying [P] returns one as
    soon as the results of its body satisfy [P]. *)
Lemma try_except_returns {S A} (P : A → Prop) (body : M S A) handler s :
  (∀ a s', body s = (Ret a, s') → P a) →
  (∀ e s', ∃ a s'', handler e s' = (Ret a, s'') ∧ P a) →
  ∃ a s', try_except body handler s = (Ret a, s') ∧ P a.
Proof.
  intros Hbody Hhandler. unfold try_except.
  destruct (body s) as [[a|e] s1] eqn:Hrun.
  - exists a, s1. split; [done | by eapply Hbody].
  - apply Hhandler.
Qed.

Tactic Notation "inv_bind" hyp(H) "as" ident(a) ident(s) ident(H1) :=
  apply bind_Ret_inv in H as (a & s & H1 & H).

(** ** Batches *)

Section BatchFacts.
Context {Client Env : Type} {ES : ELK.Elasticsearch Client Env}.
Context {Session Env' : Type} {HTTP : Splunk.Aiohttp Session Env'}.

Lemma count_results_sum items :
  (ELK.count_results items).1 + (ELK.count_results items).2
  = Z.of_nat (length items).
Proof.
  unfold ELK.count_results.
  assert (Hgen : ∀ acc : Z * Z,
    let r := fold_left (λ '(success_count, error_count) '(ok, result),
                          if ok : bool then (success_count + 1, error_count)
                          else (success_count, error_count + 1)) items acc in
    r.1 + r.2 = acc.1 + acc.2 + Z.of_nat (length items)).
  { induction items as [|[ok result] items IH]; intros [a b]; simpl.
    - lia.
    - specialize (IH (if ok then (a + 1, b) else (a, b + 1))). simpl in IH.
      rewrite IH. destruct ok; simpl; lia. }
  specialize (Hgen (0, 0)). simpl in Hgen. rewrite Hgen. lia.
Qed.

Lemma counts_add_up_failure n (success error : value) :
  counts_add_up n [("success", success); ("error", error);
                   ("total", VInt (Z.of_nat n)); ("indexed", VInt 0);
                   ("failed", VInt (Z.of_nat n))].
Proof. exists 0, (Z.of_nat n). split_and!; [reflexivity.. | lia]. Qed.

Lemma counts_add_up_success n indexed failed (success index : value) :
  indexed + failed = Z.of_nat n →
  counts_add_up n [("success", success); ("total", VInt (Z.of_nat n));
                   ("indexed", VInt indexed); ("failed", VInt failed);
                   ("index", index)].
Proof. intros Hsum. exists indexed, failed. split_and!; [reflexivity.. | done]. Qed.

Lemma elk_send_batch_counts events index (s : ELK.State Client Env) :
  one_result_per_action →
  ∃ r s', ELK.send_batch events index s = (Ret r, s') ∧
          counts_add_up (length events) r.
Proof.
  intros Hbulk. unfold ELK.send_batch. apply try_except_returns.
  - intros r s' Hrun.
    inv_bind Hrun as u s1 Hconn.
    inv_bind Hrun as s1' s1'' Hget. injection Hget as <- <-.
    inv_bind Hrun as items s2 Hitems.
    destruct (ELK.count_results items) as [success_count error_count] eqn:Hcount.
    injection Hrun as <- _.
    apply counts_add_up_success.
    pose proof (count_results_sum items) as Hsum. rewrite Hcount in Hsum. simpl in Hsum.
    rewrite Hsum. f_equal.
    unfold ELK.with_client in Hitems.
    inv_bind Hitems as s1' s1'' Hget. injection Hget as <- <-.
    destruct (ELK.client (ELK.self s1)) as [cl|]; [|done].
    inv_bind Hitems as u' s1' Hreq. unfold ELK.streaming_bulk in Hitems.
    destruct (ELK.async_streaming_bulk _ _ _) as [[items' raised] e'] eqn:Hyield.
    destruct raised as [e|]; [done|]. injection Hitems as <- _.
    rewrite (Hbulk _ _ _ _ _ Hyield). by rewrite length_map.
  - intros e s'. eexists _, _. split; [reflexivity|]. apply counts_add_up_failure.
Qed.

Lemma splunk_send_batch_counts events index (s : Splunk.State Session Env') :
  ∃ r s', Splunk.send_batch events index s = (Ret r, s') ∧
          counts_add_up (length events) r.
Proof.
  unfold Splunk.send_batch. apply try_except_returns.
  - intros r s' Hrun.
    inv_bind Hrun as u s1 Hconn.
    inv_bind Hrun as payloads s2 Hpayloads.
    inv_bind Hrun as s2' s2'' Hget. injection Hget as <- <-.
    inv_bind Hrun as response s3 Hpost.
    destruct (Splunk.status response =? 200).
    + inv_bind Hrun as result s4 Hjson. injection Hrun as <- _.
      apply counts_add_up_success. lia.
    + inv_bind Hrun as text s4 Htext. injection Hrun as <- _.
      apply counts_add_up_failure.
  - intros e s'. eexists _, _. split; [reflexivity|]. apply counts_add_up_failure.
Qed.

(** C5.  Provided [async_streaming_bulk] yields one result for each action
    when it ends normally, [send_batch] of the ELK connector and of the
    Splunk connector always return a dictionary whose [total] is the number
    of events submitted and whose [indexed] and [failed] add up to it,
    whether the batch went through, was refused, or an exception was
    caught. *)
Theorem send_batch_counts events index :
  one_result_per_action →
  (∀ s : ELK.State Client Env,
     ∃ r s', ELK.send_batch events index s = (Ret r, s') ∧
             counts_add_up (length events) r) ∧
  (∀ s : Splunk.State Session Env',
     ∃ r s', Splunk.send_batch events index s = (Ret r, s') ∧
             counts_add_up (length events) r).
Proof.
  intros Hbulk. split.
  - intros s. by apply elk_send_batch_counts.
  - intros s. apply splunk_send_batch_counts.
Qed.

End BatchFacts.

(** ** The index an ELK connector writes to *)

Section IndexFacts.
Import ELK.
Context {Client Env : Type} {ES : Elasticsearch Client Env}.
Implicit Types (s : State Client Env).

Ltac run_monad :=
  unfold try_except, new_client, on_self, with_client, lift_env, send_request,
    streaming_bulk, AttributeError, raise, modify, get, mbind, M_bind, mret, M_ret
    in *; simpl in *.

Lemma connect_frame s :
  (connect s).1 = Ret (connected (self (connect s).2)) ∧
  requests (connect s).2 = requests s ∧
  index_prefix (self (connect s).2) = index_prefix (self s).
Proof.
  unfold connect. run_monad.
  repeat (case_match; simpl in *; simplify_eq; try done).
Qed.

Lemma ensure_connected_frame s :
  (ensure_connected s).1 = Ret tt ∧
  requests (ensure_connected s).2 = requests s ∧
  index_prefix (self (ensure_connected s).2) = index_prefix (self s).
Proof.
  unfold ensure_connected, mbind, M_bind, get, mret, M_ret. simpl.
  destruct (_ || _); [|done].
  destruct (connect_frame s) as (Hret & Hreq & Hprefix).
  destruct (connect s) as [[b|e] s1]; simpl in *; done.
Qed.

Lemma target_index_of_cases prefix now index :
  target_index_of prefix now index
  = match index with
    | Some i => if decide (i = "") then prefix +:+ "-" +:+ strftime_Ymd now else i
    | None => prefix +:+ "-" +:+ strftime_Ymd now
    end.
Proof.
  destruct index as [i|]; [|done]. unfold target_index_of, str_truthy, daily_index.
  destruct (decide (i = "")) as [->|Hne]; [done|].
  by rewrite bool_decide_eq_false_2.
Qed.

(** C6, as the code has it.  Let [now] be the clock reading once the
    connection has been looked after.  [send_event] and [send_batch] write
    to the index given as argument when it is a non-empty string, and to
    the daily index [<index_prefix>-YYYY.MM.DD] of [now] when the argument
    is absent or is the empty string: provided the connector has a
    client, [send_event] issues one index request, for the formatted event
    in that index, and [send_batch] one bulk request whose actions all
    name that index. *)
Theorem elk_target_index s event events index :
  let s1 := (ensure_connected s).2 in
  let now := utcnow (env s1) in
  let target :=
    match index with
    | Some i =>
        if decide (i = "")
        then index_prefix (self s) +:+ "-" +:+ strftime_Ymd now
        else i
    | None => index_prefix (self s) +:+ "-" +:+ strftime_Ymd now
    end in
  requests (send_event event index s).2
  = requests s ++
    match client (self s1) with
    | Some _ => [IndexRequest target (Base.format_dlp_event now event)]
    | None => []
    end ∧
  requests (send_batch events index s).2
  = requests s ++
    match client (self s1) with
    | Some _ =>
        [BulkRequest
           (map (λ ev, VDict [("_index", VStr target);
                              ("_source", Base.format_dlp_event now ev)])
                events)]
    | None => []
    end.
Proof.
  cbv zeta. destruct (ensure_connected_frame s) as (Hret & Hreq & Hprefix).
  unfold send_event, send_batch. run_monad.
  destruct (ensure_connected s) as [o s1]; simpl in *. subst o. simpl.
  rewrite !target_index_of_cases, Hprefix, <- Hreq.
  destruct (client (self s1)) as [cl|]; simpl; [|by rewrite app_nil_r].
  split.
  - destruct (ELK.index cl _ _ (env s1)) as [[r|e] e']; done.
  - destruct (async_streaming_bulk cl _ (env s1)) as [[items [e|]] e']; simpl; [done|].
    by destruct (count_results items).
Qed.

End IndexFacts.

(** ** Concrete runs *)

Section Runs.
Import Base Service Fixtures.

Lemma two_sinks_ok : registry_ok two_sinks.
Proof.
  unfold registry_ok; simpl. split_and!.
  - apply (bool_decide_unpack _). by vm_compute.
  - apply (bool_decide_unpack _). by vm_compute.
  - intros n Hn. exact Hn.
Defined.

(** Scenario S5 of the specification: of two registered sinks, the one
    that raises during [send_event] is reported false, the other true. *)
Lemma send_event_to_all_two_sinks :
  registry_ok two_sinks ∧
  ∃ status_map w',
    send_event_to_all sample_event None two_sinks = (Ret status_map, w') ∧
    dict_keys status_map = ["sink_a"; "sink_b"] ∧
    dict_get "sink_b" status_map = Some false ∧
    calls w' = [("sink_a", MSendEvent); ("sink_b", MSendEvent)].
Proof.
  split; [exact two_sinks_ok|].
  destruct (send_event_to_all_fan_out sample_event None two_sinks two_sinks_ok)
    as (status_map & w' & Hrun & Hkeys & _ & Hentry & Hcalls & _).
  exists status_map, w'. split_and!; [exact Hrun | exact Hkeys | | exact Hcalls].
  apply (Hentry "sink_b" (down "sink_b")); [|reflexivity|reflexivity].
  apply list_elem_of_further, list_elem_of_here.
Defined.

(** C2 at a registry where an active connector's [connect] raises: the
    connector is reported as not connected, and is still active. *)
Theorem connect_all_keeps_raising_connector_active :
  ∃ results w',
    connect_all two_sinks = (Ret results, w') ∧
    is_raise (connect (down "sink_b")).1 = true ∧
    dict_get "sink_b" results = Some false ∧
    active_connectors (self w') = ["sink_a"; "sink_b"] ∧
    list_mem "sink_b" (active_connectors (self w')) = true.
Proof. eexists _, _. split_and!; [by vm_compute | done..]. Qed.

(** [unregister_connector] drops a connected connector without running
    its [disconnect]. *)
Lemma unregister_connector_skips_disconnect :
  ∃ w',
    unregister_connector "sink_a" two_sinks = (Ret true, w') ∧
    connected (up "sink_a") = true ∧
    dict_get "sink_a" (connectors (self w')) = None ∧
    times_called "sink_a" MDisconnect (calls w') = 0%nat.
Proof. eexists. split_and!; [by vm_compute | done..]. Qed.

Lemma unregister_connector_drops_sink_a :
  registry_ok two_sinks ∧
  "sink_a" ∈ dict_keys (connectors (self two_sinks)) ∧
  ∃ w', unregister_connector "sink_a" two_sinks = (Ret true, w') ∧
        dict_get "sink_a" (connectors (self w')) = None ∧
        calls w' = [].
Proof.
  split; [exact two_sinks_ok|]. split; [apply list_elem_of_here|].
  destruct (unregister_connector_drops "sink_a" two_sinks two_sinks_ok)
    as (w' & Hrun & Hgone & _ & Hcalls & _); [apply list_elem_of_here|].
  exists w'. split_and!; [exact Hrun | exact Hgone | exact Hcalls].
Defined.

(** A probe that reports a failure changes nothing in the registry: the
    connector is reported unhealthy and stays active. *)
Lemma health_check_all_keeps_unhealthy_active :
  ∃ health_map w' report,
    health_check_all two_sinks = (Ret health_map, w') ∧
    dict_get "sink_b" health_map = Some report ∧
    dict_get "status" report = Some (VStr "unhealthy") ∧
    list_mem "sink_b" (active_connectors (self w')) = true ∧
    self w' = self two_sinks.
Proof. eexists _, _, _. split_and!; [by vm_compute | done..]. Qed.

Lemma health_check_all_two_sinks :
  registry_ok two_sinks ∧
  ∃ health_map w',
    health_check_all two_sinks = (Ret health_map, w') ∧
    active_connectors (self w') = ["sink_a"; "sink_b"] ∧
    dict_keys health_map = ["sink_a"; "sink_b"].
Proof.
  split; [exact two_sinks_ok|].
  destruct (health_check_all_reports_only two_sinks two_sinks_ok)
    as (health_map & w' & Hrun & _ & Hact & Hkeys & _).
  exists health_map, w'. split_and!; [exact Hrun | exact Hact | exact Hkeys].
Defined.

Lemma register_connector_same_name :
  name (up "sink_a") = name (down "sink_a") ∧
  dict_get "sink_a"
    (connectors (self (register_connector (down "sink_a")
                         (register_connector (up "sink_a") init).2).2))
  = Some (down "sink_a").
Proof.
  split; [reflexivity|].
  exact (proj1 (proj2 (proj2
    (register_connector_last_wins (up "sink_a") (down "sink_a") init eq_refl)))).
Defined.

(** An event whose [actions] list holds [None] and whose metadata holds a
    list with an empty dictionary: both are still there in the envelope. *)
Lemma format_dlp_event_keeps_list_contents :
  envelope pruned_deep
    (format_dlp_event (Datetime 2024 3 7 23 59 58 0) event_with_lists) = false ∧
  format_dlp_event (Datetime 2024 3 7 23 59 58 0) event_with_lists
  = VDict [("timestamp", VStr "2024-03-07T23:59:58");
           ("event_type", VStr "dlp_incident");
           ("source", VStr "cybersentinel_dlp");
           ("severity", VStr "medium");
           ("dlp", VDict [("blocked", VBool false)]);
           ("actions", VList [VNone]);
           ("metadata", VDict [("tags", VList [VDict []])])].
Proof. split; by vm_compute. Qed.

(** An index given as the empty string is not used: the document goes to
    the daily index. *)
Lemma elk_send_event_empty_index :
  ELK.requests (ELK.send_event sample_event (Some "") elk).2
  = [ELK.IndexRequest "dlp-events-2024.03.07"
       (format_dlp_event (Datetime 2024 3 7 23 59 58 0) sample_event)] ∧
  "dlp-events-2024.03.07" ≠ "".
Proof. split; [by vm_compute | done]. Qed.

Lemma cluster_one_result_per_action : one_result_per_action (ES := Cluster).
Proof.
  intros cl actions e e' items Hrun. simpl in Hrun.
  injection Hrun as <- _. apply length_map.
Defined.

Lemma send_batch_counts_two_events :
  one_result_per_action (ES := Cluster) ∧
  (∃ r s', ELK.send_batch [sample_event; sample_event] None elk = (Ret r, s') ∧
           counts_add_up 2 r) ∧
  (∃ r s', Splunk.send_batch [sample_event; sample_event] None splunk = (Ret r, s') ∧
           counts_add_up 2 r).
Proof.
  split; [exact cluster_one_result_per_action|].
  destruct (send_batch_counts (ES := Cluster) (HTTP := Collector)
              [sample_event; sample_event] None cluster_one_result_per_action)
    as [Helk Hsplunk].
  split; [exact (Helk elk) | exact (Hsplunk splunk)].
Defined.

End Runs.

(** ** More on the common envelope *)

Section EnvelopeLookup.
Import Base.

Lemma clean_item_kept cleaned key v :
  clean_item _remove_empty_dicts cleaned (key, v)
  = match kept_value v with
    | Some v' => dict_set key v' cleaned
    | None => cleaned
    end.
Proof.
  destruct v as [| b | z | s | l | d]; try done.
  unfold clean_item, kept_value.
  destruct (remove_empty_dicts_ok (VDict d)) as (n & Hn & Hpruned).
  rewrite Hn. destruct n as [|[k v] n]; [done|]. simpl.
  apply Forall_cons in Hpruned as [Hv _]. simpl in Hv.
  by destruct v.
Qed.

Lemma fold_clean_lookup k (items acc : dict value) :
  NoDup (dict_keys acc ++ dict_keys items) →
  dict_get k (fold_left (clean_item _remove_empty_dicts) items acc)
  = match dict_get k acc with
    | Some v => Some v
    | None => dict_get k items ≫= kept_value
    end.
Proof.
  revert acc. induction items as [|[k0 v0] items IH]; intros acc Hnd;
    cbn [fold_left dict_get].
  - by destruct (dict_get k acc).
  - assert (Hfresh : k0 ∉ dict_keys acc).
    { apply NoDup_app in Hnd as (_ & Hdisj & _). intros Hin.
      apply (Hdisj k0 Hin). apply list_elem_of_here. }
    assert (Hnd' : ∀ v', NoDup (dict_keys (dict_set k0 v' acc) ++ dict_keys items)).
    { intros v'. rewrite dict_set_fresh by done. unfold dict_keys in *.
      rewrite fmap_app. simpl. by rewrite <- app_assoc. }
    assert (Hnd0 : NoDup (dict_keys acc ++ dict_keys items)).
    { apply NoDup_app in Hnd as (Ha & Hdisj & Hi). simpl in Hi.
      apply NoDup_cons in Hi as [_ Hi]. apply NoDup_app. split_and!; [done| |done].
      intros x Hx Hxi. apply (Hdisj x Hx). by apply list_elem_of_further. }
    assert (Hrest : k0 ∉ dict_keys items).
    { apply NoDup_app in Hnd as (_ & _ & Hi). simpl in Hi.
      by apply NoDup_cons in Hi as [? _]. }
    rewrite clean_item_kept. destruct (kept_value v0) as [v'|] eqn:Hkept.
    + rewrite IH by apply Hnd'.
      destruct (decide (k = k0)) as [->|Hne].
      * rewrite dict_get_set_eq, (dict_get_None k0 acc Hfresh). simpl.
        by rewrite Hkept.
      * rewrite dict_get_set_ne by done. by destruct (dict_get k acc).
    + rewrite IH by done.
      destruct (decide (k = k0)) as [->|Hne]; [|done].
      rewrite (dict_get_None k0 acc Hfresh), (dict_get_None k0 items Hrest).
      simpl. by rewrite Hkept.
Qed.

Lemma clean_lookup k (items : dict value) :
  NoDup (dict_keys items) →
  dict_get k (fold_left (clean_item _remove_empty_dicts) items [])
  = dict_get k items ≫= kept_value.
Proof. intros Hnd. by rewrite fold_clean_lookup. Qed.

(** X1.  Looking a key up in the result of [_remove_empty_dicts] on a
    dictionary: a key bound to [None] is gone; a key bound to a dictionary
    is bound to the cleaned dictionary, unless that one is empty, in which
    case the key is gone; every other binding is as it was.  The test
    that a cleaned dictionary has a value other than [None] never
    decides: a cleaned dictionary that is not empty always has one. *)
Theorem remove_empty_dicts_lookup (d : dict value) (k : string) :
  NoDup (dict_keys d) →
  ∃ cleaned,
    _remove_empty_dicts (VDict d) = VDict cleaned ∧
    dict_get k cleaned
    = match dict_get k d with
      | None | Some VNone => None
      | Some (VDict nested) =>
          if truthy (_remove_empty_dicts (VDict nested))
          then Some (_remove_empty_dicts (VDict nested)) else None
      | Some v => Some v
      end.
Proof.
  intros Hnd. eexists. split; [apply remove_empty_dicts_dict|].
  rewrite clean_lookup by done.
  by destruct (dict_get k d) as [[| b | z | s | l | n]|].
Qed.

Lemma fold_settled (d : dict value) :
  fold_right (λ kv rest, settled kv.2 ∧ rest) True d
  ↔ Forall (λ kv, settled kv.2) d.
Proof.
  induction d as [|kv d IH]; simpl.
  - split; [constructor | done].
  - by rewrite IH, Forall_cons.
Qed.

Lemma fold_clean_keys (items acc : dict value) :
  NoDup (dict_keys acc) →
  NoDup (dict_keys (fold_left (clean_item _remove_empty_dicts) items acc)).
Proof.
  revert acc. induction items as [|[k v] items IH]; intros acc Hnd;
    cbn [fold_left]; [done|].
  apply IH. rewrite clean_item_kept.
  destruct (kept_value v); [by apply NoDup_dict_set | done].
Qed.

(** What [_remove_empty_dicts] returns is settled, nested dictionaries
    included. *)
Lemma kept_value_settled v v' :
  (∀ n, v = VDict n →
        ∀ c, _remove_empty_dicts v = VDict c → Forall (λ kv, settled kv.2) c) →
  kept_value v = Some v' → settled v'.
Proof.
  intros Hrec. destruct v as [| b | z | s | l | n]; simpl; try by intros [= <-].
  specialize (Hrec n eq_refl). rewrite remove_empty_dicts_dict in *.
  destruct (fold_left (clean_item _remove_empty_dicts) n []) as [|kv c] eqn:Hc;
    simpl; [done|].
  intros [= <-]. cbn [settled]. split; [done|]. split.
  - change (NoDup (dict_keys (kv :: c))). rewrite <- Hc.
    apply fold_clean_keys. constructor.
  - apply (fold_settled (kv :: c)). by apply Hrec.
Qed.

Lemma remove_empty_dicts_settled v c :
  _remove_empty_dicts v = VDict c → Forall (λ kv, settled kv.2) c.
Proof.
  revert c. induction v as [| b | z | s | l _ | d IH] using value_ind_nested;
    intros c; try done.
  rewrite remove_empty_dicts_dict. intros [= <-].
  assert (Hgen : ∀ acc, Forall (λ kv, settled kv.2) acc →
            Forall (λ kv, settled kv.2)
                   (fold_left (clean_item _remove_empty_dicts) d acc)).
  { induction IH as [|[k v] d Hv _ IHd]; intros acc Hacc; cbn [fold_left]; [done|].
    apply IHd. rewrite clean_item_kept.
    destruct (kept_value v) as [v'|] eqn:Hkept; [|done].
    apply Forall_dict_set; [|done]. simpl.
    eapply kept_value_settled; [|exact Hkept]. intros n _ c. apply Hv. }
  apply Hgen. constructor.
Qed.

(** A settled value is left as it is. *)
Lemma remove_empty_dicts_fixed v : settled v → _remove_empty_dicts v = v.
Proof.
  induction v as [| b | z | s | l _ | d IH] using value_ind_nested; try done.
  intros (Hne & Hnd & Hall). apply fold_settled in Hall.
  rewrite remove_empty_dicts_dict. f_equal.
  assert (Hgen : ∀ acc, NoDup (dict_keys acc ++ dict_keys d) →
            fold_left (clean_item _remove_empty_dicts) d acc = acc ++ d).
  { clear Hne Hnd. induction d as [|[k v] d IHd]; intros acc Hnd; cbn [fold_left].
    - by rewrite app_nil_r.
    - apply Forall_cons in IH as [Hfix IH]. apply Forall_cons in Hall as [Hv Hall].
      simpl in Hfix, Hv.
      assert (Hkept : kept_value v = Some v).
      { destruct v as [| b | z | s | l | n]; try done.
        unfold kept_value. rewrite (Hfix Hv).
        destruct Hv as (Hn & _). by destruct n. }
      assert (Hfresh : k ∉ dict_keys acc).
      { apply NoDup_app in Hnd as (_ & Hdisj & _). intros Hin.
        apply (Hdisj k Hin). apply list_elem_of_here. }
      rewrite clean_item_kept, Hkept, dict_set_fresh by done.
      rewrite (IHd IH Hall).
      + by rewrite <- app_assoc.
      + unfold dict_keys in *. rewrite fmap_app. simpl. by rewrite <- app_assoc. }
  apply (Hgen []). exact Hnd.
Qed.

(** X2.  [_remove_empty_dicts] is idempotent: cleaning what it returned
    changes nothing. *)
Theorem remove_empty_dicts_idempotent v :
  _remove_empty_dicts (_remove_empty_dicts v) = _remove_empty_dicts v.
Proof.
  destruct v as [| b | z | s | l | d]; try done.
  rewrite remove_empty_dicts_dict.
  set (c := fold_left (clean_item _remove_empty_dicts) d []).
  pose proof (remove_empty_dicts_settled (VDict d) c (remove_empty_dicts_dict d)) as Hall.
  rewrite remove_empty_dicts_dict. f_equal.
  assert (Hgen : ∀ (items acc : dict value),
            Forall (λ kv, settled kv.2) items →
            NoDup (dict_keys acc ++ dict_keys items) →
            fold_left (clean_item _remove_empty_dicts) items acc = acc ++ items).
  { induction items as [|[k v] items IHi]; intros acc Hs Hnd; cbn [fold_left].
    - by rewrite app_nil_r.
    - apply Forall_cons in Hs as [Hv Hs]. simpl in Hv.
      assert (Hkept : kept_value v = Some v).
      { destruct v as [| b | z | s | l | n]; try done.
        unfold kept_value. rewrite (remove_empty_dicts_fixed _ Hv).
        destruct Hv as (Hn & _). by destruct n. }
      assert (Hfresh : k ∉ dict_keys acc).
      { apply NoDup_app in Hnd as (_ & Hdisj & _). intros Hin.
        apply (Hdisj k Hin). apply list_elem_of_here. }
      rewrite clean_item_kept, Hkept, dict_set_fresh by done.
      rewrite (IHi _ Hs).
      + by rewrite <- app_assoc.
      + unfold dict_keys in *. rewrite fmap_app. simpl. by rewrite <- app_assoc. }
  apply (Hgen c [] Hall). simpl. apply fold_clean_keys. constructor.
Qed.

(** The envelope, key by key: what [_remove_empty_dicts] keeps of the
    value the literal of [format_dlp_event] has under that key. *)
Lemma format_dlp_event_lookup now event :
  ∃ fields,
    format_dlp_event now event = VDict fields ∧
    NoDup (dict_keys fields) ∧
    (∀ k, is_Some (dict_get k fields) →
          k ∈ ["timestamp"; "event_id"; "event_type"; "source"; "severity"; "agent";
               "dlp"; "user"; "network"; "file"; "actions"; "metadata"]) ∧
    dict_get "timestamp" fields
      = kept_value (get_or "timestamp" (VStr (isoformat now)) event) ∧
    dict_get "event_type" fields = Some (VStr "dlp_incident") ∧
    dict_get "source" fields = Some (VStr "cybersentinel_dlp") ∧
    dict_get "severity" fields = kept_value (get_or "severity" (VStr "medium") event) ∧
    dict_get "actions" fields = kept_value (get_or "actions" (VList []) event) ∧
    dict_get "dlp" fields
      = kept_value (VDict [
          ("classification_type", get_or_none "classification_type" event);
          ("confidence", get_or_none "confidence" event);
          ("blocked", get_or "blocked" (VBool false) event);
          ("policy_id", get_or_none "policy_id" event);
          ("policy_name", get_or_none "policy_name" event);
          ("rule_id", get_or_none "rule_id" event)]).
Proof.
  unfold format_dlp_event. cbv zeta.
  match goal with |- context [_remove_empty_dicts (VDict ?l)] => set (literal := l) end.
  assert (Hnd : NoDup (dict_keys literal)).
  { apply (bool_decide_unpack _). by vm_compute. }
  eexists. split; [apply remove_empty_dicts_dict|].
  split; [apply fold_clean_keys; constructor|].
  split.
  - intros k [v Hv]. rewrite (clean_lookup k literal Hnd) in Hv.
    destruct (dict_get k literal) as [v0|] eqn:Hk; [|done].
    apply dict_get_Some_keys in Hk. exact Hk.
  - rewrite !(clean_lookup _ literal Hnd). done.
Qed.

(** X3.  Whatever the event, the envelope has [event_type] equal to
    [dlp_incident] and [source] equal to [cybersentinel_dlp], its keys are
    distinct, and it has no key besides the twelve of the format. *)
Theorem format_dlp_event_fixed_fields now event :
  ∃ fields,
    format_dlp_event now event = VDict fields ∧
    dict_get "event_type" fields = Some (VStr "dlp_incident") ∧
    dict_get "source" fields = Some (VStr "cybersentinel_dlp") ∧
    NoDup (dict_keys fields) ∧
    (∀ k, is_Some (dict_get k fields) →
          k ∈ ["timestamp"; "event_id"; "event_type"; "source"; "severity"; "agent";
               "dlp"; "user"; "network"; "file"; "actions"; "metadata"]).
Proof.
  destruct (format_dlp_event_lookup now event)
    as (fields & Hf & Hnd & Hkeys & _ & Htype & Hsource & _).
  by exists fields.
Qed.

(** X4.  For an event that has none of the keys [timestamp], [severity],
    [actions] and [blocked], the envelope carries the defaults: the
    current time in ISO format, severity [medium], an empty list of
    actions, and [blocked] false in the [dlp] part. *)
Theorem format_dlp_event_defaults now event :
  dict_get "timestamp" event = None →
  dict_get "severity" event = None →
  dict_get "actions" event = None →
  dict_get "blocked" event = None →
  ∃ fields dlp,
    format_dlp_event now event = VDict fields ∧
    dict_get "timestamp" fields = Some (VStr (isoformat now)) ∧
    dict_get "severity" fields = Some (VStr "medium") ∧
    dict_get "actions" fields = Some (VList []) ∧
    dict_get "dlp" fields = Some (VDict dlp) ∧
    dict_get "blocked" dlp = Some (VBool false).
Proof.
  intros Ht Hs Ha Hb.
  destruct (format_dlp_event_lookup now event)
    as (fields & Hf & _ & _ & Htime & _ & _ & Hsev & Hact & Hdlp).
  unfold get_or in Htime, Hsev, Hact, Hdlp. rewrite ?Ht, ?Hs, ?Ha, ?Hb in *.
  simpl in Htime, Hsev, Hact.
  set (items := [("classification_type", get_or_none "classification_type" event);
                 ("confidence", get_or_none "confidence" event);
                 ("blocked", default (VBool false) None);
                 ("policy_id", get_or_none "policy_id" event);
                 ("policy_name", get_or_none "policy_name" event);
                 ("rule_id", get_or_none "rule_id" event)]) in Hdlp.
  assert (Hblocked : dict_get "blocked"
            (fold_left (clean_item _remove_empty_dicts) items [])
          = Some (VBool false)).
  { rewrite clean_lookup; [done|]. apply (bool_decide_unpack _). by vm_compute. }
  exists fields, (fold_left (clean_item _remove_empty_dicts) items []).
  split_and!; try done.
  rewrite Hdlp. unfold kept_value. rewrite remove_empty_dicts_dict.
  by destruct (fold_left (clean_item _remove_empty_dicts) items []).
Qed.


End EnvelopeLookup.

(** ** More on the registry *)

Section RegistryMore.
Import Base Service.
Context {C : Type} `{!SIEMConnector C}.
Implicit Types (w : World C) (c : C).

(** X6.  In every state the service reaches from the fresh one by its
    methods, the registered names are distinct, [active_connectors] has no
    duplicate, and every active name is registered. *)
Theorem service_invariant w :
  reachable w →
  NoDup (dict_keys (connectors (self w))) ∧
  NoDup (active_connectors (self w)) ∧
  (∀ n, n ∈ active_connectors (self w) → n ∈ dict_keys (connectors (self w))).
Proof. apply reachable_registry_ok. Qed.

(** X7.  [connect_all] returns normally and leaves the registered names as
    they were; its result has, for every registered connector, the value
    its [connect] returned, and false if it raised. *)
Theorem connect_all_results w :
  registry_ok w →
  ∃ results w',
    connect_all w = (Ret results, w') ∧
    dict_keys (connectors (self w')) = dict_keys (connectors (self w)) ∧
    (∀ n c, dict_get n (connectors (self w)) = Some c →
            dict_get n results = Some (sent_ok (connect c).1)).
Proof.
  intros Hok.
  destruct (connect_all_spec w Hok) as (results & w' & Hrun & _ & Hk & Hspec).
  exists results, w'. split_and!; [done | done |].
  intros n c Hc. by destruct (Hspec n c Hc).
Qed.

(** X8.  When no [connect] raises, the connectors active after
    [connect_all] are exactly those it reports as connected. *)
Theorem connect_all_activates_connected w :
  registry_ok w →
  (∀ n c, dict_get n (connectors (self w)) = Some c → is_raise (connect c).1 = false) →
  ∃ results w',
    connect_all w = (Ret results, w') ∧
    (∀ n, n ∈ active_connectors (self w') ↔ dict_get n results = Some true).
Proof. apply connect_all_active_iff_success. Qed.

(** What both fan-out methods do: the coroutine of each active connector
    runs once, on the state the connector had, and the dictionary built
    from the settled results has one entry for each active name. *)
Lemma fan_out_spec {A V} meth (m : M C A) (conv : outcome A → V)
    (step : dict V → string * outcome A → dict V) w :
  (∀ acc n r, step acc (n, r) = dict_set n (conv r) acc) →
  registry_ok w →
  ∃ rs w',
    gather (map (λ '(n, c), on_connector n meth c m) (scheduled w)) w = (Ret rs, w') ∧
    fold_left step (zip (map fst (scheduled w)) rs) []
    = map (λ p, (p.1, conv (m p.2).1)) (scheduled w) ∧
    (scheduled w).*1 = active_connectors (self w) ∧
    active_connectors (self w') = active_connectors (self w) ∧
    dict_keys (connectors (self w')) = dict_keys (connectors (self w)) ∧
    calls w' = calls w ++ map (λ n, (n, meth)) (active_connectors (self w)).
Proof.
  intros Hstep (Hkeys & Hact & Hsub).
  pose proof (scheduled_names w Hsub) as Hnames.
  destruct (gather_results meth m (scheduled w) w) as [w' Hrun];
    [by rewrite Hnames | apply scheduled_lookup |].
  destruct (gather_frame meth m (scheduled w) w (scheduled_registered w))
    as (rs & w'' & Hrun' & _ & Ha & Hk & Hcalls).
  rewrite Hrun in Hrun'. injection Hrun' as <- <-.
  eexists _, w'. split_and!; try done.
  - rewrite (zip_names_results (λ p, (m p.2).1)).
    rewrite (fold_left_dict_set step conv Hstep).
    + simpl. by rewrite map_map.
    + simpl. rewrite <- list_fmap_compose.
      change (NoDup ((scheduled w).*1)). by rewrite Hnames.
  - by rewrite Hcalls, map_names, Hnames.
Qed.

(** The entry [send_batch_to_all] records for a settled [send_batch]. *)
Lemma batch_entry_step (acc : dict (dict value)) n (r : outcome (dict value)) :
  match r with
  | Raise e => dict_set n [("success", VBool false); ("error", VStr (str e))] acc
  | Ret x => dict_set n x acc
  end
  = dict_set n (match r with
                | Ret x => x
                | Raise e => [("success", VBool false); ("error", VStr (str e))]
                end) acc.
Proof. by destruct r. Qed.

(** X9.  In a registry that satisfies its invariant, [send_batch_to_all]
    returns normally, changes neither the registered names nor the active
    list, and runs [send_batch] once for each active connector; the map it
    returns has exactly the active names as keys, the entry of a
    connector being what its [send_batch] returned, or [success] false
    with the text of the exception if it raised. *)
Theorem send_batch_to_all_fan_out events index w :
  registry_ok w →
  ∃ results_map w',
    send_batch_to_all events index w = (Ret results_map, w') ∧
    dict_keys results_map = active_connectors (self w) ∧
    (∀ n c, n ∈ active_connectors (self w) →
            dict_get n (connectors (self w)) = Some c →
            dict_get n results_map
            = Some match (send_batch events index c).1 with
                   | Ret r => r
                   | Raise e => [("success", VBool false); ("error", VStr (str e))]
                   end) ∧
    active_connectors (self w') = active_connectors (self w) ∧
    dict_keys (connectors (self w')) = dict_keys (connectors (self w)) ∧
    calls w' = calls w ++ map (λ n, (n, MSendBatch)) (active_connectors (self w)).
Proof.
  intros Hok.
  set (conv := λ r : outcome (dict value),
                 match r with
                 | Ret x => x
                 | Raise e => [("success", VBool false); ("error", VStr (str e))]
                 end).
  destruct (fan_out_spec MSendBatch (send_batch events index) conv
              (λ results_map '(name, result),
                 match result with
                 | Raise e => dict_set name [("success", VBool false);
                                             ("error", VStr (str e))] results_map
                 | Ret r => dict_set name r results_map
                 end) w)
    as (rs & w' & Hrun & Hmap & Hnames & Ha & Hk & Hcalls); [|done|].
  { intros acc n r. apply batch_entry_step. }
  eexists _, w'. split.
  { unfold send_batch_to_all, mbind, M_bind, get at 1. simpl.
    unfold mbind, M_bind in Hrun. rewrite Hrun. unfold mret, M_ret.
    by rewrite Hmap. }
  split_and!; try done.
  - unfold dict_keys. rewrite <- list_fmap_compose. exact Hnames.
  - intros n c Hin Hc. destruct Hok as (_ & Hact & _).
    pose proof (dict_get_map_values (λ p, conv (send_batch events index p.2).1)
                  (scheduled w) n c) as Hget.
    simpl in Hget. rewrite Hget; [done | by rewrite Hnames | by apply elem_of_scheduled].
Qed.

Lemma disconnect_one_active name c0 c results w n :
  dict_get name (connectors (self w)) = Some c →
  NoDup (active_connectors (self w)) →
  let w' := (disconnect_one name c0 results w).2 in
  (disconnect_one name c0 results w).1
  = Ret (dict_set name (sent_ok (disconnect c).1) results) ∧
  NoDup (active_connectors (self w')) ∧
  dict_keys (connectors (self w')) = dict_keys (connectors (self w)) ∧
  (n ≠ name →
   (n ∈ active_connectors (self w') ↔ n ∈ active_connectors (self w)) ∧
   dict_get n (connectors (self w')) = dict_get n (connectors (self w))) ∧
  (name ∈ active_connectors (self w') ↔
     name ∈ active_connectors (self w) ∧ is_raise (disconnect c).1 = true).
Proof.
  intros Hc Hnd. rewrite (disconnect_one_run name c0 c results w Hc).
  assert (Hk : dict_keys (dict_set name (disconnect c).2 (connectors (self w)))
               = dict_keys (connectors (self w))).
  { apply dict_keys_set_mem. by eapply dict_get_Some_keys. }
  assert (Hg : n ≠ name →
               dict_get n (dict_set name (disconnect c).2 (connectors (self w)))
               = dict_get n (connectors (self w))).
  { intros Hne. by apply dict_get_set_ne. }
  destruct (disconnect c) as [[b|e] c']; simpl in *.
  - destruct (list_mem name (active_connectors (self w))) eqn:Hin; simpl.
    + split_and!; [done | by apply NoDup_list_remove | done | |].
      * intros Hne. split; [|by apply Hg].
        rewrite (elem_of_list_remove name n _ Hnd). tauto.
      * rewrite (elem_of_list_remove name name _ Hnd).
        split; [tauto | by intros [_ ?]].
    + apply list_mem_false in Hin. split_and!; [done | done | done | |].
      * intros Hne. split; [done | by apply Hg].
      * split; [done | by intros [_ ?]].
  - split_and!; [done | done | done | |].
    + intros Hne. split; [done | by apply Hg].
    + tauto.
Qed.

Lemma disconnect_all_loop_spec (items : dict C) results w :
  NoDup items.*1 →
  Forall (λ p, dict_get p.1 (connectors (self w)) = Some p.2) items →
  NoDup (active_connectors (self w)) →
  ∃ results' w',
    disconnect_all_loop items results w = (Ret results', w') ∧
    dict_keys (connectors (self w')) = dict_keys (connectors (self w)) ∧
    NoDup (active_connectors (self w')) ∧
    (∀ n, n ∉ items.*1 →
          (n ∈ active_connectors (self w') ↔ n ∈ active_connectors (self w)) ∧
          dict_get n results' = dict_get n results) ∧
    (∀ n c, (n, c) ∈ items →
            dict_get n results' = Some (sent_ok (disconnect c).1) ∧
            (n ∈ active_connectors (self w') ↔
               n ∈ active_connectors (self w) ∧ is_raise (disconnect c).1 = true)).
Proof.
  revert results w. induction items as [|[name c] items IH]; intros results w Hnd Hall Hact.
  - exists results, w. split_and!; try done.
    intros n c Hin. by apply elem_of_nil in Hin.
  - apply Forall_cons in Hall as [Hc Hall]. simpl in Hc, Hnd.
    apply NoDup_cons in Hnd as [Hfresh Hnd].
    assert (Hstep : ∀ n,
      (disconnect_one name c results w).1
      = Ret (dict_set name (sent_ok (disconnect c).1) results) ∧
      NoDup (active_connectors (self (disconnect_one name c results w).2)) ∧
      dict_keys (connectors (self (disconnect_one name c results w).2))
      = dict_keys (connectors (self w)) ∧
      (n ≠ name →
       (n ∈ active_connectors (self (disconnect_one name c results w).2)
        ↔ n ∈ active_connectors (self w)) ∧
       dict_get n (connectors (self (disconnect_one name c results w).2))
       = dict_get n (connectors (self w))) ∧
      (name ∈ active_connectors (self (disconnect_one name c results w).2) ↔
         name ∈ active_connectors (self w) ∧ is_raise (disconnect c).1 = true)).
    { intros n. exact (disconnect_one_active name c c results w n Hc Hact). }
    destruct (disconnect_one name c results w) as [o w1] eqn:Hrun. simpl in Hstep.
    destruct (Hstep name) as (Ho & Hact1 & Hkeys1 & _ & Hname).
    assert (Hne : ∀ n c', (n, c') ∈ items → n ≠ name).
    { intros n c' Hin ->. apply Hfresh. apply list_elem_of_fmap. by exists (name, c'). }
    destruct (IH (dict_set name (sent_ok (disconnect c).1) results) w1 Hnd)
      as (results' & w' & Hloop & Hkeys & Hact' & Hout & Hin); [|done|].
    { apply Forall_forall. intros [n c'] Hp. simpl.
      destruct (Hstep n) as (_ & _ & _ & Hother & _).
      destruct (Hother (Hne n c' Hp)) as [_ ->].
      rewrite Forall_forall in Hall. apply (Hall _ Hp). }
    exists results', w'. split_and!.
    + simpl. unfold mbind, M_bind. rewrite Hrun, Ho. exact Hloop.
    + by rewrite Hkeys.
    + done.
    + intros n Hn. simpl in Hn. apply not_elem_of_cons in Hn as [Hn1 Hn2].
      destruct (Hout n Hn2) as [Ha Hr]. destruct (Hstep n) as (_ & _ & _ & Hother & _).
      destruct (Hother Hn1) as [Ha1 _]. split; [by rewrite Ha|].
      rewrite Hr. by apply dict_get_set_ne.
    + intros n c' Hp. apply elem_of_cons in Hp as [Heq|Hp].
      * injection Heq as -> ->. destruct (Hout name Hfresh) as [Ha Hr].
        split; [by rewrite Hr, dict_get_set_eq | by rewrite Ha].
      * destruct (Hin n c' Hp) as [Hr Ha]. split; [done|].
        destruct (Hstep n) as (_ & _ & _ & Hother & _).
        destruct (Hother (Hne n c' Hp)) as [Ha1 _]. by rewrite Ha, Ha1.
Qed.

(** X10.  [disconnect_all] returns normally and leaves the registered names
    as they were; its result has, for every registered connector, the
    value its [disconnect] returned, and false if it raised; a connector
    is active afterwards exactly when it was active and its [disconnect]
    raised: one whose [disconnect] returned false is deactivated all the
    same. *)
Theorem disconnect_all_deactivates w :
  registry_ok w →
  ∃ results w',
    disconnect_all w = (Ret results, w') ∧
    dict_keys (connectors (self w')) = dict_keys (connectors (self w)) ∧
    (∀ n c, dict_get n (connectors (self w)) = Some c →
            dict_get n results = Some (sent_ok (disconnect c).1) ∧
            (n ∈ active_connectors (self w') ↔
               n ∈ active_connectors (self w) ∧ is_raise (disconnect c).1 = true)).
Proof.
  intros (Hkeys & Hact & Hsub).
  destruct (disconnect_all_loop_spec (connectors (self w)) [] w Hkeys)
    as (results & w' & Hrun & Hk & Hact' & Hout & Hin); [|done|].
  { apply Forall_forall. intros [n c] Hp. by apply elem_of_dict_get. }
  exists results, w'. split_and!; try done.
  intros n c Hc. apply Hin. by apply dict_get_elem_of.
Qed.

(** X11.  After [register_connector], [get_connector] on the connector's
    name returns that connector and on any other name what it returned
    before; registration changes neither the active list nor the states
    of the connectors. *)
Theorem register_then_get c w :
  ∃ w1,
    register_connector c w = (Ret true, w1) ∧
    get_connector (name c) w1 = (Ret (Some c), w1) ∧
    (∀ n, n ≠ name c → (get_connector n w1).1 = (get_connector n w).1) ∧
    active_connectors (self w1) = active_connectors (self w) ∧
    calls w1 = calls w.
Proof.
  eexists. split; [apply register_connector_run|].
  unfold get_connector, mbind, M_bind, get, mret, M_ret. simpl.
  split_and!; try done.
  - by rewrite dict_get_set_eq.
  - intros n Hne. by rewrite dict_get_set_ne.
Qed.

End RegistryMore.

(** ** The ELK connector: connecting, disconnecting, sending, querying *)

Section ELKFacts.
Import ELK ELKMore.
Context {Client Env : Type} {ES : Elasticsearch Client Env}
        {ESM : ElasticsearchMore Client Env}.
Implicit Types (s : State Client Env).

Ltac run_elk :=
  unfold try_except, new_client, on_self, with_client, lift_env, send_request,
    streaming_bulk, AttributeError, TypeError, KeyError, raise, modify, get,
    mbind, M_bind, mret, M_ret in *; simpl in *.

(** X12.  [connect] of the ELK connector never raises; what it returns is
    the value of [connected] it leaves; when it returns true the connector
    has a client; and it sends no document to the cluster. *)
Theorem elk_connect_outcome s :
  ∃ b s',
    connect s = (Ret b, s') ∧
    connected (self s') = b ∧
    (b = true → is_Some (client (self s'))) ∧
    requests s' = requests s ∧
    index_prefix (self s') = index_prefix (self s).
Proof.
  unfold connect. run_elk.
  repeat (case_match; simpl in *; simplify_eq);
    eexists _, _; (split; [reflexivity|]); simpl; split_and!; eauto; done.
Qed.

Lemma elk_disconnect_spec s :
  ∃ b s',
    disconnect s = (Ret b, s') ∧
    client (self s') = client (self s) ∧
    requests s' = requests s ∧
    match client (self s) with
    | None => b = true ∧ s' = s
    | Some cl =>
        match (close cl (env s)).1 with
        | Ret _ => b = true ∧ connected (self s') = false
        | Raise _ => b = false ∧ connected (self s') = connected (self s)
        end
    end.
Proof.
  unfold disconnect. run_elk.
  destruct (client (self s)) as [cl|] eqn:Hcl; simpl.
  - destruct (close cl (env s)) as [[[]|e] e'] eqn:Hclose; simpl;
      eexists _, _; (split; [reflexivity|]); simpl; by rewrite ?Hcl.
  - eexists _, _. split; [reflexivity|]. by rewrite Hcl.
Qed.

(** X13.  [disconnect] of the ELK connector never raises and keeps the
    client object.  Without a client it returns true and does nothing;
    with one it closes it: if that succeeds it returns true and
    [connected] is false, if it raises it returns false and [connected]
    is as it was. *)
Theorem elk_disconnect_outcome s :
  ∃ b s',
    disconnect s = (Ret b, s') ∧
    client (self s') = client (self s) ∧
    requests s' = requests s ∧
    match client (self s) with
    | None => b = true ∧ s' = s
    | Some cl =>
        match (close cl (env s)).1 with
        | Ret _ => b = true ∧ connected (self s') = false
        | Raise _ => b = false ∧ connected (self s') = connected (self s)
        end
    end.
Proof. apply elk_disconnect_spec. Qed.

(** The answer of the cluster that makes [send_event] return true. *)
Lemma elk_send_event_run event index s :
  let s1 := (ensure_connected s).2 in
  let target := target_index_of (index_prefix (self s1)) (utcnow (env s1)) index in
  let document := Base.format_dlp_event (utcnow (env s1)) event in
  (send_event event index s).1
  = Ret match client (self s1) with
        | Some cl =>
            match (ELK.index cl target document (env s1)).1 with
            | Ret result =>
                match get_or_none "result" result with
                | VStr r => bool_decide (r = "created") || bool_decide (r = "updated")
                | _ => false
                end
            | Raise _ => false
            end
        | None => false
        end.
Proof.
  cbv zeta. destruct (ensure_connected_frame s) as (Hret & _ & _).
  unfold send_event. run_elk.
  destruct (ensure_connected s) as [o s1]; simpl in *. subst o. simpl.
  destruct (client (self s1)) as [cl|]; simpl; [|done].
  by destruct (ELK.index cl _ _ (env s1)) as [[r|e] e'].
Qed.

(** X14.  [send_event] of the ELK connector never raises, and returns true
    exactly when the connector has a client once the connection has been
    looked after and the cluster answers the index request with a result
    equal to [created] or [updated]. *)
Theorem elk_send_event_acknowledged event index s :
  ∃ b s',
    send_event event index s = (Ret b, s') ∧
    (b = true ↔
     ∃ cl result e',
       client (self (ensure_connected s).2) = Some cl ∧
       ELK.index cl
         (target_index_of (index_prefix (self (ensure_connected s).2))
            (utcnow (env (ensure_connected s).2)) index)
         (Base.format_dlp_event (utcnow (env (ensure_connected s).2)) event)
         (env (ensure_connected s).2) = (Ret result, e') ∧
       (dict_get "result" result = Some (VStr "created") ∨
        dict_get "result" result = Some (VStr "updated"))).
Proof.
  pose proof (elk_send_event_run event index s) as Hrun. cbv zeta in Hrun.
  destruct (send_event event index s) as [o s'] eqn:Hsend. simpl in Hrun. subst o.
  eexists _, s'. split; [reflexivity|].
  destruct (client (self (ensure_connected s).2)) as [cl|] eqn:Hcl.
  - destruct (ELK.index cl _ _ _) as [[result|e] e'] eqn:Hindex; simpl.
    + assert (Hiff :
        (∃ cl0 result0 e'0,
           Some cl = Some cl0 ∧
           ELK.index cl0
             (target_index_of (index_prefix (self (ensure_connected s).2))
                (utcnow (env (ensure_connected s).2)) index)
             (Base.format_dlp_event (utcnow (env (ensure_connected s).2)) event)
             (env (ensure_connected s).2) = (Ret result0, e'0) ∧
           (dict_get "result" result0 = Some (VStr "created") ∨
            dict_get "result" result0 = Some (VStr "updated")))
        ↔ (dict_get "result" result = Some (VStr "created") ∨
           dict_get "result" result = Some (VStr "updated"))).
      { split.
        - intros (cl0 & result0 & e'0 & Hc0 & Hi0 & Hres). injection Hc0 as <-.
          rewrite Hindex in Hi0. by injection Hi0 as <- <-.
        - intros Hres. by exists cl, result, e'. }
      rewrite Hiff. unfold get_or_none.
      destruct (dict_get "result" result) as [[| b | z | r | l | d]|]; simpl;
        try (split; [done | by intros [?|?]]).
      rewrite orb_true_iff, !bool_decide_eq_true. split.
      * intros [->| ->]; auto.
      * intros [[= ->]|[= ->]]; auto.
    + split; [done|]. intros (cl0 & result0 & e'0 & Hc0 & Hi0 & _).
      injection Hc0 as <-. by rewrite Hindex in Hi0.
  - split; [done | by intros (? & ? & ? & ? & _)].
Qed.

(** [sources_of] gives the [_source] of every hit, in order, or raises. *)
Lemma sources_of_all_or_nothing hits s events s' :
  sources_of hits s = (Ret events, s') →
  s' = s ∧
  Forall2 (λ hit event, ∃ h, hit = VDict h ∧ dict_get "_source" h = Some event)
          hits events.
Proof.
  revert events. induction hits as [|hit hits IH]; intros events; simpl.
  - intros [= <- <-]. split; [done | constructor].
  - unfold mbind, M_bind. unfold source_of at 1.
    destruct hit as [| b | z | x | l | h]; try done.
    destruct (dict_get "_source" h) as [v|] eqn:Hv; [|done]. simpl.
    destruct (sources_of hits s) as [[vs|e] s1] eqn:Hrest; [|done].
    intros [= <- <-]. destruct (IH vs eq_refl) as [-> Hall].
    split; [done|]. constructor; [by exists h | done].
Qed.

(** X15.  [query_events] of the ELK connector never raises, and what it
    returns is all or nothing: either the empty list, or the [_source] of
    every hit of the answer, in the order of the hits.  One hit without
    [_source] empties the result. *)
Theorem elk_query_events_all_or_nothing query start_time end_time limit s :
  ∃ events s',
    query_events query start_time end_time limit s = (Ret events, s') ∧
    (events = [] ∨
     ∃ cl body e2 result h hits,
       client (self (ensure_connected s).2) = Some cl ∧
       (search_body query start_time end_time limit (ensure_connected s).2).1
       = Ret body ∧
       search cl (index_prefix (self s) +:+ "-*") body (env (ensure_connected s).2)
       = (Ret result, e2) ∧
       dict_get "hits" result = Some (VDict h) ∧
       dict_get "hits" h = Some (VList hits) ∧
       Forall2 (λ hit event,
                  ∃ fields, hit = VDict fields ∧ dict_get "_source" fields = Some event)
               hits events).
Proof.
  destruct (ensure_connected_frame s) as (Hret & _ & Hprefix).
  unfold query_events, try_except.
  match goal with |- context [match ?b s with _ => _ end] => destruct (b s) as [[events|e] s'] eqn:Hrun end.
  - exists events, s'. split; [done|].
    destruct events as [|ev events]; [by left|]. right.
    inv_bind Hrun as u s1 Hconn.
    assert (s1 = (ensure_connected s).2) as Hs1 by (by rewrite Hconn).
    inv_bind Hrun as body s2 Hbody.
    assert (s2 = s1) as ->.
    { unfold search_body in Hbody. destruct query; try done; by injection Hbody. }
    inv_bind Hrun as s1' s1'' Hget. injection Hget as <- <-.
    inv_bind Hrun as result s3 Hsearch.
    unfold with_client in Hsearch.
    inv_bind Hsearch as s1' s1'' Hget. injection Hget as <- <-.
    destruct (client (self s1)) as [cl|] eqn:Hcl; [|done].
    unfold lift_env in Hsearch.
    destruct (search cl _ body (env s1)) as [o e2] eqn:Hs. injection Hsearch as -> <-.
    inv_bind Hrun as hits s4 Hhits.
    unfold get_or in Hhits.
    destruct (dict_get "hits" result) as [[| b | z | x | l | h]|] eqn:Hh; simpl in Hhits;
      try done.
    + injection Hhits as <- <-.
      destruct (dict_get "hits" h) as [[| b | z | x | l | d]|] eqn:Hhh; simpl in Hrun;
        try done.
      * by destruct x.
      * apply sources_of_all_or_nothing in Hrun as [_ Hall].
        exists cl, body, e2, result, h, l.
        rewrite <- Hprefix, <- !Hs1, Hbody, Hcl. done.
      * by destruct d.
    + injection Hhits as <- <-. done.
  - by exists [], s'; split; [|left].
Qed.

End ELKFacts.

(** ** The Splunk connector: connecting, disconnecting, sending, querying *)

Section SplunkFacts.
Import Splunk SplunkMore.
Context {Session Env : Type} {HTTP : Aiohttp Session Env}
        {HTTPM : AiohttpMore Session Env}.
Implicit Types (s : State Session Env).

Ltac run_splunk :=
  unfold try_except, client_session, on_self, session_post, session_get, lift_env,
    await, AttributeError, TypeError, IndexError, raise, modify, get,
    mbind, M_bind, mret, M_ret in *; simpl in *.

Lemma splunk_connect_spec s :
  ∃ b s',
    connect s = (Ret b, s') ∧
    connected (self s') = b ∧
    (b = true → is_Some (session (self s'))) ∧
    (str_truthy (username (self s)) && str_truthy (password (self s)) = false →
     posted s' = posted s ∧ session_key (self s') = session_key (self s)) ∧
    (∀ x response e',
       new_session (ssl_of (self s)) (env s) = Ret x →
       str_truthy (username (self s)) && str_truthy (password (self s)) = true →
       post x {| url := urljoin (api_url (self s)) "/auth/login";
                 headers := [];
                 content := Form [("username", username (self s));
                                  ("password", password (self s));
                                  ("output_mode", Some "json")];
                 ssl := ssl_of (self s) |} (env s) = (Ret response, e') →
       (status response =? 200) = false →
       b = true ∧ session_key (self s') = session_key (self s)).
Proof.
  unfold connect. run_splunk.
  destruct (new_session (ssl_of (self s)) (env s)) as [x|e] eqn:Hnew; simpl.
  - destruct (str_truthy (username (self s)) && str_truthy (password (self s)))
      eqn:Hcred; simpl.
    + change (ssl_of (set_session x (self s))) with (ssl_of (self s)).
      destruct (post x _ (env s)) as [[response|e] e'] eqn:Hpost; simpl.
      * destruct (status response =? 200) eqn:Hstatus; simpl.
        -- destruct (json response) as [[| b | z | t | l | d]|e]; simpl;
             eexists _, _; (split; [reflexivity|]); simpl;
             (split_and!; [done | by eauto | done |]);
             intros x0 r0 e0 [= <-] _ Hp Hs; rewrite Hpost in Hp;
             injection Hp as <- <-; congruence.
        -- eexists _, _. split; [reflexivity|]. simpl.
           split_and!; [done | by eauto | done |].
           intros x0 r0 e0 [= <-] _ Hp Hs. done.
      * eexists _, _. split; [reflexivity|]. simpl.
        split_and!; [done | done | done |].
        intros x0 r0 e0 [= <-] _ Hp Hs. by rewrite Hpost in Hp.
    + eexists _, _. split; [reflexivity|]. simpl.
      split_and!; [done | by eauto | done | done].
  - eexists _, _. split; [reflexivity|]. simpl.
    split_and!; [done | done | | done].
    destruct (_ && _); done.
Qed.

(** X16.  [connect] of the Splunk connector never raises; what it returns
    is the value of [connected] it leaves, and when it returns true the
    connector has a session.  Without both a username and a password it
    posts nothing and leaves the session key as it was.  With them, a
    login that is answered by a status other than 200 does not make
    [connect] fail: it returns true, without a new session key. *)
Theorem splunk_connect_outcome s :
  ∃ b s',
    connect s = (Ret b, s') ∧
    connected (self s') = b ∧
    (b = true → is_Some (session (self s'))) ∧
    (str_truthy (username (self s)) && str_truthy (password (self s)) = false →
     posted s' = posted s ∧ session_key (self s') = session_key (self s)) ∧
    (∀ x response e',
       new_session (ssl_of (self s)) (env s) = Ret x →
       str_truthy (username (self s)) && str_truthy (password (self s)) = true →
       post x {| url := urljoin (api_url (self s)) "/auth/login";
                 headers := [];
                 content := Form [("username", username (self s));
                                  ("password", password (self s));
                                  ("output_mode", Some "json")];
                 ssl := ssl_of (self s) |} (env s) = (Ret response, e') →
       (status response =? 200) = false →
       b = true ∧ session_key (self s') = session_key (self s)).
Proof. apply splunk_connect_spec. Qed.

(** What [connect] never touches. *)
Lemma splunk_connect_keeps s :
  let c := self s in
  let c' := self (connect s).2 in
  username c' = username c ∧ password c' = password c ∧
  hec_url c' = hec_url c ∧ api_url c' = api_url c ∧
  hec_token c' = hec_token c ∧ use_ssl c' = use_ssl c ∧
  verify_certs c' = verify_certs c.
Proof.
  unfold connect. run_splunk.
  repeat (case_match; simpl in *; simplify_eq); done.
Qed.

Lemma splunk_ensure_connected_spec s :
  ∃ s',
    ensure_connected s = (Ret tt, s') ∧
    (is_Some (session (self s)) → connected (self s) = true → s' = s) ∧
    (str_truthy (username (self s)) && str_truthy (password (self s)) = false →
     posted s' = posted s ∧ session_key (self s') = session_key (self s)).
Proof.
  unfold ensure_connected, mbind, M_bind, get, mret, M_ret. simpl.
  destruct (session (self s)) as [x|] eqn:Hx; simpl.
  - destruct (connected (self s)) eqn:Hconn; simpl.
    + by exists s.
    + destruct (splunk_connect_spec s) as (b & s' & -> & _ & _ & Hkeep & _).
      exists s'. split_and!; [done | done | done].
  - destruct (splunk_connect_spec s) as (b & s' & -> & _ & _ & Hkeep & _).
    exists s'. split_and!; [done | by intros [? ?] | done].
Qed.

Lemma splunk_disconnect_spec s :
  ∃ b s',
    disconnect s = (Ret b, s') ∧
    posted s' = posted s ∧
    match session (self s) with
    | None => b = true ∧ s' = s
    | Some x =>
        match (close x (env s)).1 with
        | Ret _ =>
            b = true ∧ session (self s') = None ∧
            session_key (self s') = VNone ∧ connected (self s') = false
        | Raise _ =>
            b = false ∧ self s' = self s
        end
    end.
Proof.
  unfold disconnect. run_splunk.
  destruct (session (self s)) as [x|] eqn:Hx; simpl.
  - destruct (close x (env s)) as [[[]|e] e'] eqn:Hclose; simpl;
      eexists _, _; (split; [reflexivity|]); simpl; rewrite ?Hx, ?Hclose; done.
  - eexists _, _. split; [reflexivity|]. rewrite ?Hx. done.
Qed.

(** X17.  [disconnect] of the Splunk connector never raises.  Without a
    session it returns true and does nothing; with one it closes it: if
    that succeeds it returns true and the connector has no session, no
    session key, and is not connected; if it raises it returns false and
    the connector keeps its session and its [connected] flag. *)
Theorem splunk_disconnect_outcome s :
  ∃ b s',
    disconnect s = (Ret b, s') ∧
    posted s' = posted s ∧
    match session (self s) with
    | None => b = true ∧ s' = s
    | Some x =>
        match (close x (env s)).1 with
        | Ret _ =>
            b = true ∧ session (self s') = None ∧
            session_key (self s') = VNone ∧ connected (self s') = false
        | Raise _ =>
            b = false ∧ self s' = self s
        end
    end.
Proof. apply splunk_disconnect_spec. Qed.

(** Building a payload reads the connector and the clock, nothing else. *)
Lemma hec_payload_state event index s : (hec_payload event index s).2 = s.
Proof.
  unfold hec_payload, mbind, M_bind, get. cbv beta iota zeta.
  destruct (Base.format_dlp_event _ event) as [| b | z | x | l | formatted];
    try reflexivity.
  unfold await. destruct (epoch_seconds _) as [time|e]; [|reflexivity].
  cbv beta iota.
  destruct (get_or "agent" (VDict []) formatted) as [| b | z | x | l | agent];
    reflexivity.
Qed.

Lemma batch_payloads_spec events index acc s :
  (batch_payloads events index acc s).2 = s ∧
  match (batch_payloads events index acc s).1 with
  | Ret payloads =>
      length payloads = (length acc + length events)%nat ∧
      Forall (λ ev, is_raise (hec_payload ev index s).1 = false) events
  | Raise e => Exists (λ ev, is_raise (hec_payload ev index s).1 = true) events
  end.
Proof.
  revert acc. induction events as [|ev events IH]; intros acc; simpl.
  - split; [done|]. split; [lia | constructor].
  - unfold mbind, M_bind. pose proof (hec_payload_state ev index s) as Hst.
    destruct (hec_payload ev index s) as [[payload|e] s1] eqn:Hp; simpl in *; subst s1.
    + destruct (IH (acc ++ [json_dumps payload])) as [Hs Hr]. split; [done|].
      destruct (batch_payloads events index _ s).1 as [payloads|e].
      * destruct Hr as [Hlen Hall]. rewrite length_app in Hlen. simpl in Hlen.
        split; [lia|]. constructor; [by rewrite Hp | done].
      * by apply Exists_cons_tl.
    + split; [done|]. apply Exists_cons_hd. by rewrite Hp.
Qed.

(** X18.  With a session and [connected] true, a batch in which the
    payload of one event cannot be built (its timestamp cannot be
    converted, say) is not sent at all: [send_batch] posts nothing, leaves
    the connector and the world as they were, and reports every event of
    the batch as failed. *)
Theorem splunk_send_batch_all_or_nothing events index s :
  is_Some (session (self s)) →
  connected (self s) = true →
  Exists (λ ev, is_raise (hec_payload ev index s).1 = true) events →
  ∃ r,
    send_batch events index s = (Ret r, s) ∧
    dict_get "success" r = Some (VBool false) ∧
    dict_get "indexed" r = Some (VInt 0) ∧
    dict_get "failed" r = Some (VInt (Z.of_nat (length events))).
Proof.
  intros Hsess Hconn Hbad.
  destruct (splunk_ensure_connected_spec s) as (s1 & Hens & Hsame & _).
  rewrite (Hsame Hsess Hconn) in Hens.
  destruct (batch_payloads_spec events index [] s) as [Hst Hres].
  unfold send_batch, try_except, mbind, M_bind. rewrite Hens.
  destruct (batch_payloads events index [] s) as [[payloads|e] s2] eqn:Hb;
    simpl in Hst, Hres; subst s2.
  - destruct Hres as [_ Hall]. exfalso.
    apply Exists_exists in Hbad as (ev & Hin & Hraise).
    rewrite Forall_forall in Hall. specialize (Hall ev Hin). congruence.
  - eexists. split; [reflexivity|]. done.
Qed.

(** X19.  With a session and [connected] true, when every payload can be
    built [send_batch] sends the whole batch in one POST to the collector
    URL, with the HEC token in the [Authorization] header and as many
    payloads as there are events, joined by newlines; this also holds of
    the empty batch, which is posted with an empty body. *)
Theorem splunk_send_batch_single_post events index s :
  is_Some (session (self s)) →
  connected (self s) = true →
  Forall (λ ev, is_raise (hec_payload ev index s).1 = false) events →
  ∃ payloads,
    (batch_payloads events index [] s).1 = Ret payloads ∧
    length payloads = length events ∧
    posted (send_batch events index s).2
    = posted s ++ [{| url := hec_url (self s);
                      headers := authorization (self s);
                      content := Data (join_lines payloads);
                      ssl := ssl_of (self s) |}].
Proof.
  intros [x Hx] Hconn Hgood.
  destruct (splunk_ensure_connected_spec s) as (s1 & Hens & Hsame & _).
  rewrite (Hsame (mk_is_Some _ _ Hx) Hconn) in Hens.
  destruct (batch_payloads_spec events index [] s) as [Hst Hres].
  unfold send_batch, try_except, mbind, M_bind. rewrite Hens.
  destruct (batch_payloads events index [] s) as [[payloads|e] s2] eqn:Hb;
    simpl in Hst, Hres; subst s2.
  - destruct Hres as [Hlen _]. exists payloads. split_and!; [done | done |].
    unfold get, session_post. simpl. rewrite Hx.
    destruct (post x _ (env s)) as [[response|e] e']; simpl; [|done].
    destruct (status response =? 200); unfold await, mret, M_ret; simpl.
    + by destruct (json response).
    + by destruct (text response).
  - exfalso. apply Exists_exists in Hres as (ev & Hin & Hraise).
    rewrite Forall_forall in Hgood. specialize (Hgood ev Hin). congruence.
Qed.

(** X20.  [send_event] of the Splunk connector never raises, and returns
    true exactly when, once the connection has been looked after, the
    connector has a session, the payload of the event can be built, and
    the collector answers the POST of that payload with status 200. *)
Theorem splunk_send_event_acknowledged event index s :
  ∃ b s',
    send_event event index s = (Ret b, s') ∧
    (b = true ↔
     ∃ x payload response e',
       session (self (ensure_connected s).2) = Some x ∧
       (hec_payload event index (ensure_connected s).2).1 = Ret payload ∧
       post x {| url := hec_url (self (ensure_connected s).2);
                 headers := authorization (self (ensure_connected s).2);
                 content := Json payload;
                 ssl := ssl_of (self (ensure_connected s).2) |}
            (env (ensure_connected s).2) = (Ret response, e') ∧
       status response = 200).
Proof.
  destruct (splunk_ensure_connected_spec s) as (s1 & Hens & _ & _).
  unfold send_event, try_except, mbind, M_bind. rewrite Hens. simpl.
  pose proof (hec_payload_state event index s1) as Hst.
  destruct (hec_payload event index s1) as [[payload|e] s2] eqn:Hp; simpl in Hst; subst s2.
  - unfold get, session_post. simpl.
    destruct (session (self s1)) as [x|] eqn:Hx; simpl.
    + destruct (post x _ (env s1)) as [[response|e] e'] eqn:Hpost; simpl.
      * destruct (status response =? 200) eqn:Hstatus; unfold await, mret, M_ret; simpl.
        -- eexists _, _. split; [reflexivity|]. split; [|done]. intros _.
           exists x, payload, response, e'. split_and!; try done. by apply Z.eqb_eq.
        -- assert (Hno : ¬ ∃ x0 payload0 response0 e'0,
                     Some x = Some x0 ∧ Ret payload = Ret payload0 ∧
                     post x0 {| url := hec_url (self s1);
                                headers := authorization (self s1);
                                content := Json payload0;
                                ssl := ssl_of (self s1) |} (env s1)
                     = (Ret response0, e'0) ∧ status response0 = 200).
           { intros (x0 & p0 & r0 & e0 & [= <-] & [= <-] & Hp0 & Hs0).
             rewrite Hpost in Hp0. injection Hp0 as <- <-.
             apply Z.eqb_neq in Hstatus. done. }
           destruct (text response); eexists _, _; (split; [reflexivity|]);
             (split; [done | by intros H; destruct (Hno H)]).
      * eexists _, _. split; [reflexivity|]. split; [done|].
        intros (x0 & p0 & r0 & e0 & [= <-] & [= <-] & Hp0 & _).
        by rewrite Hpost in Hp0.
    + eexists _, _. split; [reflexivity|]. split; [done|].
      by intros (x0 & p0 & r0 & e0 & ? & _).
  - eexists _, _. split; [reflexivity|]. split; [done|].
    by intros (x0 & p0 & r0 & e0 & _ & ? & _).
Qed.

(** X21.  A Splunk connector that lacks a username or a password and has
    no session key never gets one, so its [query_events] returns the empty
    list whatever the query, and posts nothing. *)
Theorem splunk_query_events_needs_login query start_time end_time limit s :
  str_truthy (username (self s)) && str_truthy (password (self s)) = false →
  truthy (session_key (self s)) = false →
  ∃ s',
    query_events query start_time end_time limit s = (Ret (VList []), s') ∧
    posted s' = posted s ∧
    session_key (self s') = session_key (self s).
Proof.
  intros Hcred Hkey.
  destruct (splunk_ensure_connected_spec s) as (s1 & Hens & _ & Hkeep).
  destruct (Hkeep Hcred) as [Hposted Hkey1].
  unfold query_events, try_except, mbind, M_bind. rewrite Hens.
  unfold get. simpl. rewrite Hkey1, Hkey. simpl.
  by exists s1.
Qed.

End SplunkFacts.

(** ** The connectors of the repository under the registry *)

Section ConnectorFacts.
Import Base Service.
Context {Client Env Session Env' : Type}
        {ES : ELK.Elasticsearch Client Env} {ESM : ELKMore.ElasticsearchMore Client Env}
        {HTTP : Splunk.Aiohttp Session Env'} {HTTPM : SplunkMore.AiohttpMore Session Env'}.

Abbreviation repo_connector :=
  (ELK.State Client Env + Splunk.State Session Env')%type.

Implicit Types (c : repo_connector) (w : World repo_connector).

Lemma elk_test_connection_returns (s : ELK.State Client Env) :
  ∃ r s', ELKMore.test_connection s = (Ret r, s').
Proof.
  unfold ELKMore.test_connection.
  match goal with |- context [try_except ?b ?h s] =>
    destruct (try_except_returns (λ _, True) b h s) as (r & s' & Hrun & _)
  end; [done | by intros e s'; eexists _, _ | by eauto].
Qed.

Lemma splunk_test_connection_returns (s : Splunk.State Session Env') :
  ∃ r s', SplunkMore.test_connection s = (Ret r, s').
Proof.
  unfold SplunkMore.test_connection.
  match goal with |- context [try_except ?b ?h s] =>
    destruct (try_except_returns (λ _, True) b h s) as (r & s' & Hrun & _)
  end; [done | by intros e s'; eexists _, _ | by eauto].
Qed.

(** No coroutine of a connector of the repository that the registry
    awaits lets an exception out. *)
Lemma repo_connect_returns c : is_raise (connect c).1 = false.
Proof.
  destruct c as [s|s]; simpl; unfold Connectors.dispatch.
  - destruct (connect_frame s) as (Hret & _).
    destruct (ELK.connect s) as [o s']. simpl in Hret. by subst o.
  - by destruct (splunk_connect_spec s) as (b & s' & -> & _).
Qed.

Lemma repo_disconnect_returns c : is_raise (disconnect c).1 = false.
Proof.
  destruct c as [s|s]; simpl; unfold Connectors.dispatch.
  - by destruct (elk_disconnect_spec s) as (b & s' & -> & _).
  - by destruct (splunk_disconnect_spec s) as (b & s' & -> & _).
Qed.

Lemma repo_test_connection_returns c : is_raise (test_connection c).1 = false.
Proof.
  destruct c as [s|s]; simpl; unfold Connectors.dispatch.
  - by destruct (elk_test_connection_returns s) as (r & s' & ->).
  - by destruct (splunk_test_connection_returns s) as (r & s' & ->).
Qed.

(** X22.  For an ELK or a Splunk connector, [health_check] never reports
    the status [error]: their [test_connection] catches every exception,
    so the status is [healthy] or [unhealthy]. *)
Theorem repo_health_check_never_error c :
  ∃ r c' status,
    health_check c = (Ret r, c') ∧
    dict_get "status" r = Some (VStr status) ∧
    (status = "healthy" ∨ status = "unhealthy") ∧
    dict_get "error" r = None.
Proof.
  rewrite health_check_run. pose proof (repo_test_connection_returns c) as Hret.
  destruct (test_connection c) as [[t|e] c1]; simpl in *; [|done].
  destruct (truthy (get_or_none "success" t));
    eexists _, _, _; (split; [reflexivity|]); (split; [reflexivity|]); auto.
Qed.

(** X23.  In a registry of ELK and Splunk connectors, the connectors
    active after [connect_all] are exactly those it reports as connected:
    their [connect] never raises. *)
Theorem repo_connect_all_activates_connected w :
  registry_ok w →
  ∃ results w',
    connect_all w = (Ret results, w') ∧
    (∀ n, n ∈ active_connectors (self w') ↔ dict_get n results = Some true).
Proof.
  intros Hok. apply connect_all_active_iff_success; [done|].
  intros n c _. apply repo_connect_returns.
Qed.

End ConnectorFacts.

(** ** The handlers of the API *)

Section ApiFacts.
Import Service.
Context {Client Env Session Env' : Type}
        {ES : ELK.Elasticsearch Client Env} {ESM : ELKMore.ElasticsearchMore Client Env}
        {HTTP : Splunk.Aiohttp Session Env'} {HTTPM : SplunkMore.AiohttpMore Session Env'}
        {STR : Api.StrMethods}.

Abbreviation api_world := (World (Api.connector (Client := Client) (Env := Env)
                                     (Session := Session) (Env' := Env'))).

(** No connector is active, and the registered names are distinct. *)
Abbreviation idle w :=
  (active_connectors (self w) = [] ∧ NoDup (dict_keys (connectors (self w)))).

Implicit Types (w : api_world).

Lemma on_connector_idle {A} n meth c (m : M Api.connector A) w :
  idle w → idle (on_connector n meth c m w).2.
Proof.
  intros [Hact Hnd]. unfold on_connector.
  destruct (dict_get n (connectors (self w))) as [obj|].
  - destruct (m obj) as [r obj']. simpl. split; [done | by apply NoDup_dict_set].
  - by destruct (m c) as [r obj'].
Qed.

Lemma on_connector_untagged_idle {A} n c (m : M Api.connector A) w :
  idle w → idle (Api.on_connector_untagged n c m w).2.
Proof.
  intros [Hact Hnd]. unfold Api.on_connector_untagged.
  destruct (dict_get n (connectors (self w))) as [obj|].
  - destruct (m obj) as [r obj']. simpl. split; [done | by apply NoDup_dict_set].
  - by destruct (m c) as [r obj'].
Qed.

Lemma service_unregister_idle n w :
  idle w → idle (Service.unregister_connector n w).2.
Proof.
  intros [Hact Hnd]. rewrite unregister_connector_run.
  destruct (dict_mem n (connectors (self w))); [|done]. simpl.
  rewrite Hact. split; [done | by apply NoDup_dict_del].
Qed.

Lemma scheduled_idle w : active_connectors (self w) = [] → scheduled w = [].
Proof. unfold scheduled. by intros ->. Qed.

Lemma send_event_to_all_idle event index w :
  active_connectors (self w) = [] →
  send_event_to_all event index w = (Ret [], w).
Proof.
  intros Hact. unfold send_event_to_all, mbind, M_bind, get at 1. simpl.
  by rewrite (scheduled_idle w Hact).
Qed.

Lemma send_batch_to_all_idle events index w :
  active_connectors (self w) = [] →
  send_batch_to_all events index w = (Ret [], w).
Proof.
  intros Hact. unfold send_batch_to_all, mbind, M_bind, get at 1. simpl.
  by rewrite (scheduled_idle w Hact).
Qed.

Lemma api_list_connectors_state w : (Api.list_connectors w).2 = w.
Proof. reflexivity. Qed.

Lemma api_register_connector_idle config elk_world splunk_world w :
  idle w → idle (Api.register_connector config elk_world splunk_world w).2.
Proof.
  intros Hidle. unfold Api.register_connector, Api.guarded, try_except. cbv zeta.
  destruct (decide (Api.lower (Api.siem_type config) = "elk")) as [Helk|Hnelk].
  - unfold mbind, M_bind. rewrite register_connector_run. simpl.
    set (r := on_connector _ _ _ _ _).
    assert (idle r.2) as Hstep.
    { apply on_connector_idle. destruct Hidle as [Hact Hnd].
      split; [done | by apply NoDup_dict_set]. }
    clearbody r. destruct r as [[b|e] w2]; exact Hstep.
  - destruct (decide (Api.lower (Api.siem_type config) = "splunk")) as [Hsp|Hnsp];
      [|done].
    unfold mbind, M_bind. rewrite register_connector_run. simpl.
    set (r := on_connector _ _ _ _ _).
    assert (idle r.2) as Hstep.
    { apply on_connector_idle. destruct Hidle as [Hact Hnd].
      split; [done | by apply NoDup_dict_set]. }
    clearbody r. destruct r as [[b|e] w2]; exact Hstep.
Qed.

Lemma api_unregister_connector_idle n w :
  idle w → idle (Api.unregister_connector n w).2.
Proof.
  intros Hidle. unfold Api.unregister_connector, Api.guarded, try_except.
  unfold get_connector, mbind, M_bind, get, mret, M_ret. simpl.
  destruct (dict_get n (connectors (self w))) as [c|].
  - set (r := on_connector _ _ _ _ _).
    assert (idle r.2) as Hstep by (by apply on_connector_idle).
    clearbody r. destruct r as [[b|e] w1]; simpl in *; [|exact Hstep].
    set (r := Service.unregister_connector _ _).
    assert (idle r.2) as Hun by (by apply service_unregister_idle).
    clearbody r. destruct r as [[[|]|e] w2]; exact Hun.
  - set (r := Service.unregister_connector _ _).
    assert (idle r.2) as Hun by (by apply service_unregister_idle).
    clearbody r. destruct r as [[[|]|e] w2]; exact Hun.
Qed.

Lemma api_test_connector_idle n w :
  idle w → idle (Api.test_connector n w).2.
Proof.
  intros Hidle. unfold Api.test_connector, Api.guarded, try_except.
  unfold get_connector, mbind, M_bind, get, mret, M_ret. simpl.
  destruct (dict_get n (connectors (self w))) as [c|] eqn:Hc; [|done].
  set (r := Api.on_connector_untagged _ _ _ _).
  assert (idle r.2) as Hstep by (by apply on_connector_untagged_idle).
  clearbody r. destruct r as [[r|e] w1]; exact Hstep.
Qed.

Lemma api_health_check_all_idle now w :
  idle w → idle (Api.health_check_all now w).2.
Proof.
  intros [Hact Hnd]. unfold Api.health_check_all, Api.guarded, try_except.
  unfold mbind, M_bind.
  destruct (health_check_all_unchanged w) as (hm & w' & -> & Hk & Ha). simpl.
  by rewrite Hk, Ha.
Qed.

Lemma api_forward_event_idle event connector_name w :
  idle w → idle (Api.forward_event_to_siems event connector_name w).2.
Proof.
  intros Hidle. unfold Api.forward_event_to_siems, Api.guarded, try_except.
  destruct connector_name as [n|].
  - destruct (str_truthy (Some n)).
    + unfold get_connector, mbind, M_bind, get, mret, M_ret. simpl.
      destruct (dict_get n (connectors (self w))) as [c|]; [|done].
      set (r := on_connector _ _ _ _ _).
      assert (idle r.2) as Hstep by (by apply on_connector_idle).
      clearbody r. destruct r as [[b|e] w2]; exact Hstep.
    + unfold mbind, M_bind.
      rewrite (send_event_to_all_idle event None w); [done | by destruct Hidle].
  - unfold mbind, M_bind.
    rewrite (send_event_to_all_idle event None w); [done | by destruct Hidle].
Qed.

Lemma api_forward_batch_idle events connector_name w :
  idle w → idle (Api.forward_batch_to_siems events connector_name w).2.
Proof.
  intros Hidle. unfold Api.forward_batch_to_siems, Api.guarded, try_except.
  destruct connector_name as [n|].
  - destruct (str_truthy (Some n)).
    + unfold get_connector, mbind, M_bind, get, mret, M_ret. simpl.
      destruct (dict_get n (connectors (self w))) as [c|]; [|done].
      set (r := on_connector _ _ _ _ _).
      assert (idle r.2) as Hstep by (by apply on_connector_idle).
      clearbody r. destruct r as [[b|e] w2]; exact Hstep.
    + unfold mbind, M_bind.
      rewrite (send_batch_to_all_idle events None w); [done | by destruct Hidle].
  - unfold mbind, M_bind.
    rewrite (send_batch_to_all_idle events None w); [done | by destruct Hidle].
Qed.

Lemma served_idle w : Api.served w → idle w.
Proof.
  induction 1.
  - split; [done | constructor].
  - by rewrite api_list_connectors_state.
  - by apply api_register_connector_idle.
  - by apply api_unregister_connector_idle.
  - by apply api_test_connector_idle.
  - by apply api_health_check_all_idle.
  - by apply api_forward_event_idle.
  - by apply api_forward_batch_idle.
Qed.

(** X24.  Starting from the fresh service, no sequence of calls of the
    handlers makes a connector active: [active_connectors] stays empty
    (no handler calls [connect_all]).  So a forward request that names no
    connector reaches none: it answers with zero connectors and leaves
    the service as it was. *)
Theorem served_never_active w event events :
  Api.served w →
  active_connectors (self w) = [] ∧
  NoDup (dict_keys (connectors (self w))) ∧
  Api.forward_event_to_siems event None w
  = (Ret (Api.Response [("success", VBool true);
                        ("results", VDict []);
                        ("event_id", get_or_none "event_id" event);
                        ("total_connectors", VInt 0);
                        ("successful", VInt 0)]), w) ∧
  Api.forward_batch_to_siems events None w
  = (Ret (Api.Response [("success", VBool true);
                        ("results", VDict []);
                        ("total_events", VInt (Z.of_nat (length events)));
                        ("total_connectors", VInt 0)]), w).
Proof.
  intros Hserved. destruct (served_idle w Hserved) as [Hact Hnd].
  split_and!; [done | done | |].
  - unfold Api.forward_event_to_siems, Api.guarded, try_except, mbind, M_bind.
    by rewrite (send_event_to_all_idle event None w Hact).
  - unfold Api.forward_batch_to_siems, Api.guarded, try_except, mbind, M_bind.
    by rewrite (send_batch_to_all_idle events None w Hact).
Qed.

(** X25.  The handler that removes a connector, in a registry that
    satisfies its invariant.  For a name that is not registered it raises
    the HTTP error 404 and changes nothing.  For a registered ELK or
    Splunk connector it runs [disconnect] once, then drops the connector
    from the registry and from the active list, and answers normally:
    [disconnect] of these connectors never raises, so the error 500 does
    not occur. *)
Theorem api_unregister_connector_outcome n w :
  registry_ok w →
  match dict_get n (connectors (self w)) with
  | None =>
      Api.unregister_connector n w
      = (Ret (Api.HTTPException 404 "Connector not found"), w)
  | Some c =>
      ∃ body w',
        Api.unregister_connector n w = (Ret (Api.Response body), w') ∧
        dict_get n (connectors (self w')) = None ∧
        list_mem n (active_connectors (self w')) = false ∧
        calls w' = calls w ++ [(n, MDisconnect)]
  end.
Proof.
  intros (Hkeys & Hact & Hsub). unfold Api.connector in *.
  assert (Hrun : Api.unregister_connector n w
    = Api.guarded (λ _, "Failed to unregister connector")
        (match dict_get n (connectors (self w)) with
         | Some c => on_connector n MDisconnect c Base.disconnect;; mret ()
         | None => mret ()
         end;;
         success ← Service.unregister_connector n;
         if negb success then mret (Api.HTTPException 404 "Connector not found")
         else mret (Api.Response [
                ("success", VBool true);
                ("message", VStr ("Connector '" +:+ n
                                  +:+ "' unregistered successfully"))])) w)
    by reflexivity.
  destruct (dict_get n (connectors (self w))) as [c|] eqn:Hc.
  - rewrite Hrun. unfold Api.guarded, try_except, mbind, M_bind, mret, M_ret.
    rewrite (on_connector_run n MDisconnect c c Base.disconnect w Hc).
    pose proof (repo_disconnect_returns c) as Hret.
    destruct (Base.disconnect c) as [[b|e] c'] eqn:Hd; simpl in Hret; [|done].
    cbn [fst snd]. rewrite unregister_connector_run.
    cbn [fst snd self set_connectors log_call connectors active_connectors set_active].
    assert (Hmem : dict_mem n (dict_set n c' (connectors (self w))) = true).
    { apply dict_mem_true. rewrite dict_keys_set_mem; by eapply dict_get_Some_keys. }
    rewrite Hmem. cbn [negb]. cbv beta iota. eexists _, _. split; [reflexivity|]. simpl.
    split_and!; [| |done].
    + apply dict_get_del_eq. by apply NoDup_dict_set.
    + apply list_mem_false.
      destruct (list_mem n (active_connectors (self w))) eqn:Hin.
      * rewrite (elem_of_list_remove n n _ Hact). by intros [_ ?].
      * by apply list_mem_false.
  - rewrite Hrun. unfold Api.guarded, try_except, mbind, M_bind, mret, M_ret.
    rewrite unregister_connector_run.
    assert (Hmem : dict_mem n (connectors (self w)) = false).
    { unfold dict_mem. rewrite Hc. apply bool_decide_eq_false. by intros [? ?]. }
    by rewrite Hmem.
Qed.





End ApiFacts.
(** * Runs of the further properties *)

Section MoreRuns.
Import Base Service Fixtures FixturesMore.

Lemma one_sink_ok : registry_ok one_sink.
Proof.
  unfold registry_ok; simpl. split_and!.
  - apply (bool_decide_unpack _). by vm_compute.
  - constructor.
  - intros n Hn. by apply elem_of_nil in Hn.
Defined.

Lemma repo_sinks_ok : registry_ok repo_sinks.
Proof.
  unfold registry_ok; simpl. split_and!.
  - apply (bool_decide_unpack _). by vm_compute.
  - apply (bool_decide_unpack _). by vm_compute.
  - intros n Hn. apply list_elem_of_singleton in Hn. subst n. apply list_elem_of_here.
Defined.

Lemma remove_empty_dicts_lookup_metadata :
  NoDup (dict_keys event_with_lists) ∧
  ∃ cleaned,
    _remove_empty_dicts (VDict event_with_lists) = VDict cleaned ∧
    dict_get "metadata" cleaned = Some (VDict [("tags", VList [VDict []])]).
Proof.
  assert (Hkeys : NoDup (dict_keys event_with_lists))
    by (apply (bool_decide_unpack _); by vm_compute).
  split; [exact Hkeys|].
  destruct (remove_empty_dicts_lookup event_with_lists "metadata" Hkeys)
    as (cleaned & Hrun & Hget).
  exists cleaned. split; [exact Hrun | exact Hget].
Defined.

Lemma format_dlp_event_defaults_bare_event :
  dict_get "timestamp" bare_event = None ∧
  ∃ fields,
    format_dlp_event (Datetime 2024 3 7 23 59 58 0) bare_event = VDict fields ∧
    dict_get "timestamp" fields = Some (VStr "2024-03-07T23:59:58") ∧
    dict_get "severity" fields = Some (VStr "medium").
Proof.
  split; [reflexivity|].
  destruct (format_dlp_event_defaults (Datetime 2024 3 7 23 59 58 0) bare_event
              eq_refl eq_refl eq_refl eq_refl)
    as (fields & dlp & Hrun & Htime & Hsev & _).
  exists fields. split_and!; [exact Hrun | exact Htime | exact Hsev].
Defined.


Lemma service_invariant_after_register :
  reachable (register_connector (up "sink_a") init).2 ∧
  NoDup (dict_keys (connectors (self (register_connector (up "sink_a") init).2))).
Proof.
  assert (Hreach : reachable (register_connector (up "sink_a") init).2)
    by (apply reach_register, reach_init).
  split; [exact Hreach|].
  exact (proj1 (service_invariant _ Hreach)).
Defined.

Lemma connect_all_results_two_sinks :
  registry_ok two_sinks ∧
  ∃ results w',
    connect_all two_sinks = (Ret results, w') ∧
    dict_get "sink_a" results = Some true ∧
    dict_get "sink_b" results = Some false.
Proof.
  split; [exact two_sinks_ok|].
  destruct (connect_all_results two_sinks two_sinks_ok)
    as (results & w' & Hrun & _ & Hentry).
  exists results, w'. split_and!; [exact Hrun | |].
  - exact (Hentry "sink_a" (up "sink_a") eq_refl).
  - exact (Hentry "sink_b" (down "sink_b") eq_refl).
Defined.

Lemma connect_all_activates_one_sink :
  registry_ok one_sink ∧
  ∃ results w',
    connect_all one_sink = (Ret results, w') ∧
    (∀ n, n ∈ active_connectors (self w') ↔ dict_get n results = Some true).
Proof.
  split; [exact one_sink_ok|].
  apply (connect_all_activates_connected one_sink one_sink_ok).
  intros n c Hc. simpl in Hc. case_decide; simplify_eq. reflexivity.
Defined.

Lemma send_batch_to_all_two_sinks :
  registry_ok two_sinks ∧
  ∃ results_map w',
    send_batch_to_all [sample_event] None two_sinks = (Ret results_map, w') ∧
    dict_keys results_map = ["sink_a"; "sink_b"] ∧
    dict_get "sink_b" results_map
    = Some [("success", VBool false); ("error", VStr "connection refused")] ∧
    calls w' = [("sink_a", MSendBatch); ("sink_b", MSendBatch)].
Proof.
  split; [exact two_sinks_ok|].
  destruct (send_batch_to_all_fan_out [sample_event] None two_sinks two_sinks_ok)
    as (results_map & w' & Hrun & Hkeys & Hentry & _ & _ & Hcalls).
  exists results_map, w'. split_and!; [exact Hrun | exact Hkeys | | exact Hcalls].
  apply (Hentry "sink_b" (down "sink_b")); [|reflexivity].
  apply list_elem_of_further, list_elem_of_here.
Defined.

Lemma disconnect_all_two_sinks :
  registry_ok two_sinks ∧
  ∃ results w',
    disconnect_all two_sinks = (Ret results, w') ∧
    dict_get "sink_a" results = Some true ∧
    ¬ "sink_a" ∈ active_connectors (self w').
Proof.
  split; [exact two_sinks_ok|].
  destruct (disconnect_all_deactivates two_sinks two_sinks_ok)
    as (results & w' & Hrun & _ & Hentry).
  destruct (Hentry "sink_a" (up "sink_a") eq_refl) as [Hres Hact].
  exists results, w'. split_and!; [exact Hrun | exact Hres |].
  intros Hin. apply Hact in Hin. destruct Hin as [_ Hraise]. discriminate Hraise.
Defined.

Lemma splunk_send_batch_numbered_event :
  is_raise (Splunk.hec_payload (Aiohttp0 := StrictCollector) numbered_event None splunk).1
  = true ∧
  ∃ r,
    Splunk.send_batch (Aiohttp0 := StrictCollector) [sample_event; numbered_event] None splunk
    = (Ret r, splunk) ∧
    dict_get "indexed" r = Some (VInt 0) ∧
    dict_get "failed" r = Some (VInt 2).
Proof.
  assert (Hbad : is_raise (Splunk.hec_payload (Aiohttp0 := StrictCollector)
                             numbered_event None splunk).1 = true)
    by (by vm_compute).
  split; [exact Hbad|].
  destruct (splunk_send_batch_all_or_nothing (HTTP := StrictCollector)
              [sample_event; numbered_event] None splunk)
    as (r & Hrun & _ & Hindexed & Hfailed).
  - by eexists.
  - reflexivity.
  - apply Exists_cons_tl, Exists_cons_hd. exact Hbad.
  - exists r. split_and!; [exact Hrun | exact Hindexed | exact Hfailed].
Defined.

Lemma splunk_send_batch_two_events :
  Splunk.connected (Splunk.self splunk) = true ∧
  ∃ payloads,
    length payloads = 2%nat ∧
    Splunk.posted (Splunk.send_batch [sample_event; sample_event] None splunk).2
    = [{| Splunk.url := Splunk.hec_url (Splunk.self splunk);
          Splunk.headers := Splunk.authorization (Splunk.self splunk);
          Splunk.content := Splunk.Data (Splunk.join_lines payloads);
          Splunk.ssl := Splunk.ssl_of (Splunk.self splunk) |}].
Proof.
  split; [reflexivity|].
  destruct (splunk_send_batch_single_post [sample_event; sample_event] None splunk)
    as (payloads & _ & Hlen & Hposted).
  - by eexists.
  - reflexivity.
  - repeat constructor; by vm_compute.
  - exists payloads. split; [exact Hlen | exact Hposted].
Defined.

Lemma splunk_query_events_without_login :
  truthy (Splunk.session_key (Splunk.self splunk)) = false ∧
  ∃ s',
    SplunkMore.query_events "severity=high" (Datetime 2024 3 7 0 0 0 0)
      (Datetime 2024 3 8 0 0 0 0) 100 splunk = (Ret (VList []), s') ∧
    Splunk.posted s' = [].
Proof.
  split; [reflexivity|].
  destruct (splunk_query_events_needs_login "severity=high"
              (Datetime 2024 3 7 0 0 0 0) (Datetime 2024 3 8 0 0 0 0) 100 splunk
              eq_refl eq_refl)
    as (s' & Hrun & Hposted & _).
  exists s'. split; [exact Hrun | exact Hposted].
Defined.

Lemma repo_connect_all_repo_sinks :
  registry_ok repo_sinks ∧
  ∃ results w',
    connect_all repo_sinks = (Ret results, w') ∧
    (∀ n, n ∈ active_connectors (self w') ↔ dict_get n results = Some true).
Proof.
  split; [exact repo_sinks_ok|].
  exact (repo_connect_all_activates_connected repo_sinks repo_sinks_ok).
Defined.

Lemma served_after_register :
  Api.served (Api.register_connector production_elk tt tt init).2 ∧
  active_connectors (self (Api.register_connector production_elk tt tt init).2) = [].
Proof.
  assert (Hserved : Api.served (Api.register_connector production_elk tt tt init).2)
    by (apply Api.served_register, Api.served_init).
  split; [exact Hserved|].
  exact (proj1 (served_never_active _ sample_event [sample_event] Hserved)).
Defined.

Lemma api_unregister_connector_repo_sinks :
  registry_ok repo_sinks ∧
  ∃ body w',
    Api.unregister_connector "Splunk" repo_sinks = (Ret (Api.Response body), w') ∧
    dict_get "Splunk" (connectors (self w')) = None ∧
    calls w' = [("Splunk", MDisconnect)].
Proof.
  split; [exact repo_sinks_ok|].
  destruct (api_unregister_connector_outcome "Splunk" repo_sinks repo_sinks_ok)
    as (body & w' & Hrun & Hget & _ & Hcalls).
  exists body, w'. split_and!; [exact Hrun | exact Hget | exact Hcalls].
Defined.

End MoreRuns.

(** ** The handlers that address one connector *)

Section NamedFacts.
Import Service.
Context {Client Env Session Env' : Type}
        {ES : ELK.Elasticsearch Client Env} {ESM : ELKMore.ElasticsearchMore Client Env}
        {HTTP : Splunk.Aiohttp Session Env'} {HTTPM : SplunkMore.AiohttpMore Session Env'}
        {STR : Api.StrMethods}.
Implicit Types (w : World (ELK.State Client Env + Splunk.State Session Env'))
               (c : ELK.State Client Env + Splunk.State Session Env').

Lemma try_except_mret_returns {S A} (body : M S A) (f : exn → A) s :
  is_raise (try_except body (λ e, mret (f e)) s).1 = false.
Proof. unfold try_except. by destruct (body s) as [[a|e] s1]. Qed.

Lemma repo_send_event_returns event index c :
  is_raise (Base.send_event event index c).1 = false.
Proof.
  destruct c as [s|s]; simpl; unfold Connectors.dispatch.
  - pose proof (try_except_mret_returns
                  (A := bool) (S := ELK.State Client Env)) as Hret.
    unfold ELK.send_event.
    match goal with |- context [try_except ?body ?h s] =>
      specialize (Hret body (λ _, false) s);
      destruct (try_except body h s) as [[b|e] s']
    end; done.
  - unfold SplunkMore.send_event.
    pose proof (try_except_mret_returns
                  (A := bool) (S := Splunk.State Session Env')) as Hret.
    match goal with |- context [try_except ?body ?h s] =>
      specialize (Hret body (λ _, false) s);
      destruct (try_except body h s) as [[b|e] s']
    end; done.
Qed.

Lemma repo_send_batch_returns events index c :
  is_raise (Base.send_batch events index c).1 = false.
Proof.
  destruct c as [s|s]; simpl; unfold Connectors.dispatch.
  - unfold ELK.send_batch.
    match goal with |- context [try_except ?body ?h s] =>
      pose proof (try_except_mret_returns body
        (λ e, [("success", VBool false);
               ("error", VStr (str e));
               ("total", VInt (Z.of_nat (length events)));
               ("indexed", VInt 0);
               ("failed", VInt (Z.of_nat (length events)))]) s) as Hret;
      destruct (try_except body h s) as [[b|e] s']
    end; done.
  - destruct (splunk_send_batch_counts events index s) as (r & s' & -> & _). done.
Qed.

(** X27.  The handler that tests a connector.  For a name that is not
    registered it raises the HTTP error 404 and changes nothing.  For a
    registered ELK or Splunk connector it answers with what the
    connector's [test_connection] returned, a failed test included, and
    the error 500 does not occur; the connector keeps what the test did to
    it (a connection it opened, say), and neither the other connectors nor
    the active list change. *)
Theorem api_test_connector_outcome n w :
  match dict_get n (connectors (self w)) with
  | None =>
      Api.test_connector n w
      = (Ret (Api.HTTPException 404 "Connector not found"), w)
  | Some c =>
      ∃ result c',
        Base.test_connection c = (Ret result, c') ∧
        Api.test_connector n w
        = (Ret (Api.Response result), set_connectors (dict_set n c') w)
  end.
Proof.
  assert (Hrun : Api.test_connector n w
    = Api.guarded (λ _, "Connection test failed")
        (match dict_get n (connectors (self w)) with
         | None => mret (Api.HTTPException 404 "Connector not found")
         | Some c =>
             result ← Api.on_connector_untagged n c Base.test_connection;
             mret (Api.Response result)
         end) w) by reflexivity.
  unfold Api.connector in *.
  destruct (dict_get n (connectors (self w))) as [c|] eqn:Hc; [|exact Hrun].
  pose proof (repo_test_connection_returns c) as Hret.
  destruct (Base.test_connection c) as [[result|e] c'] eqn:Htest; [|done].
  exists result, c'. split; [done|]. rewrite Hrun.
  unfold Api.guarded, try_except, mbind, M_bind, mret, M_ret,
    Api.on_connector_untagged.
  unfold Api.connector in *. by rewrite Hc, Htest.
Qed.

(** X28.  Forwarding an event to a connector named in the request.  For a
    name that is not registered the handler raises the HTTP error 404 and
    changes nothing.  For a registered ELK or Splunk connector it runs
    [send_event] on it once, whether the connector is active or not, and
    answers with the boolean that returned; the error 500 does not occur,
    and the active list is unchanged. *)
Theorem api_forward_event_named event n w :
  n ≠ "" →
  match dict_get n (connectors (self w)) with
  | None =>
      Api.forward_event_to_siems event (Some n) w
      = (Ret (Api.HTTPException 404 "Connector not found"), w)
  | Some c =>
      ∃ success c' w',
        Base.send_event event None c = (Ret success, c') ∧
        Api.forward_event_to_siems event (Some n) w
        = (Ret (Api.Response [("success", VBool success);
                              ("connector", VStr n);
                              ("event_id", get_or_none "event_id" event)]), w') ∧
        connectors (self w') = dict_set n c' (connectors (self w)) ∧
        active_connectors (self w') = active_connectors (self w) ∧
        calls w' = calls w ++ [(n, MSendEvent)]
  end.
Proof.
  intros Hn.
  assert (Hrun : Api.forward_event_to_siems event (Some n) w
    = Api.guarded (λ _, "Event forwarding failed")
        (match dict_get n (connectors (self w)) with
         | None => mret (Api.HTTPException 404 "Connector not found")
         | Some c =>
             success ← on_connector n MSendEvent c (Base.send_event event None);
             mret (Api.Response [("success", VBool success);
                                 ("connector", VStr n);
                                 ("event_id", get_or_none "event_id" event)])
         end) w).
  { unfold Api.forward_event_to_siems, str_truthy.
    by rewrite (bool_decide_eq_false_2 _ Hn). }
  unfold Api.connector in *.
  destruct (dict_get n (connectors (self w))) as [c|] eqn:Hc; [|exact Hrun].
  pose proof (repo_send_event_returns event None c) as Hret.
  destruct (Base.send_event event None c) as [[success|e] c'] eqn:Hsend; [|done].
  exists success, c'. eexists. split; [done|]. rewrite Hrun.
  unfold Api.guarded, try_except, mbind, M_bind, mret, M_ret.
  rewrite (on_connector_run n MSendEvent c c _ w Hc). rewrite Hsend. done.
Qed.

(** X29.  Forwarding a batch to a connector named in the request.  For a
    name that is not registered the handler raises the HTTP error 404 and
    changes nothing.  For a registered ELK or Splunk connector it runs
    [send_batch] on it once, whether the connector is active or not, and
    answers with the summary that returned, with the number of events
    submitted as [total] and the summary's [success] field as [success];
    the error 500 does not occur, and the active list is unchanged. *)
Theorem api_forward_batch_named events n w :
  n ≠ "" →
  match dict_get n (connectors (self w)) with
  | None =>
      Api.forward_batch_to_siems events (Some n) w
      = (Ret (Api.HTTPException 404 "Connector not found"), w)
  | Some c =>
      ∃ result c' w',
        Base.send_batch events None c = (Ret result, c') ∧
        Api.forward_batch_to_siems events (Some n) w
        = (Ret (Api.Response [("success", get_or "success" (VBool false) result);
                              ("connector", VStr n);
                              ("total", VInt (Z.of_nat (length events)));
                              ("result", VDict result)]), w') ∧
        connectors (self w') = dict_set n c' (connectors (self w)) ∧
        active_connectors (self w') = active_connectors (self w) ∧
        calls w' = calls w ++ [(n, MSendBatch)]
  end.
Proof.
  intros Hn.
  assert (Hrun : Api.forward_batch_to_siems events (Some n) w
    = Api.guarded (λ _, "Batch forwarding failed")
        (match dict_get n (connectors (self w)) with
         | None => mret (Api.HTTPException 404 "Connector not found")
         | Some c =>
             result ← on_connector n MSendBatch c (Base.send_batch events None);
             mret (Api.Response [("success", get_or "success" (VBool false) result);
                                 ("connector", VStr n);
                                 ("total", VInt (Z.of_nat (length events)));
                                 ("result", VDict result)])
         end) w).
  { unfold Api.forward_batch_to_siems, str_truthy.
    by rewrite (bool_decide_eq_false_2 _ Hn). }
  unfold Api.connector in *.
  destruct (dict_get n (connectors (self w))) as [c|] eqn:Hc; [|exact Hrun].
  pose proof (repo_send_batch_returns events None c) as Hret.
  destruct (Base.send_batch events None c) as [[result|e] c'] eqn:Hsend; [|done].
  exists result, c'. eexists. split; [done|]. rewrite Hrun.
  unfold Api.guarded, try_except, mbind, M_bind, mret, M_ret.
  rewrite (on_connector_run n MSendBatch c c _ w Hc). rewrite Hsend. done.
Qed.

End NamedFacts.

Section NamedRuns.
Import Base Service Fixtures FixturesMore.

Lemma api_forward_event_to_splunk :
  "Splunk" ≠ "" ∧
  ∃ success w',
    Api.forward_event_to_siems sample_event (Some "Splunk") repo_sinks
    = (Ret (Api.Response [("success", VBool success);
                          ("connector", VStr "Splunk");
                          ("event_id", VStr "evt-1")]), w') ∧
    active_connectors (self w') = ["ELK Stack"] ∧
    calls w' = [("Splunk", MSendEvent)].
Proof.
  assert (Hn : "Splunk" ≠ "") by discriminate.
  split; [exact Hn|].
  pose proof (api_forward_event_named sample_event "Splunk" repo_sinks Hn) as Hrun.
  assert (Hget : dict_get "Splunk" (connectors (self repo_sinks)) = Some (inr splunk))
    by reflexivity.
  rewrite Hget in Hrun.
  destruct Hrun as (success & c' & w' & _ & Hrun & _ & Hact & Hcalls).
  exists success, w'. split_and!; [exact Hrun | exact Hact | exact Hcalls].
Defined.

Lemma api_forward_batch_to_splunk :
  "Splunk" ≠ "" ∧
  ∃ result w',
    Api.forward_batch_to_siems [sample_event; sample_event] (Some "Splunk") repo_sinks
    = (Ret (Api.Response [("success", get_or "success" (VBool false) result);
                          ("connector", VStr "Splunk");
                          ("total", VInt 2);
                          ("result", VDict result)]), w') ∧
    active_connectors (self w') = ["ELK Stack"] ∧
    calls w' = [("Splunk", MSendBatch)].
Proof.
  assert (Hn : "Splunk" ≠ "") by discriminate.
  split; [exact Hn|].
  pose proof (api_forward_batch_named [sample_event; sample_event] "Splunk"
                repo_sinks Hn) as Hrun.
  assert (Hget : dict_get "Splunk" (connectors (self repo_sinks)) = Some (inr splunk))
    by reflexivity.
  rewrite Hget in Hrun.
  destruct Hrun as (result & c' & w' & _ & Hrun & _ & Hact & Hcalls).
  exists result, w'. split_and!; [exact Hrun | exact Hact | exact Hcalls].
Defined.

End NamedRuns.
